(** * nmdb.py: URL builder, line parser and table assembler

    A shallow embedding of [src/nmdb.py] and of the parts of the Python
    standard library it calls ([str] methods, [re], [urllib.parse]).

    Python text is a sequence of Unicode code points: a character is an [N]
    and a [str] is a list of them.  The character tables ([\d], white space,
    line boundaries) are those of CPython 3.11 (Unicode 14.0). *)

From Stdlib Require Import NArith ZArith List String Ascii Bool Arith Lia.
From Stdlib Require Import DecimalString.
From Stdlib Require Import Permutation Sorted.
Import ListNotations.

Set Implicit Arguments.

(* ================================================================== *)
(** * Python [str] *)
(* ================================================================== *)

Module Str.

Definition char := N.
Definition str := list char.

(** An ASCII literal read as a Python [str]. *)
Definition ch (a : ascii) : char := N_of_ascii a.
Definition py (s : string) : str := map ch (list_ascii_of_string s).

Definition in_range (lo len c : N) : bool := ((lo <=? c) && (c <? lo + len))%N.

(** [\d] of [re] on a [str] pattern: the characters of category Nd, kept as
    (first code point, length) runs. *)
Definition decimal_runs : list (N * N) :=
  [ (0x30, 10); (0x660, 10); (0x6f0, 10); (0x7c0, 10); (0x966, 10);
    (0x9e6, 10); (0xa66, 10); (0xae6, 10); (0xb66, 10); (0xbe6, 10);
    (0xc66, 10); (0xce6, 10); (0xd66, 10); (0xde6, 10); (0xe50, 10);
    (0xed0, 10); (0xf20, 10); (0x1040, 10); (0x1090, 10); (0x17e0, 10);
    (0x1810, 10); (0x1946, 10); (0x19d0, 10); (0x1a80, 10); (0x1a90, 10);
    (0x1b50, 10); (0x1bb0, 10); (0x1c40, 10); (0x1c50, 10); (0xa620, 10);
    (0xa8d0, 10); (0xa900, 10); (0xa9d0, 10); (0xa9f0, 10); (0xaa50, 10);
    (0xabf0, 10); (0xff10, 10); (0x104a0, 10); (0x10d30, 10); (0x11066, 10);
    (0x110f0, 10); (0x11136, 10); (0x111d0, 10); (0x112f0, 10);
    (0x11450, 10); (0x114d0, 10); (0x11650, 10); (0x116c0, 10);
    (0x11730, 10); (0x118e0, 10); (0x11950, 10); (0x11c50, 10);
    (0x11d50, 10); (0x11da0, 10); (0x16a60, 10); (0x16ac0, 10);
    (0x16b50, 10); (0x1d7ce, 50); (0x1e140, 10); (0x1e2f0, 10);
    (0x1e950, 10); (0x1fbf0, 10) ]%N.

Definition isdecimal (c : char) : bool :=
  existsb (fun r => in_range (fst r) (snd r) c) decimal_runs.

(** [str.isspace] for one character; [strip] and [split] use it. *)
Definition space_runs : list (N * N) :=
  [ (0x09, 5); (0x1c, 4); (0x20, 1); (0x85, 1); (0xa0, 1); (0x1680, 1);
    (0x2000, 11); (0x2028, 2); (0x202f, 1); (0x205f, 1); (0x3000, 1) ]%N.

Definition isspace (c : char) : bool :=
  existsb (fun r => in_range (fst r) (snd r) c) space_runs.

(** The line boundaries of [str.splitlines]. *)
Definition is_linebreak (c : char) : bool :=
  existsb (N.eqb c) [0x0a; 0x0b; 0x0c; 0x0d; 0x1c; 0x1d; 0x1e; 0x85; 0x2028; 0x2029]%N.

Definition str_eqb (a b : str) : bool :=
  if list_eq_dec N.eq_dec a b then true else false.

Definition is_empty (s : str) : bool :=
  match s with [] => true | _ => false end.

(** [s.lstrip(chars)] *)
Fixpoint lstrip_chars (chars : str) (s : str) : str :=
  match s with
  | c :: s' => if existsb (N.eqb c) chars then lstrip_chars chars s' else s
  | [] => []
  end.

(** [s.lstrip()], [s.rstrip()], [s.strip()] *)
Fixpoint lstrip (s : str) : str :=
  match s with
  | c :: s' => if isspace c then lstrip s' else s
  | [] => []
  end.

Definition rstrip (s : str) : str := rev (lstrip (rev s)).

Definition strip (s : str) : str := rstrip (lstrip s).

(** [s.startswith(p)] *)
Fixpoint startswith (s p : str) : bool :=
  match p, s with
  | [], _ => true
  | a :: p', b :: s' => (a =? b)%N && startswith s' p'
  | _ :: _, [] => false
  end.

(** [s.split()]: maximal runs of characters that are not white space.
    [cur] holds the characters of the token being read, last one first. *)
Fixpoint split_ws_from (cur : str) (s : str) : list str :=
  match s with
  | [] => match cur with [] => [] | _ => [rev cur] end
  | c :: s' =>
      if isspace c
      then match cur with
           | [] => split_ws_from [] s'
           | _ => rev cur :: split_ws_from [] s'
           end
      else split_ws_from (c :: cur) s'
  end.

Definition split_ws (s : str) : list str := split_ws_from [] s.

(** [s.split(sep)] for a separator of one character: empty fields are kept
    and the result is never empty. *)
Fixpoint split_on_from (sep : char) (cur : str) (s : str) : list str :=
  match s with
  | [] => [rev cur]
  | c :: s' =>
      if (c =? sep)%N then rev cur :: split_on_from sep [] s'
      else split_on_from sep (c :: cur) s'
  end.

Definition split_on (sep : char) (s : str) : list str := split_on_from sep [] s.

(** [s.split(sep, 1)]: at most one cut, at the first separator. *)
Fixpoint split_once_from (sep : char) (cur : str) (s : str) : list str :=
  match s with
  | [] => [rev cur]
  | c :: s' =>
      if (c =? sep)%N then [rev cur; s']
      else split_once_from sep (c :: cur) s'
  end.

Definition split_once (sep : char) (s : str) : list str := split_once_from sep [] s.

(** [s.splitlines()]: a carriage return followed by a line feed is one
    boundary, and a final boundary opens no further line. *)
Fixpoint splitlines_from (cur : str) (s : str) : list str :=
  match s with
  | [] => match cur with [] => [] | _ => [rev cur] end
  | c :: s' =>
      if is_linebreak c
      then rev cur ::
           match s' with
           | c' :: s'' =>
               if ((c =? 0x0d) && (c' =? 0x0a))%N
               then splitlines_from [] s''
               else splitlines_from [] s'
           | [] => splitlines_from [] s'
           end
      else splitlines_from (c :: cur) s'
  end.

Definition splitlines (s : str) : list str := splitlines_from [] s.

(** [sep.join(parts)] *)
Fixpoint join (sep : str) (parts : list str) : str :=
  match parts with
  | [] => []
  | [p] => p
  | p :: rest => p ++ sep ++ join sep rest
  end.

(** [s.replace(a, b)] for single characters [a] and [b]. *)
Definition replace_char (a b : char) (s : str) : str :=
  map (fun c => if (c =? a)%N then b else c) s.

(** [x in s] for a single character. *)
Definition contains (c : char) (s : str) : bool := existsb (N.eqb c) s.

End Str.

Import Str.

(* ================================================================== *)
(** * Python [re] *)
(* ================================================================== *)

Module Re.

(** Character sets of the patterns of the source: [\d] and bracket sets
    (a literal is a set of one). *)
Inductive cset : Type :=
| Digit
| OneOf (members : string).

Definition in_cset (cs : cset) (c : char) : bool :=
  match cs with
  | Digit => isdecimal c
  | OneOf members => contains c (py members)
  end.

(** The pattern syntax the source uses.  Repetition [+] is only ever applied
    to a character set; [{n}] is [rep] below. *)
Inductive re : Type :=
| Eps
| Chr (cs : cset)
| Bol                      (* ^ *)
| Eol                      (* $ *)
| Cat (r1 r2 : re)
| Opt (r : re)             (* (...)? , greedy *)
| Plus (cs : cset)         (* cs+ , greedy *)
| Grp (r : re).            (* ( ... ) *)

Definition Lit (a : ascii) : re := Chr (OneOf (String a EmptyString)).

Fixpoint rep (n : nat) (r : re) : re :=
  match n with
  | 0 => Eps
  | 1 => r
  | S n' => Cat r (rep n' r)
  end.

Definition seq (rs : list re) : re := fold_right Cat Eps rs.

(** [$] without MULTILINE: the end of the text, or just before a line feed
    that ends the text. *)
Definition at_end (s : str) : bool :=
  match s with
  | [] => true
  | [c] => (c =? 0x0a)%N
  | _ => false
  end.

(** Backtracking matcher in continuation style.  [at0] says that nothing of
    the text lies before [s]; [k] is what remains of the pattern. *)
Fixpoint plus_more {A} (p : char -> bool) (s : str) (k : str -> option A) : option A :=
  match s with
  | c :: s' =>
      if p c
      then match plus_more p s' k with
           | Some x => Some x
           | None => k s
           end
      else k s
  | [] => k s
  end.

Fixpoint rmatch {A} (r : re) (at0 : bool) (s : str)
         (k : bool -> str -> option A) : option A :=
  match r with
  | Eps => k at0 s
  | Chr cs =>
      match s with
      | c :: s' => if in_cset cs c then k false s' else None
      | [] => None
      end
  | Bol => if at0 then k at0 s else None
  | Eol => if at_end s then k at0 s else None
  | Cat r1 r2 => rmatch r1 at0 s (fun b s' => rmatch r2 b s' k)
  | Opt r1 =>
      match rmatch r1 at0 s k with
      | Some x => Some x
      | None => k at0 s
      end
  | Plus cs =>
      match s with
      | c :: s' => if in_cset cs c then plus_more (in_cset cs) s' (k false) else None
      | [] => None
      end
  | Grp r1 => rmatch r1 at0 s k
  end.

(** The text of group 0 of a match of [r] that starts at the head of [s]. *)
Definition run (r : re) (at0 : bool) (s : str) : option str :=
  match rmatch r at0 s (fun _ rest => Some rest) with
  | Some rest => Some (firstn (List.length s - List.length rest) s)
  | None => None
  end.

(** [re.match(r, s)] *)
Definition re_match (r : re) (s : str) : option str := run r true s.

(** [re.search(r, s)]: the leftmost start at which [r] matches. *)
Fixpoint search_from (r : re) (at0 : bool) (s : str) : option str :=
  match run r at0 s with
  | Some m => Some m
  | None =>
      match s with
      | [] => None
      | _ :: s' => search_from r false s'
      end
  end.

Definition re_search (r : re) (s : str) : option str := search_from r true s.

Definition matches (r : re) (s : str) : bool :=
  match re_match r s with Some _ => true | None => false end.

End Re.

Import Re.

(* ================================================================== *)
(** * The patterns of nmdb.py *)
(* ================================================================== *)

Definition digits (n : nat) : re := rep n (Chr Digit).

(** [DATE_RE = re.compile(r'^\d{4}-\d{2}-\d{2}$')] *)
Definition DATE_RE : re :=
  seq [Bol; digits 4; Lit "-"; digits 2; Lit "-"; digits 2; Eol].

(** [TIME_RE = re.compile(r'^\d{2}:\d{2}$')] *)
Definition TIME_RE : re :=
  seq [Bol; digits 2; Lit ":"; digits 2; Eol].

(** [NUM_RE = re.compile(r'^[+-]?\d+(\.\d+)?([eE][+-]?\d+)?$')] *)
Definition NUM_RE : re :=
  seq [Bol; Opt (Chr (OneOf "+-")); Plus Digit;
       Opt (Grp (seq [Lit "."; Plus Digit]));
       Opt (Grp (seq [Chr (OneOf "eE"); Opt (Chr (OneOf "+-")); Plus Digit]));
       Eol].

(** [r'^\d{2}:\d{2}(:\d{2})?$'], the time of day of a data line. *)
Definition LINE_TIME_RE : re :=
  seq [Bol; digits 2; Lit ":"; digits 2;
       Opt (Grp (seq [Lit ":"; digits 2])); Eol].

(** [r'(\d{4}-\d{2}-\d{2}[T ]\d{2}:\d{2}(:\d{2})?)']; group 1 spans the
    whole pattern, so its text is the text of the match. *)
Definition DATETIME_RE : re :=
  Grp (seq [digits 4; Lit "-"; digits 2; Lit "-"; digits 2;
            Chr (OneOf "T "); digits 2; Lit ":"; digits 2;
            Opt (Grp (seq [Lit ":"; digits 2]))]).

(* ================================================================== *)
(** * Exceptions *)
(* ================================================================== *)

Inductive exn : Type :=
| ValueError (msg : string)
| UnicodeEncodeError
| IndexError
| RuntimeError (msg : string)
| RequestException (detail : string)   (* requests: connection, timeout *)
| HTTPError (status : N).              (* raise_for_status *)

Inductive res (A : Type) : Type :=
| Ok (a : A)
| Raise (e : exn).

Arguments Ok {A} a.
Arguments Raise {A} e.

Definition bind {A B} (m : res A) (f : A -> res B) : res B :=
  match m with
  | Ok a => f a
  | Raise e => Raise e
  end.

Notation "x <- m ;; f" := (bind m (fun x => f))
  (at level 61, m at next level, right associativity).
Notation "' pat <- m ;; f" := (bind m (fun x => match x with pat => f end))
  (at level 61, pat pattern, m at next level, right associativity).

Fixpoint mapM {A B} (f : A -> res B) (l : list A) : res (list B) :=
  match l with
  | [] => Ok []
  | a :: l' => b <- f a ;; bs <- mapM f l' ;; Ok (b :: bs)
  end.

(* ================================================================== *)
(** * urllib.parse *)
(* ================================================================== *)

Module Urllib.

Definition byte := N.
Definition bytes := list byte.

(** ** UTF-8 *)

(** [str.encode('utf-8', 'strict')]: a surrogate cannot be encoded. *)
Definition utf8_encode_char (c : char) : option bytes :=
  (if c <? 0x80 then Some [c]
   else if c <? 0x800 then Some [0xC0 + c / 64; 0x80 + c mod 64]
   else if (0xD800 <=? c) && (c <? 0xE000) then None
   else if c <? 0x10000
     then Some [0xE0 + c / 4096; 0x80 + (c / 64) mod 64; 0x80 + c mod 64]
   else if c <? 0x110000
     then Some [0xF0 + c / 262144; 0x80 + (c / 4096) mod 64;
                0x80 + (c / 64) mod 64; 0x80 + c mod 64]
   else None)%N.

Fixpoint utf8_encode (s : str) : option bytes :=
  match s with
  | [] => Some []
  | c :: s' =>
      match utf8_encode_char c, utf8_encode s' with
      | Some b, Some bs => Some (b ++ bs)
      | _, _ => None
      end
  end.

Definition is_cont (b : byte) : bool := ((0x80 <=? b) && (b <? 0xC0))%N.

Definition REPLACEMENT : char := 0xFFFD%N.

(** [bytes.decode('utf-8', 'replace')], as CPython's decoder does it: an
    invalid start byte, or the bytes of a sequence read before the byte that
    breaks it, become one U+FFFD, and so does a sequence cut by the end. *)
Fixpoint utf8_decode_replace (bs : bytes) : str :=
  match bs with
  | [] => []
  | b0 :: r0 =>
      (if b0 <? 0x80 then b0 :: utf8_decode_replace r0
       else if b0 <? 0xC2 then REPLACEMENT :: utf8_decode_replace r0
       else if b0 <? 0xE0 then
         match r0 with
         | [] => [REPLACEMENT]
         | b1 :: r1 =>
             if is_cont b1
             then ((b0 - 0xC0) * 64 + (b1 - 0x80)) :: utf8_decode_replace r1
             else REPLACEMENT :: utf8_decode_replace r0
         end
       else if b0 <? 0xF0 then
         match r0 with
         | [] => [REPLACEMENT]
         | b1 :: r1 =>
             if negb (is_cont b1)
                || (if b1 <? 0xA0 then b0 =? 0xE0 else b0 =? 0xED)
             then REPLACEMENT :: utf8_decode_replace r0
             else
               match r1 with
               | [] => [REPLACEMENT]
               | b2 :: r2 =>
                   if is_cont b2
                   then ((b0 - 0xE0) * 4096 + (b1 - 0x80) * 64 + (b2 - 0x80))
                        :: utf8_decode_replace r2
                   else REPLACEMENT :: utf8_decode_replace r1
               end
         end
       else if b0 <? 0xF5 then
         match r0 with
         | [] => [REPLACEMENT]
         | b1 :: r1 =>
             if negb (is_cont b1)
                || (if b1 <? 0x90 then b0 =? 0xF0 else b0 =? 0xF4)
             then REPLACEMENT :: utf8_decode_replace r0
             else
               match r1 with
               | [] => [REPLACEMENT]
               | b2 :: r2 =>
                   if is_cont b2
                   then
                     match r2 with
                     | [] => [REPLACEMENT]
                     | b3 :: r3 =>
                         if is_cont b3
                         then ((b0 - 0xF0) * 262144 + (b1 - 0x80) * 4096
                               + (b2 - 0x80) * 64 + (b3 - 0x80))
                              :: utf8_decode_replace r3
                         else REPLACEMENT :: utf8_decode_replace r2
                     end
                   else REPLACEMENT :: utf8_decode_replace r1
               end
         end
       else REPLACEMENT :: utf8_decode_replace r0)%N
  end.

(** ** unquote *)

Definition hexval (c : char) : option N :=
  (if in_range 0x30 10 c then Some (c - 0x30)
   else if in_range 0x41 6 c then Some (c - 0x41 + 10)
   else if in_range 0x61 6 c then Some (c - 0x61 + 10)
   else None)%N.

(** One piece after a [%]: two hex digits give a byte, anything else keeps
    the [%] as it is. *)
Definition unquote_item (item : str) : bytes :=
  match item with
  | a :: b :: rest =>
      match hexval a, hexval b with
      | Some x, Some y => (16 * x + y)%N :: rest
      | _, _ => ch "%" :: item
      end
  | _ => ch "%" :: item
  end.

(** [unquote_to_bytes] on text of ASCII characters only, which is what
    [unquote] hands it. *)
Definition unquote_to_bytes (s : str) : bytes :=
  match split_on (ch "%") s with
  | [] => []
  | first :: items => first ++ flat_map unquote_item items
  end.

(** [unquote] decodes each maximal run of ASCII characters and leaves the
    other characters where they are ([_asciire.split]). *)
Fixpoint unquote_runs (cur : str) (s : str) : str :=
  match s with
  | [] => utf8_decode_replace (unquote_to_bytes (rev cur))
  | c :: s' =>
      if (c <? 0x80)%N then unquote_runs (c :: cur) s'
      else utf8_decode_replace (unquote_to_bytes (rev cur)) ++ c :: unquote_runs [] s'
  end.

Definition unquote (s : str) : str :=
  if negb (contains (ch "%") s) then s else unquote_runs [] s.

(** ** quote *)

(** [_ALWAYS_SAFE] *)
Definition always_safe (b : byte) : bool :=
  in_range 0x41 26 b || in_range 0x61 26 b || in_range 0x30 10 b
  || contains b (py "_.-~").

Definition hexdigit (n : N) : char :=
  (if n <? 10 then 0x30 + n else 0x41 + (n - 10))%N.

(** One byte through [_Quoter]: itself when safe, [%XX] otherwise. *)
Definition quote_byte (safe : str) (b : byte) : str :=
  if always_safe b || ((b <? 0x80)%N && contains b safe) then [b]
  else [ch "%"; hexdigit (b / 16); hexdigit (b mod 16)]%N.

Definition quote_from_bytes (bs : bytes) (safe : str) : str :=
  flat_map (quote_byte safe) bs.

Definition quote (s : str) (safe : str) : res str :=
  if is_empty s then Ok s
  else match utf8_encode s with
       | Some bs => Ok (quote_from_bytes bs safe)
       | None => Raise UnicodeEncodeError
       end.

Definition quote_plus (s : str) : res str :=
  if negb (contains (ch " ") s) then quote s []
  else q <- quote s [ch " "] ;; Ok (replace_char (ch " ") (ch "+") q).

(** ** parse_qs *)

(** One [name=value] field of [parse_qsl] with the default flags: a field
    with no [=] or with an empty value is left out. *)
Definition parse_field (name_value : str) : list (str * str) :=
  if is_empty name_value then []
  else match split_once (ch "=") name_value with
       | [n; v] =>
           if is_empty v then []
           else [(unquote (replace_char (ch "+") (ch " ") n),
                  unquote (replace_char (ch "+") (ch " ") v))]
       | _ => []
       end.

Definition parse_qsl (qs : str) : list (str * str) :=
  if is_empty qs then [] else flat_map parse_field (split_on (ch "&") qs).

(** A Python [dict] from [str] to lists of [str]: the keys in insertion
    order. *)
Definition dict := list (str * list str).

Fixpoint dict_get (k : str) (dc : dict) : option (list str) :=
  match dc with
  | [] => None
  | (k', v) :: dc' => if str_eqb k' k then Some v else dict_get k dc'
  end.

(** [dc[k] = v]: an existing key keeps its place. *)
Fixpoint dict_set (k : str) (v : list str) (dc : dict) : dict :=
  match dc with
  | [] => [(k, v)]
  | (k', v') :: dc' =>
      if str_eqb k' k then (k', v) :: dc' else (k', v') :: dict_set k v dc'
  end.

(** [dc[k].append(x)] when [k] is present, [dc[k] = [x]] otherwise. *)
Fixpoint dict_append (k : str) (x : str) (dc : dict) : dict :=
  match dc with
  | [] => [(k, [x])]
  | (k', v') :: dc' =>
      if str_eqb k' k then (k', v' ++ [x]) :: dc'
      else (k', v') :: dict_append k x dc'
  end.

Definition parse_qs (qs : str) : dict :=
  fold_left (fun dc nv => dict_append (fst nv) (snd nv) dc) (parse_qsl qs) [].

(** ** urlencode *)

(** [urlencode(query, doseq=True)] on a dict of lists of [str]. *)
Definition encode_entry (kv : str * list str) : res (list str) :=
  k <- quote_plus (fst kv) ;;
  mapM (fun elt => e <- quote_plus elt ;; Ok (k ++ ch "=" :: e)) (snd kv).

Definition urlencode (query : dict) : res str :=
  l <- mapM encode_entry query ;;
  Ok (join [ch "&"] (List.concat l)).

(** ** urlunparse *)

Record ParseResult : Type := mkParseResult {
  scheme : str;
  netloc : str;
  path : str;
  params : str;
  query : str;
  fragment : str
}.

Definition uses_netloc : list str :=
  map py [EmptyString; "ftp"; "http"; "gopher"; "nntp"; "telnet";
          "imap"; "wais"; "file"; "mms"; "https"; "shttp";
          "snews"; "prospero"; "rtsp"; "rtspu"; "rsync";
          "svn"; "svn+ssh"; "sftp"; "nfs"; "git"; "git+ssh";
          "ws"; "wss"]%string.

Definition urlunsplit (scheme netloc url query fragment : str) : str :=
  let url :=
    if negb (is_empty netloc)
       || (negb (is_empty scheme) && existsb (str_eqb scheme) uses_netloc
           && negb (str_eqb (firstn 2 url) (py "//")))
    then
      let url :=
        if negb (is_empty url) && negb (str_eqb (firstn 1 url) (py "/"))
        then py "/" ++ url else url in
      py "//" ++ netloc ++ url
    else url in
  let url := if negb (is_empty scheme) then scheme ++ py ":" ++ url else url in
  let url := if negb (is_empty query) then url ++ py "?" ++ query else url in
  let url := if negb (is_empty fragment) then url ++ py "#" ++ fragment else url in
  url.

Definition urlunparse (scheme netloc url params query fragment : str) : str :=
  let url := if negb (is_empty params) then url ++ py ";" ++ params else url in
  urlunsplit scheme netloc url query fragment.

End Urllib.

Import Urllib.

(* ================================================================== *)
(** * URL builder *)
(* ================================================================== *)

Definition DEFAULT_URL : str :=
  py ("https://www.nmdb.eu/nest/draw_graph.php?"
      ++ "formchk=1&stations[]=OULU&tabchoice=revori&dtype=corr_for_efficiency&"
      ++ "tresolution=5&yunits=0&shift=2&date_choice=bydate&"
      ++ "start_day=29&start_month=7&start_year=2025&start_hour=0&start_min=0&"
      ++ "end_day=29&end_month=8&end_year=2025&end_hour=23&end_min=59&"
      ++ "output=plot&ygrid=1&mline=1&transp=0&fontsize=1&text_color=222222&"
      ++ "background_color=FFFFFF&margin_color=FFFFFF")%string.

(** [s.lstrip('0') or '0'] *)
Definition strip0 (s : str) : str :=
  let t := lstrip_chars (py "0") s in
  if is_empty t then py "0" else t.

(** The five values [_date_time_to_query_parts] returns, in its order. *)
Record query_parts : Type := mkParts {
  q_day : str;
  q_month : str;
  q_year : str;
  q_hour : str;
  q_min : str
}.

Definition date_msg : string := "date debe tener formato YYYY-MM-DD".
Definition time_msg : string := "time debe tener formato HH:MM".

(** Unpacking a list into a fixed number of names raises [ValueError] when
    the lengths differ. *)
Definition unpack_msg : string := "wrong number of values to unpack".

Definition _date_time_to_query_parts (date_str time_str : str) : res query_parts :=
  if negb (matches DATE_RE date_str) then Raise (ValueError date_msg)
  else if negb (matches TIME_RE time_str) then Raise (ValueError time_msg)
  else
    match split_on (ch "-") date_str with
    | [y; m; d] =>
        match split_on (ch ":") time_str with
        | [hh; mm] => Ok (mkParts (strip0 d) (strip0 m) y (strip0 hh) (strip0 mm))
        | _ => Raise (ValueError unpack_msg)
        end
    | _ => Raise (ValueError unpack_msg)
    end.

(** The eleven assignments [qs['start_day'] = [s_day]; ...; qs['output'] =
    ['ascii']], in the order of the source. *)
Definition window_entries (s e : query_parts) : list (str * list str) :=
  [ (py "start_day", [q_day s]); (py "start_month", [q_month s]);
    (py "start_year", [q_year s]);
    (py "start_hour", [q_hour s]); (py "start_min", [q_min s]);
    (py "end_day", [q_day e]); (py "end_month", [q_month e]);
    (py "end_year", [q_year e]);
    (py "end_hour", [q_hour e]); (py "end_min", [q_min e]);
    (py "output", [py "ascii"]) ].

Definition assign_all (entries : list (str * list str)) (qs : dict) : dict :=
  fold_left (fun dc kv => dict_set (fst kv) (snd kv) dc) entries qs.

(** Lines 45 to 54 of the source: the query text of the base URL is parsed,
    the two date and time pairs are checked, the eleven keys are assigned and
    the dict is encoded again. *)
Definition rewritten_query (query_text start_date start_time end_date end_time : str)
  : res str :=
  let qs := parse_qs query_text in
  s <- _date_time_to_query_parts start_date start_time ;;
  e <- _date_time_to_query_parts end_date end_time ;;
  let qs := assign_all (window_entries s e) qs in
  urlencode qs.

Section UrlBuilder.

(** [urllib.parse.urlparse], taken as it is: it may raise. *)
Variable urlparse : str -> res ParseResult.

Definition _build_ascii_url (base_url start_date start_time end_date end_time : str)
  : res str :=
  p <- urlparse base_url ;;
  new_q <- rewritten_query (query p) start_date start_time end_date end_time ;;
  Ok (urlunparse (scheme p) (netloc p) (path p) (params p) new_q (fragment p)).

End UrlBuilder.

(* ================================================================== *)
(** * Line parser *)
(* ================================================================== *)

Definition raw_row : Type := (str * str)%type.

(** The branch of the [if]/[elif] chain that produced a row. *)
Inductive format : Type := FormatA | FormatB | FormatC | FormatD.

(** [tokens[i]] and [tokens[-1]] *)
Definition item (tokens : list str) (i : nat) : res str :=
  match nth_error tokens i with
  | Some t => Ok t
  | None => Raise IndexError
  end.

Definition item_last (tokens : list str) : res str :=
  match tokens with
  | [] => Raise IndexError
  | _ => Ok (last tokens [])
  end.

(** The three conditions, with the short-circuit [and] of the source. *)
Definition condA (tokens : list str) : res bool :=
  if 3 <=? List.length tokens then
    t0 <- item tokens 0 ;;
    if matches DATE_RE t0 then
      t1 <- item tokens 1 ;; Ok (matches LINE_TIME_RE t1)
    else Ok false
  else Ok false.

Definition condB (tokens : list str) : res bool :=
  if 2 <=? List.length tokens then
    t0 <- item tokens 0 ;;
    if matches DATE_RE t0 then
      t1 <- item tokens 1 ;; Ok (matches NUM_RE t1)
    else Ok false
  else Ok false.

Definition condC (tokens : list str) : res bool :=
  t <- item_last tokens ;;
  if matches NUM_RE t then Ok (2 <=? List.length tokens) else Ok false.

Definition rowA (tokens : list str) : res raw_row :=
  t0 <- item tokens 0 ;; t1 <- item tokens 1 ;; t2 <- item tokens 2 ;;
  Ok (t0 ++ py " " ++ t1, t2).

Definition rowB (tokens : list str) : res raw_row :=
  t0 <- item tokens 0 ;; t1 <- item tokens 1 ;; Ok (t0, t1).

Definition rowC (tokens : list str) : res raw_row :=
  cnt <- item_last tokens ;; Ok (join (py " ") (removelast tokens), cnt).

(** The [else] branch: [None] is its [continue]. *)
Definition rowD (tokens : list str) : option raw_row :=
  let joined := join (py " ") tokens in
  match re_search DATETIME_RE joined, re_search NUM_RE joined with
  | Some m, Some n => Some (replace_char (ch "T") (ch " ") m, n)
  | _, _ => None
  end.

Definition parse_tokens (tokens : list str) : res (option (format * raw_row)) :=
  a <- condA tokens ;;
  if a then r <- rowA tokens ;; Ok (Some (FormatA, r))
  else
    b <- condB tokens ;;
    if b then r <- rowB tokens ;; Ok (Some (FormatB, r))
    else
      c <- condC tokens ;;
      if c then r <- rowC tokens ;; Ok (Some (FormatC, r))
      else
        match rowD tokens with
        | Some r => Ok (Some (FormatD, r))
        | None => Ok None
        end.

(** One turn of the loop over [text.splitlines()]: [Ok None] is a line that
    is passed over, [Ok (Some _)] a row that is appended. *)
Definition parse_line (ln : str) : res (option (format * raw_row)) :=
  let line := strip ln in
  if is_empty line || startswith line (py "#") then Ok None
  else parse_tokens (split_ws line).

Definition appended (r : option (format * raw_row)) : list raw_row :=
  match r with
  | Some (_, row) => [row]
  | None => []
  end.

Definition parse_lines (lines : list str) : res (list raw_row) :=
  rs <- mapM parse_line lines ;; Ok (flat_map appended rs).

(** The list [rows] when the loop ends. *)
Definition raw_rows (text : str) : res (list raw_row) :=
  parse_lines (splitlines text).

(* ================================================================== *)
(** * Table assembler *)
(* ================================================================== *)

Section TableAssembler.

(** The values of the [count] column ([float64]). *)
Variable num : Type.

(** A row of the data frame: nanoseconds since the epoch and the count. *)
Definition row : Type := (Z * num)%type.

(** [pd.to_datetime(col, errors='coerce', dayfirst=False)] and
    [pd.to_numeric(col, errors='coerce')], taken as they are, column to
    column: what a cell becomes may depend on the other cells of its column
    (the library settles on one datetime format for a column).  [None] is
    NaT, respectively NaN. *)
Variable to_datetime : list str -> list (option Z).
Variable to_numeric : list str -> list (option num).

(** [df.sort_values('datetime')] *)
Variable sort_values : list row -> list row.

(** [df.dropna(subset=['datetime', 'count'])] *)
Definition keep (c : option Z * option num) : list row :=
  match c with
  | (Some t, Some v) => [(t, v)]
  | _ => []
  end.

Definition dropna (cols : list (option Z * option num)) : list row :=
  flat_map keep cols.

(** The two converted columns put side by side, cleaned and sorted. *)
Definition assemble_columns (datetime : list (option Z)) (count : list (option num))
  : list row :=
  sort_values (dropna (combine datetime count)).

Definition assemble (rows : list raw_row) : list row :=
  assemble_columns (to_datetime (map fst rows)) (to_numeric (map snd rows)).

Definition _parse_ascii (text : str) : res (list row) :=
  rows <- raw_rows text ;; Ok (assemble rows).

End TableAssembler.

(** What the library documents of [sort_values] with its default [kind]:
    the rows come back reordered, ascending in the key.  Which sort the
    library runs, and so the order it leaves among rows of one timestamp, is
    not part of this development. *)
Definition ts_le {num} (a b : row num) : Prop := (fst a <= fst b)%Z.

Definition sort_contract {num} (sort_values : list (row num) -> list (row num)) : Prop :=
  forall l, Permutation l (sort_values l) /\ Sorted ts_le (sort_values l).

(** A conversion returns a column as long as the one it was given. *)
Definition column_contract {A} (convert : list str -> list (option A)) : Prop :=
  forall col, List.length (convert col) = List.length col.

(* ================================================================== *)
(** * The operation: fetch, parse, save *)
(* ================================================================== *)

(** What the operation can touch: text files by path, the requests sent,
    the lines printed. *)
Record world : Type := mkWorld {
  files : list (str * str);
  requested : list str;
  printed : list str
}.

Definition io (A : Type) : Type := world -> world * res A.

Definition ret {A} (a : A) : io A := fun w => (w, Ok a).

Definition lift {A} (r : res A) : io A := fun w => (w, r).

Definition bind_io {A B} (m : io A) (f : A -> io B) : io B :=
  fun w =>
    match m w with
    | (w', Ok a) => f a w'
    | (w', Raise e) => (w', Raise e)
    end.

Notation "x <~ m ;; f" := (bind_io m (fun x => f))
  (at level 61, m at next level, right associativity).

Fixpoint file_get (path : str) (fs : list (str * str)) : option str :=
  match fs with
  | [] => None
  | (p, c) :: fs' => if str_eqb p path then Some c else file_get path fs'
  end.

(** Opening with mode ['w'] and writing: the new text replaces the old. *)
Fixpoint file_set (path content : str) (fs : list (str * str)) : list (str * str) :=
  match fs with
  | [] => [(path, content)]
  | (p, c) :: fs' =>
      if str_eqb p path then (p, content) :: fs'
      else (p, c) :: file_set path content fs'
  end.

Definition write_text (path content : str) : io unit :=
  fun w => (mkWorld (file_set path content (files w)) (requested w) (printed w), Ok tt).

Definition print (line : str) : io unit :=
  fun w => (mkWorld (files w) (requested w) (printed w ++ [line]), Ok tt).

Definition decimal (n : nat) : str := py (NilEmpty.string_of_uint (Nat.to_uint n)).

Definition debug_path : str := py "nmdb_debug.txt".
Definition default_out_csv : str := py "nmdb_oulu.csv".
Definition empty_msg : string := "No se extrajeron filas válidas. Revisa nmdb_debug.txt".

(** [base_url or DEFAULT_URL]: [None] and the empty text give the default. *)
Definition base_or_default (base_url : option str) : str :=
  match base_url with
  | Some u => if is_empty u then DEFAULT_URL else u
  | None => DEFAULT_URL
  end.

Section Operation.

Variable num : Type.
Variable urlparse : str -> res ParseResult.
Variable to_datetime : list str -> list (option Z).
Variable to_numeric : list str -> list (option num).
Variable sort_values : list (row num) -> list (row num).

(** The answer of the service to a GET: the body as text, or the
    exception [requests.get] or [raise_for_status] raises. *)
Variable http_get : str -> res str.

(** The text [df.to_csv(index=False, date_format='%Y-%m-%d %H:%M:%S')]
    writes. *)
Variable csv_text : list (row num) -> str.

Definition _download_text (url : str) : io str :=
  fun w => (mkWorld (files w) (requested w ++ [url]) (printed w), http_get url).

Definition nmdb_data (start_date start_time end_date end_time : str)
           (out_csv : str) (base_url : option str) : io (str * list (row num)) :=
  let base := base_or_default base_url in
  url_ascii <~ lift (_build_ascii_url urlparse base start_date start_time
                                      end_date end_time) ;;
  _ <~ print (py "Descargando: " ++ url_ascii) ;;
  text <~ _download_text url_ascii ;;
  df <~ lift (_parse_ascii to_datetime to_numeric sort_values text) ;;
  match df with
  | [] =>
      _ <~ write_text debug_path text ;;
      lift (Raise (RuntimeError empty_msg))
  | _ =>
      _ <~ write_text out_csv (csv_text df) ;;
      _ <~ print (py "CSV guardado en: " ++ out_csv ++ py "  (filas: "
                  ++ decimal (List.length df) ++ py ")") ;;
      ret (out_csv, df)
  end.

End Operation.

Definition world0 : world := mkWorld [] [] [].

(* ================================================================== *)
(** * Library stand-ins for the worked examples *)
(* ================================================================== *)

(** Small executable instances of the library functions the operation is
    parameterised by.  The theorems hold for every instance; these serve
    the examples. *)
Module Demo.

(** [s] cut at the first occurrence of one of [stops]: the text before it
    and the text from it on. *)
Fixpoint cut_at (stops : str) (s : str) : str * str :=
  match s with
  | [] => ([], [])
  | c :: s' =>
      if contains c stops then ([], s)
      else let (a, b) := cut_at stops s' in (c :: a, b)
  end.

(** [urlparse] on a URL of the plain shape [scheme://netloc/path?query#fragment]. *)
Definition urlparse (url : str) : res ParseResult :=
  let (sch, r0) := cut_at (py ":") url in
  if startswith r0 (py "://") then
    let (loc, r1) := cut_at (py "/?#") (skipn 3 r0) in
    let (pth, r2) := cut_at (py "?#") r1 in
    let (qry, r3) := cut_at (py "#") (match r2 with 63%N :: q => q | _ => r2 end) in
    Ok (mkParseResult sch loc pth [] qry (skipn 1 r3))
  else Raise (ValueError "not a plain URL").

(** The decimal digits of a text read as one number, when the text holds
    ASCII digits and the separators of a date and time only. *)
Fixpoint read_digits (acc : option N) (s : str) : option N :=
  match s with
  | [] => acc
  | c :: s' =>
      if in_range 0x30 10 c
      then read_digits (Some (10 * match acc with Some a => a | None => 0 end
                              + (c - 0x30))%N) s'
      else if contains c (py "-: ") then read_digits acc s'
      else None
  end.

Definition to_datetime (col : list str) : list (option Z) :=
  map (fun s => option_map Z.of_N (read_digits None s)) col.

Definition to_numeric (col : list str) : list (option N) :=
  map (fun s => if forallb (in_range 0x30 10) s then read_digits None s else None) col.

(** Insertion into a table ordered by timestamp: [strict] chooses on which
    side of the rows of equal timestamp the new row lands. *)
Fixpoint insert_row {num} (strict : bool) (x : row num) (l : list (row num))
  : list (row num) :=
  match l with
  | [] => [x]
  | y :: l' =>
      if (if strict then fst x <? fst y else fst x <=? fst y)%Z
      then x :: l
      else y :: insert_row strict x l'
  end.

Definition insertion_sort {num} (strict : bool) (l : list (row num)) : list (row num) :=
  fold_right (insert_row strict) [] l.

(** Two sorts that meet [sort_contract], for the examples; neither is the
    sort the library runs.  With the first, rows of one timestamp keep their
    order; with the second they come out in reverse. *)
Definition sort_stable {num} : list (row num) -> list (row num) :=
  insertion_sort false.

Definition sort_reversing {num} : list (row num) -> list (row num) :=
  insertion_sort true.

Definition csv_text (df : list (row N)) : str :=
  py "datetime,count" ++ [0x0a%N]
  ++ flat_map (fun r => py (NilEmpty.string_of_uint (N.to_uint (Z.to_N (fst r))))
                        ++ py "," ++ py (NilEmpty.string_of_uint (N.to_uint (snd r)))
                        ++ [0x0a%N]) df.

(** A service that answers every request with the same body. *)
Definition serve (body : str) : str -> res str := fun _ => Ok body.

(** The query text of [DEFAULT_URL]. *)
Definition default_query : str :=
  Eval vm_compute in
    match urlparse DEFAULT_URL with
    | Ok p => query p
    | Raise _ => []
    end.

(** The URL built from the default base for the window of the source's
    [__main__]. *)
Definition ascii_url : str :=
  Eval vm_compute in
    match _build_ascii_url urlparse DEFAULT_URL (py "2024-07-29") (py "00:00")
                           (py "2025-08-29") (py "23:59") with
    | Ok u => u
    | Raise _ => []
    end.

End Demo.


(* ================================================================== *)
(** * Vocabulary of the statements *)
(* ================================================================== *)

(** Definitions the statements and their proofs speak with: the formats as
    the specification words them and the two chains, properties of patterns,
    of dicts and of encoded text, and the frame of the URL builder as the
    specification states it, which the code does not have. *)

(** Some character of [s] is not white space. *)
Definition has_ink (s : str) : bool := existsb (fun c => negb (isspace c)) s.

(** The formats A, B and C as section 4.3 of the specification words them,
    each on its own; the source has the same conditions and rows. *)
Definition spec_format_A (tokens : list str) : option raw_row :=
  match tokens with
  | t0 :: t1 :: t2 :: _ =>
      if matches DATE_RE t0 && matches LINE_TIME_RE t1
      then Some (t0 ++ py " " ++ t1, t2) else None
  | _ => None
  end.

Definition spec_format_B (tokens : list str) : option raw_row :=
  match tokens with
  | t0 :: t1 :: _ =>
      if matches DATE_RE t0 && matches NUM_RE t1 then Some (t0, t1) else None
  | _ => None
  end.

Definition spec_format_C (tokens : list str) : option raw_row :=
  if matches NUM_RE (last tokens []) && (2 <=? List.length tokens)
  then Some (join (py " ") (removelast tokens), last tokens [])
  else None.

(** The numeric pattern of section 4.3 as a pattern to search for: optional
    sign, integer or decimal, optional exponent.  It is [NUM_RE] without
    its [^] and [$]. *)
Definition NUM_PATTERN : re :=
  seq [Opt (Chr (OneOf "+-")); Plus Digit;
       Opt (Grp (seq [Lit "."; Plus Digit]));
       Opt (Grp (seq [Chr (OneOf "eE"); Opt (Chr (OneOf "+-")); Plus Digit]))].

(** Format D as step 5 of section 4.3 words it: the first substring of the
    joined tokens that is a date and time, its [T] made a space, and,
    searched independently, the first substring that is a number. *)
Definition spec_format_D (tokens : list str) : option raw_row :=
  let joined := join (py " ") tokens in
  match re_search DATETIME_RE joined, re_search NUM_PATTERN joined with
  | Some m, Some n => Some (replace_char (ch "T") (ch " ") m, n)
  | _, _ => None
  end.

(** A chain of the formats A, B and C and a fallback: the first that
    applies. *)
Definition chain (fallback : list str -> option raw_row) (tokens : list str)
  : option (format * raw_row) :=
  match spec_format_A tokens with
  | Some r => Some (FormatA, r)
  | None =>
      match spec_format_B tokens with
      | Some r => Some (FormatB, r)
      | None =>
          match spec_format_C tokens with
          | Some r => Some (FormatC, r)
          | None =>
              match fallback tokens with
              | Some r => Some (FormatD, r)
              | None => None
              end
          end
      end
  end.

(** The chain of the specification: A, B, C, then D as the specification
    words it. *)
Definition spec_first_match : list str -> option (format * raw_row) :=
  chain spec_format_D.

(** The chain the source runs: A, B, C, then its [else] branch as it is. *)
Definition first_match : list str -> option (format * raw_row) :=
  chain rowD.

(** Lines the parser passes over: blank ones, comments, and those on which
    the chain of the source yields nothing. *)
Definition passed_over (ln : str) : Prop :=
  is_empty (strip ln) = true
  \/ startswith (strip ln) (py "#") = true
  \/ first_match (split_ws (strip ln)) = None.

(** The characters a pattern can consume. *)
Fixpoint alpha (r : re) (c : char) : bool :=
  match r with
  | Eps | Bol | Eol => false
  | Chr cs | Plus cs => in_cset cs c
  | Cat r1 r2 => alpha r1 c || alpha r2 c
  | Opt r1 | Grp r1 => alpha r1 c
  end.

(** Patterns whose last step is [$]. *)
Fixpoint ends_at_eol (r : re) : bool :=
  match r with
  | Eol => true
  | Cat r1 r2 =>
      ends_at_eol r2 || (ends_at_eol r1 && match r2 with Eps => true | _ => false end)
  | Grp r1 => ends_at_eol r1
  | _ => false
  end.

(** A character of a number: a digit, a sign, the point or the exponent
    letter. *)
Definition num_char (c : char) : bool := isdecimal c || contains c (py "+-.eE").

(** The eleven names the builder assigns. *)
Definition window_keys : list str :=
  map py ["start_day"; "start_month"; "start_year"; "start_hour"; "start_min";
          "end_day"; "end_month"; "end_year"; "end_hour"; "end_min";
          "output"]%string.

(** What a run of the operation can have done to the files: nothing, the
    debug dump, or the CSV. *)
Inductive file_effect {num} (csv_text : list (row num) -> str) (out_csv : str)
          (w w' : world) (r : res (str * list (row num))) : Prop :=
| NothingWritten :
    files w' = files w -> (forall x, r <> Ok x) ->
    file_effect csv_text out_csv w w' r
| DebugDump (text : str) :
    files w' = file_set debug_path text (files w) ->
    r = Raise (RuntimeError empty_msg) ->
    file_effect csv_text out_csv w w' r
| CsvSaved (df : list (row num)) :
    df <> [] ->
    files w' = file_set out_csv (csv_text df) (files w) ->
    r = Ok (out_csv, df) ->
    file_effect csv_text out_csv w w' r.

(** The dict has the value [v] among the values of its key [k]. *)
Definition holds (k v : str) (dc : dict) : Prop :=
  exists vs, dict_get k dc = Some vs /\ In v vs.

(** Text without the field separator [&]. *)
Definition amp_free (s : str) : Prop := Forall (fun c => c <> ch "&") s.

(** The name of a field of a query text: what stands before its first [=]. *)
Definition field_name (field : str) : str := hd [] (split_once (ch "=") field).

(** The frame of C3 as the specification states it: every field of the base
    query whose name is not one of the eleven is a field of the new query,
    letter for letter. *)
Definition other_parameters_byte_identical : Prop :=
  forall q sd st ed et out field,
    rewritten_query q sd st ed et = Ok out ->
    In field (split_on (ch "&") q) ->
    ~ In (field_name field) window_keys ->
    In field (split_on (ch "&") out).

(** ** Dicts and texts of the query *)

(** [k in dc] *)
Definition has_key (k : str) (dc : dict) : bool := existsb (str_eqb k) (map fst dc).

(** A code point [str.encode('utf-8')] accepts: not a surrogate, and within
    the range of Unicode. *)
Definition encodable_char (c : char) : bool :=
  ((c <? 0xD800) || ((0xE000 <=? c) && (c <? 0x110000)))%N.

Definition encodable (s : str) : bool := forallb encodable_char s.

(** A dict whose keys and values can all be encoded. *)
Definition dict_encodable (dc : dict) : Prop :=
  Forall (fun kv => encodable (fst kv) = true
                    /\ Forall (fun v => encodable v = true) (snd kv)) dc.

(** The characters of quoted text: always-safe ones, the space where it is
    kept, and the percent sign. *)
Definition plain_or (extra : list char) (c : char) : Prop :=
  always_safe c = true \/ In c extra.

(** The (name, value) pairs of a dict in the order [urlencode] writes them. *)
Definition pairs_of (dc : dict) : list (str * str) :=
  flat_map (fun kv => map (pair (fst kv)) (snd kv)) dc.

(** A dict as [parse_qs] builds it: no key twice, no key without a value, no
    empty value. *)
Definition values_present (dc : dict) : Prop :=
  Forall (fun kv => snd kv <> [] /\ Forall (fun v => v <> []) (snd kv)) dc.

Definition query_dict (dc : dict) : Prop :=
  NoDup (map fst dc) /\ values_present dc.

(* ================================================================== *)
(** * Facts about the text primitives *)
(* ================================================================== *)

Arguments isdecimal : simpl never.
Arguments isspace : simpl never.
Arguments is_linebreak : simpl never.

Lemma str_eqb_eq (a b : str) : str_eqb a b = true <-> a = b.
Proof.
  unfold str_eqb. destruct (list_eq_dec N.eq_dec a b); split; congruence.
Qed.

Lemma str_eqb_refl (a : str) : str_eqb a a = true.
Proof. now apply str_eqb_eq. Qed.

Lemma str_eqb_neq (a b : str) : str_eqb a b = false <-> a <> b.
Proof.
  unfold str_eqb. destruct (list_eq_dec N.eq_dec a b); split; congruence.
Qed.

Lemma is_empty_true (s : str) : is_empty s = true <-> s = [].
Proof. destruct s; simpl; split; congruence. Qed.

Lemma is_empty_false (s : str) : is_empty s = false <-> s <> [].
Proof. destruct s; simpl; split; congruence. Qed.

(** What [lstrip] leaves starts with a character that is not white space. *)
Lemma lstrip_head (s : str) (c : char) (t : str) :
  lstrip s = c :: t -> isspace c = false.
Proof.
  induction s as [|a s IH]; simpl; [discriminate|].
  destruct (isspace a) eqn:Ha; [exact IH|].
  intros E. injection E as -> _. exact Ha.
Qed.

Lemma strip_has_ink (s : str) : strip s <> [] -> has_ink (strip s) = true.
Proof.
  unfold strip, rstrip. intros H.
  destruct (lstrip (rev (lstrip s))) as [|c t] eqn:E; [now elim H|].
  apply lstrip_head in E.
  unfold has_ink. apply existsb_exists. exists c. split.
  - apply in_rev. rewrite rev_involutive. now left.
  - now rewrite E.
Qed.

Lemma split_ws_from_pending (cur s : str) :
  cur <> [] -> split_ws_from cur s <> [].
Proof.
  revert cur. induction s as [|a s IH]; intros cur Hc; simpl.
  - destruct cur; [now elim Hc|discriminate].
  - destruct (isspace a).
    + destruct cur; [now elim Hc|discriminate].
    + apply IH. discriminate.
Qed.

Lemma split_ws_from_ink (cur s : str) :
  has_ink s = true -> split_ws_from cur s <> [].
Proof.
  revert cur. induction s as [|a s IH]; intros cur H; simpl in *; [discriminate|].
  destruct (isspace a); simpl in H.
  - destruct cur; [now apply IH | discriminate].
  - apply split_ws_from_pending. discriminate.
Qed.

(** A line that is not empty once stripped has a first token. *)
Lemma split_ws_strip_nonempty (ln : str) :
  is_empty (strip ln) = false -> split_ws (strip ln) <> [].
Proof.
  intros H. apply split_ws_from_ink, strip_has_ink. now apply is_empty_false.
Qed.

(* ================================================================== *)
(** * The line parser: order of the formats, passed lines, totality *)
(* ================================================================== *)

Arguments matches : simpl never.
Arguments last : simpl never.
Arguments removelast : simpl never.
Arguments join : simpl never.
Arguments rowD : simpl never.
Arguments spec_format_D : simpl never.

Lemma item_last_ok (tokens : list str) :
  tokens <> [] -> item_last tokens = Ok (last tokens []).
Proof. destruct tokens; [congruence|reflexivity]. Qed.

(** On a token list that is not empty no index of the chain is out of
    range, and the chain is A, B, C and the [else] branch, in this order. *)
Lemma parse_tokens_spec (tokens : list str) :
  tokens <> [] -> parse_tokens tokens = Ok (first_match tokens).
Proof.
  intros Hne.
  unfold parse_tokens, condA, condB, condC, rowA, rowB, rowC,
    first_match, chain, spec_format_A, spec_format_B, spec_format_C.
  rewrite (item_last_ok Hne).
  destruct tokens as [|t0 [|t1 [|t2 rest]]]; [congruence| | |]; simpl;
    repeat match goal with
           | |- context [matches ?r ?t] => destruct (matches r t); simpl
           | |- context [rowD ?t] => destruct (rowD t); simpl
           end; reflexivity.
Qed.

Lemma parse_line_tokens (ln : str) :
  is_empty (strip ln) = false -> startswith (strip ln) (py "#") = false ->
  parse_line ln = Ok (first_match (split_ws (strip ln))).
Proof.
  intros H1 H2. unfold parse_line. rewrite H1, H2. simpl.
  apply parse_tokens_spec. now apply split_ws_strip_nonempty.
Qed.

Lemma mapM_total {A B} (f : A -> res B) (l : list A) :
  (forall a, exists b, f a = Ok b) -> exists bs, mapM f l = Ok bs.
Proof.
  intros Hf. induction l as [|a l [bs IH]]; simpl.
  - now exists [].
  - destruct (Hf a) as [b Hb]. rewrite Hb, IH. simpl. now exists (b :: bs).
Qed.

Lemma parse_line_total (ln : str) : exists r, parse_line ln = Ok r.
Proof.
  unfold parse_line.
  destruct (is_empty (strip ln)) eqn:H1; simpl; [now exists None|].
  destruct (startswith (strip ln) (py "#")) eqn:H2; [now exists None|].
  rewrite parse_tokens_spec by now apply split_ws_strip_nonempty.
  now eexists.
Qed.

Lemma parse_lines_total (lines : list str) : exists rows, parse_lines lines = Ok rows.
Proof.
  unfold parse_lines.
  destruct (mapM_total parse_line lines parse_line_total) as [rs ->].
  simpl. now eexists.
Qed.

(** C9.  The line parser is total.  The chain, run on an empty token list,
    would raise at [tokens[-1]]; it never is: a line that strips to nothing
    is passed over before it is split, and a stripped line that is not empty
    splits into at least one token, so the last token exists and every line
    and every text is parsed without an exception. *)
Theorem line_parser_total :
  parse_tokens [] = Raise IndexError
  /\ (forall ln, is_empty (strip ln) = true -> parse_line ln = Ok None)
  /\ (forall ln, is_empty (strip ln) = false ->
        split_ws (strip ln) <> []
        /\ item_last (split_ws (strip ln)) = Ok (last (split_ws (strip ln)) []))
  /\ (forall ln, exists r, parse_line ln = Ok r)
  /\ (forall text, exists rows, raw_rows text = Ok rows).
Proof.
  split; [reflexivity|]. split; [|split; [|split]].
  - intros ln H. unfold parse_line. now rewrite H.
  - intros ln H. pose proof (split_ws_strip_nonempty ln H) as Hne.
    split; [exact Hne | now apply item_last_ok].
  - exact parse_line_total.
  - intros text. apply parse_lines_total.
Qed.

Lemma passed_over_parse_line (ln : str) : passed_over ln -> parse_line ln = Ok None.
Proof.
  intros [H|[H|H]].
  - unfold parse_line. now rewrite H.
  - unfold parse_line. rewrite H. now rewrite orb_true_r.
  - destruct (is_empty (strip ln)) eqn:H1; [unfold parse_line; now rewrite H1|].
    destruct (startswith (strip ln) (py "#")) eqn:H2;
      [unfold parse_line; now rewrite H1, H2|].
    rewrite parse_line_tokens by assumption. now rewrite H.
Qed.

Lemma parse_lines_skip (ln : str) (before after : list str) :
  parse_line ln = Ok None ->
  parse_lines (before ++ ln :: after) = parse_lines (before ++ after).
Proof.
  intros Hln. unfold parse_lines.
  induction before as [|a before IH]; simpl.
  - rewrite Hln. simpl. destruct (mapM parse_line after); reflexivity.
  - destruct (parse_line a) as [r|e]; simpl; [|reflexivity].
    destruct (mapM parse_line (before ++ ln :: after)) as [rs|e];
      destruct (mapM parse_line (before ++ after)) as [rs'|e']; simpl in *;
      congruence.
Qed.

(** C8.  A blank line, a line that starts with [#] and a line that none of
    the formats A to D reads are passed over without an exception, and the
    rows of the text, hence the result table built from them, are those of
    the text without that line. *)
Theorem skipped_lines_contribute_nothing (ln : str) :
  passed_over ln ->
  parse_line ln = Ok None
  /\ (forall text before after,
         splitlines text = before ++ ln :: after ->
         (exists rows, raw_rows text = Ok rows /\ parse_lines (before ++ after) = Ok rows)
         /\ (forall num (to_datetime : list str -> list (option Z))
                    (to_numeric : list str -> list (option num)) sort_values,
                _parse_ascii to_datetime to_numeric sort_values text
                = (rows <- parse_lines (before ++ after) ;;
                   Ok (assemble to_datetime to_numeric sort_values rows)))).
Proof.
  intros Hp. pose proof (passed_over_parse_line Hp) as Hln.
  split; [exact Hln|].
  intros text before after Hs.
  assert (Hr : raw_rows text = parse_lines (before ++ after)).
  { unfold raw_rows. rewrite Hs. now apply parse_lines_skip. }
  split.
  - destruct (parse_lines_total (before ++ after)) as [rows Hrows].
    exists rows. now rewrite Hr.
  - intros. unfold _parse_ascii. now rewrite Hr.
Qed.

Lemma skipped_lines_contribute_nothing_witness :
  passed_over (py "# station OULU")
  /\ passed_over (py "   ")
  /\ passed_over (py "no data here")
  /\ parse_line (py "no data here") = Ok None.
Proof.
  split; [right; left; reflexivity|].
  split; [left; reflexivity|].
  assert (H : passed_over (py "no data here")) by (right; right; vm_compute; reflexivity).
  split; [exact H|].
  exact (proj1 (skipped_lines_contribute_nothing H)).
Defined.

(* ================================================================== *)
(** * Facts about the matcher and the patterns *)
(* ================================================================== *)

(** No decimal digit is one of the punctuation characters of the patterns. *)
Lemma isdecimal_not_punct (c : char) :
  isdecimal c = true -> contains c (py "+-.eE:T ") = false /\ c <> 0x0a%N.
Proof.
  intros H. split.
  - destruct (contains c (py "+-.eE:T ")) eqn:E; [|reflexivity].
    apply existsb_exists in E. destruct E as [x [Hin Hx]].
    apply N.eqb_eq in Hx. subst x.
    simpl in Hin.
    repeat (destruct Hin as [<-|Hin]; [vm_compute in H; discriminate|]).
    destruct Hin.
  - intros ->. vm_compute in H. discriminate.
Qed.

Lemma isdecimal_neqb (c : char) (a : ascii) :
  isdecimal c = true -> contains (ch a) (py "+-.eE:T ") = true -> (c =? ch a)%N = false.
Proof.
  intros H Ha. apply N.eqb_neq. intros ->.
  apply isdecimal_not_punct in H. destruct H as [H _]. congruence.
Qed.

Lemma forallb_weaken {A} (p q : A -> bool) (l : list A) :
  (forall a, p a = true -> q a = true) -> forallb p l = true -> forallb q l = true.
Proof.
  intros Hpq. rewrite !forallb_forall. auto.
Qed.

Lemma plus_more_alpha {A} (p : char -> bool) (s : str) (k : str -> option A) (x : A) :
  plus_more p s k = Some x ->
  exists pre rest, s = pre ++ rest /\ forallb p pre = true /\ k rest = Some x.
Proof.
  induction s as [|c s IH]; simpl; intros H.
  - exists [], []. auto.
  - destruct (p c) eqn:Hc.
    + destruct (plus_more p s k) as [y|] eqn:Hm.
      * injection H as ->. destruct (IH eq_refl) as [pre [rest [-> [Hp Hk]]]].
        exists (c :: pre), rest. simpl. rewrite Hc, Hp. auto.
      * exists [], (c :: s). auto.
    + exists [], (c :: s). auto.
Qed.

(** When the matcher succeeds, it has consumed a prefix made of characters
    of the pattern's alphabet and handed the rest to its continuation; the
    rest is at the end of the text when the pattern ends with [$]. *)
Lemma rmatch_alpha {A} (r : re) :
  forall (at0 : bool) (s : str) (k : bool -> str -> option A) (x : A),
    rmatch r at0 s k = Some x ->
    exists pre rest b,
      s = pre ++ rest /\ forallb (alpha r) pre = true /\ k b rest = Some x
      /\ (ends_at_eol r = true -> at_end rest = true).
Proof.
  induction r as [| cs | | | r1 IH1 r2 IH2 | r1 IH1 | cs | r1 IH1];
    intros at0 s k x H; simpl in H.
  - exists [], s, at0. repeat split; auto; discriminate.
  - destruct s as [|c s]; [discriminate|].
    destruct (in_cset cs c) eqn:Hc; [|discriminate].
    exists [c], s, false. simpl. rewrite Hc. repeat split; auto; discriminate.
  - destruct at0; [|discriminate]. exists [], s, true.
    repeat split; auto; discriminate.
  - destruct (at_end s) eqn:He; [|discriminate]. exists [], s, at0.
    repeat split; auto.
  - apply IH1 in H. destruct H as [p1 [rest1 [b1 [-> [Hp1 [H He1]]]]]].
    pose proof H as H'.
    apply IH2 in H. destruct H as [p2 [rest [b2 [-> [Hp2 [H He2]]]]]].
    exists (p1 ++ p2), rest, b2. rewrite app_assoc. split; [reflexivity|].
    split; [|split; [exact H|]].
    + simpl. rewrite forallb_app. apply andb_true_intro. split.
      * revert Hp1. apply forallb_weaken. intros a ->. reflexivity.
      * revert Hp2. apply forallb_weaken. intros a ->. apply orb_true_r.
    + simpl. intros E. apply orb_true_iff in E. destruct E as [E|E]; [auto|].
      apply andb_true_iff in E. destruct E as [E1 E2].
      destruct r2; try discriminate. simpl in Hp2.
      specialize (He1 E1).
      (* the empty pattern consumes nothing *)
      destruct p2 as [|c p2]; [exact He1|]. simpl in Hp2. discriminate.
  - destruct (rmatch r1 at0 s k) as [y|] eqn:Hm.
    + injection H as ->. apply IH1 in Hm.
      destruct Hm as [pre [rest [b [E [Hp [Hk _]]]]]].
      exists pre, rest, b. repeat split; auto; discriminate.
    + exists [], s, at0. repeat split; auto; discriminate.
  - destruct s as [|c s]; [discriminate|].
    destruct (in_cset cs c) eqn:Hc; [|discriminate].
    apply plus_more_alpha in H. destruct H as [pre [rest [-> [Hp H]]]].
    exists (c :: pre), rest, false. simpl. rewrite Hc.
    repeat split; auto; discriminate.
  - apply IH1 in H. exact H.
Qed.

Lemma alpha_NUM_RE (c : char) : alpha NUM_RE c = true -> num_char c = true.
Proof.
  unfold num_char. simpl.
  destruct (isdecimal c); [reflexivity|]. simpl.
  repeat match goal with |- context [N.eqb ?a ?b] => destruct (N.eqb a b) end;
    simpl; congruence.
Qed.

(** [NUM_RE] is anchored at both ends: where it matches, the whole text is
    a number, up to a line feed that ends it. *)
Lemma NUM_RE_run_shape (at0 : bool) (s m : str) :
  run NUM_RE at0 s = Some m ->
  at0 = true
  /\ exists pre rest, s = pre ++ rest /\ forallb num_char pre = true /\ at_end rest = true.
Proof.
  unfold run. destruct (rmatch NUM_RE at0 s (fun _ rest => Some rest)) as [r|] eqn:H;
    [intros _|discriminate].
  destruct at0; [|discriminate]. split; [reflexivity|].
  apply rmatch_alpha in H. destruct H as [pre [rest [b [-> [Hp [H He]]]]]].
  exists pre, rest. split; [reflexivity|]. split.
  - revert Hp. apply forallb_weaken. exact alpha_NUM_RE.
  - apply He. reflexivity.
Qed.

Lemma NUM_RE_search_from_inside (s : str) : search_from NUM_RE false s = None.
Proof.
  induction s as [|c s IH]; simpl.
  - reflexivity.
  - exact IH.
Qed.

(** Searching for [NUM_RE] is matching it: the [^] lets it start nowhere
    but at the head of the text. *)
Lemma NUM_RE_search_is_match (s : str) : re_search NUM_RE s = re_match NUM_RE s.
Proof.
  unfold re_search, re_match.
  destruct s as [|c s]; simpl.
  - reflexivity.
  - destruct (run NUM_RE true (c :: s)); [reflexivity|].
    apply NUM_RE_search_from_inside.
Qed.

Lemma num_char_not_colon (c : char) : num_char c = true -> c <> ch ":".
Proof.
  unfold num_char. intros H ->. vm_compute in H. discriminate.
Qed.

Lemma NUM_RE_no_colon (s m : str) :
  re_search NUM_RE s = Some m -> contains (ch ":") s = false.
Proof.
  rewrite NUM_RE_search_is_match. unfold re_match. intros H.
  apply NUM_RE_run_shape in H.
  destruct H as [_ [pre [rest [-> [Hp He]]]]].
  unfold contains. rewrite existsb_app. apply orb_false_iff. split.
  - apply not_true_is_false. intros E.
    apply existsb_exists in E. destruct E as [x [Hin Hx]].
    apply N.eqb_eq in Hx. subst x.
    rewrite forallb_forall in Hp. apply Hp in Hin.
    now apply num_char_not_colon in Hin.
  - destruct rest as [|a [|b rest]]; [reflexivity| |discriminate].
    simpl in He. apply N.eqb_eq in He. subst a. reflexivity.
Qed.

(** One step of the matcher on a text of unknown length: the text has a
    next character and the character passes the test of the pattern. *)
Ltac match_step H :=
  match type of H with
  | context [match ?s with [] => _ | _ :: _ => _ end] =>
      is_var s; destruct s as [|? s]; [discriminate H|]; simpl in H
  end;
  match type of H with
  | context [if ?b then _ else _] =>
      let E := fresh "E" in destruct b eqn:E; [|discriminate H]; simpl in H
  end.

Lemma DATETIME_RE_run_colon (at0 : bool) (s m : str) :
  run DATETIME_RE at0 s = Some m -> contains (ch ":") s = true.
Proof.
  unfold run.
  destruct (rmatch DATETIME_RE at0 s (fun _ rest => Some rest)) as [r|] eqn:H;
    [intros _|discriminate].
  simpl in H.
  do 14 match_step H.
  match goal with
  | E : (?c =? 58)%N || false = true |- _ =>
      rewrite orb_false_r in E; apply N.eqb_eq in E; subst c
  end.
  apply existsb_exists. exists (ch ":"). split; [|reflexivity].
  do 13 right. left. reflexivity.
Qed.

Lemma contains_cons (c a : char) (s : str) :
  contains c s = true -> contains c (a :: s) = true.
Proof. unfold contains. simpl. intros ->. apply orb_true_r. Qed.

Lemma DATETIME_RE_search_from_colon (s m : str) (at0 : bool) :
  search_from DATETIME_RE at0 s = Some m -> contains (ch ":") s = true.
Proof.
  revert at0. induction s as [|c s IH]; intros at0; cbn [search_from].
  - destruct (run DATETIME_RE at0 []) as [x|] eqn:Hr; [|discriminate].
    intros _. now apply DATETIME_RE_run_colon in Hr.
  - destruct (run DATETIME_RE at0 (c :: s)) as [x|] eqn:Hr.
    + intros _. now apply DATETIME_RE_run_colon in Hr.
    + intros H. apply contains_cons. now apply IH in H.
Qed.

Lemma DATETIME_RE_search_colon (s m : str) :
  re_search DATETIME_RE s = Some m -> contains (ch ":") s = true.
Proof. apply DATETIME_RE_search_from_colon. Qed.

(** The [else] branch of the chain never yields a row: for the number
    search to succeed the joined text must be a number from end to end,
    and then it holds no date and time. *)
Lemma rowD_none (tokens : list str) : rowD tokens = None.
Proof.
  unfold rowD.
  destruct (re_search DATETIME_RE (join (py " ") tokens)) as [m|] eqn:Hm; [|reflexivity].
  destruct (re_search NUM_RE (join (py " ") tokens)) as [n|] eqn:Hn; [|reflexivity].
  apply DATETIME_RE_search_colon in Hm. apply NUM_RE_no_colon in Hn. congruence.
Qed.

(** C2.  The specification has format D emit a row whenever a date and time
    and a number are found in the joined tokens.  In the code no line gets a
    row from format D: the number is searched with [NUM_RE], whose [^] and
    [$] let it match only a text that is a number from end to end, so the two
    searches never succeed together.  On the line below the date and time is
    found and the token [12.5] is a number, yet the line is passed over. *)
Theorem format_D_never_yields_a_row :
  (forall tokens, rowD tokens = None)
  /\ (forall ln r, parse_line ln = Ok (Some r) -> fst r <> FormatD)
  /\ (let ln := py "x 2025-07-29T00:05 y 12.5 z" in
      let tokens := split_ws (strip ln) in
      spec_format_A tokens = None
      /\ spec_format_B tokens = None
      /\ spec_format_C tokens = None
      /\ re_search DATETIME_RE (join (py " ") tokens) = Some (py "2025-07-29T00:05")
      /\ matches NUM_RE (py "12.5") = true
      /\ re_search NUM_RE (join (py " ") tokens) = None
      /\ parse_line ln = Ok None).
Proof.
  split; [exact rowD_none|]. split.
  - intros ln r H.
    unfold parse_line in H.
    destruct (is_empty (strip ln) || startswith (strip ln) (py "#")) eqn:E;
      [discriminate|].
    apply orb_false_iff in E. destruct E as [E1 E2].
    rewrite parse_tokens_spec in H by now apply split_ws_strip_nonempty.
    injection H as H. unfold first_match, chain in H.
    rewrite rowD_none in H.
    destruct (spec_format_A _); [injection H as <-; discriminate|].
    destruct (spec_format_B _); [injection H as <-; discriminate|].
    destruct (spec_format_C _); [injection H as <-; discriminate|].
    discriminate.
  - vm_compute. repeat split; reflexivity.
Qed.

(** The two chains side by side: where the chain of the specification
    answers with A, B or C, or with nothing, the chain of the source gives
    the same answer; where it answers with D, the source gives nothing. *)
Lemma first_match_spec (tokens : list str) :
  first_match tokens
  = match spec_first_match tokens with
    | Some (FormatD, _) => None
    | other => other
    end.
Proof.
  unfold first_match, spec_first_match, chain. rewrite rowD_none.
  destruct (spec_format_A tokens); [reflexivity|].
  destruct (spec_format_B tokens); [reflexivity|].
  destruct (spec_format_C tokens); [reflexivity|].
  destruct (spec_format_D tokens); reflexivity.
Qed.

(** C1.  The source tries the formats in the order A, B, C, D.  Where the
    first format whose condition holds is A, B or C, that format is used, and
    where none of A to D holds the line is passed over; in particular a line
    of three or more tokens whose first token is a date and whose second is
    a time of day is read by format A (date, a space, time; count the third
    token), whatever the tokens after them are, numeric last token included.
    Where the first format whose condition holds is D, as step 5 of the
    specification words it, the source does not use it: its number search is
    anchored (the defect of C2), so the line is passed over.  The line at
    the end is one: the specification's chain reads it by format D, the
    source gives no row. *)
Theorem first_matching_format_wins :
  (forall ln,
      is_empty (strip ln) = false ->
      startswith (strip ln) (py "#") = false ->
      let tokens := split_ws (strip ln) in
      (forall f r, spec_first_match tokens = Some (f, r) -> f <> FormatD ->
                   parse_line ln = Ok (Some (f, r)))
      /\ (spec_first_match tokens = None -> parse_line ln = Ok None)
      /\ (forall r, spec_first_match tokens = Some (FormatD, r) ->
                    parse_line ln = Ok None)
      /\ (forall t0 t1 t2 rest,
             tokens = t0 :: t1 :: t2 :: rest ->
             matches DATE_RE t0 = true ->
             matches LINE_TIME_RE t1 = true ->
             parse_line ln = Ok (Some (FormatA, (t0 ++ py " " ++ t1, t2)))))
  /\ (let ln := py "x 2025-07-29T00:05 y 12.5 z" in
      is_empty (strip ln) = false
      /\ startswith (strip ln) (py "#") = false
      /\ spec_first_match (split_ws (strip ln))
         = Some (FormatD, (py "2025-07-29 00:05", py "2025"))
      /\ parse_line ln = Ok None).
Proof.
  split.
  - intros ln H1 H2 tokens. pose proof (parse_line_tokens ln H1 H2) as Hp.
    fold tokens in Hp. rewrite first_match_spec in Hp.
    split; [|split; [|split]].
    + intros f r H Hf. rewrite H in Hp. destruct f; try exact Hp. congruence.
    + intros H. now rewrite H in Hp.
    + intros r H. now rewrite H in Hp.
    + intros t0 t1 t2 rest Ht Hd Htm. rewrite Hp, Ht.
      unfold spec_first_match, chain, spec_format_A. now rewrite Hd, Htm.
  - vm_compute. repeat split; reflexivity.
Qed.

(** A scenario of section 8 of the specification: format A wins on a line
    that format C would read as well, and differently. *)
Lemma first_matching_format_wins_witness :
  let ln := py "2025-07-29 00:05:00   12345.6   3.2" in
  is_empty (strip ln) = false
  /\ startswith (strip ln) (py "#") = false
  /\ spec_format_C (split_ws (strip ln))
     = Some (py "2025-07-29 00:05:00 12345.6", py "3.2")
  /\ parse_line ln = Ok (Some (FormatA, (py "2025-07-29 00:05:00", py "12345.6"))).
Proof.
  cbv zeta. split; [reflexivity|]. split; [reflexivity|].
  split; [vm_compute; reflexivity|].
  exact (proj2 (proj2 (proj2 (proj1 first_matching_format_wins
                                    (py "2025-07-29 00:05:00   12345.6   3.2")
                                    eq_refl eq_refl)))
               (py "2025-07-29") (py "00:05:00") (py "12345.6") [py "3.2"]
               eq_refl eq_refl eq_refl).
Defined.

(* ================================================================== *)
(** * The URL builder *)
(* ================================================================== *)

Lemma isdecimal_not_dash (c : char) : isdecimal c = true -> (c =? 45)%N = false.
Proof. intros H. now apply (isdecimal_neqb c "-" H). Qed.

Lemma isdecimal_not_colon (c : char) : isdecimal c = true -> (c =? 58)%N = false.
Proof. intros H. now apply (isdecimal_neqb c ":" H). Qed.

(** Turns the tests on literal characters found by [match_step] into
    equations and uses them. *)
Ltac literal_chars :=
  repeat match goal with
         | E : (?c =? ?n)%N || false = true |- _ =>
             rewrite orb_false_r in E; apply N.eqb_eq in E; subst c
         end.

(** A text [DATE_RE] accepts: eight digits with the two dashes, and at most
    a line feed after them. *)
Lemma DATE_RE_shape (s : str) :
  matches DATE_RE s = true ->
  exists y1 y2 y3 y4 m1 m2 d1 d2 tail,
    s = [y1; y2; y3; y4; ch "-"; m1; m2; ch "-"; d1; d2] ++ tail
    /\ forallb isdecimal [y1; y2; y3; y4; m1; m2; d1; d2] = true
    /\ at_end tail = true.
Proof.
  unfold matches, re_match, run.
  destruct (rmatch DATE_RE true s (fun _ rest => Some rest)) as [r|] eqn:H;
    [intros _|discriminate].
  simpl in H. do 10 match_step H. literal_chars.
  destruct (at_end s) eqn:He; [|discriminate].
  repeat eexists; [|exact He].
  simpl. repeat (apply andb_true_intro; split; [assumption|]). reflexivity.
Qed.

Lemma TIME_RE_shape (s : str) :
  matches TIME_RE s = true ->
  exists h1 h2 m1 m2 tail,
    s = [h1; h2; ch ":"; m1; m2] ++ tail
    /\ forallb isdecimal [h1; h2; m1; m2] = true
    /\ at_end tail = true.
Proof.
  unfold matches, re_match, run.
  destruct (rmatch TIME_RE true s (fun _ rest => Some rest)) as [r|] eqn:H;
    [intros _|discriminate].
  simpl in H. do 5 match_step H. literal_chars.
  destruct (at_end s) eqn:He; [|discriminate].
  repeat eexists; [|exact He].
  simpl. repeat (apply andb_true_intro; split; [assumption|]). reflexivity.
Qed.

Lemma at_end_cases (tail : str) : at_end tail = true -> tail = [] \/ tail = [0x0a%N].
Proof.
  destruct tail as [|a [|b t]]; simpl; intros H; try discriminate; auto.
  apply N.eqb_eq in H. subst. auto.
Qed.

(** Cutting an accepted date at the dashes gives the year, the month and
    the day (with the line feed, if there is one). *)
Lemma DATE_RE_split (s : str) :
  matches DATE_RE s = true ->
  exists y m d, split_on (ch "-") s = [y; m; d].
Proof.
  intros H. apply DATE_RE_shape in H.
  destruct H as (y1 & y2 & y3 & y4 & m1 & m2 & d1 & d2 & tail & -> & Hd & He).
  simpl in Hd.
  repeat (apply andb_true_iff in Hd; destruct Hd as [?H Hd]).
  unfold split_on. cbn [app split_on_from].
  repeat match goal with
         | E : isdecimal ?c = true |- context [(?c =? ch "-")%N] =>
             change (c =? ch "-")%N with (c =? 45)%N;
             rewrite (isdecimal_not_dash c E); cbn [split_on_from]
         | |- context [(ch "-" =? ch "-")%N] =>
             change (ch "-" =? ch "-")%N with true; cbn iota; cbn [split_on_from]
         end.
  destruct (at_end_cases _ He) as [-> | ->]; cbn; eauto.
Qed.

Lemma TIME_RE_split (s : str) :
  matches TIME_RE s = true ->
  exists hh mm, split_on (ch ":") s = [hh; mm].
Proof.
  intros H. apply TIME_RE_shape in H.
  destruct H as (h1 & h2 & m1 & m2 & tail & -> & Hd & He).
  simpl in Hd.
  repeat (apply andb_true_iff in Hd; destruct Hd as [?H Hd]).
  unfold split_on. cbn [app split_on_from].
  repeat match goal with
         | E : isdecimal ?c = true |- context [(?c =? ch ":")%N] =>
             change (c =? ch ":")%N with (c =? 58)%N;
             rewrite (isdecimal_not_colon c E); cbn [split_on_from]
         | |- context [(ch ":" =? ch ":")%N] =>
             change (ch ":" =? ch ":")%N with true; cbn iota; cbn [split_on_from]
         end.
  destruct (at_end_cases _ He) as [-> | ->]; cbn; eauto.
Qed.

(** ** The dict after the eleven assignments *)

Lemma dict_get_set_same (k : str) (v : list str) (dc : dict) :
  dict_get k (dict_set k v dc) = Some v.
Proof.
  induction dc as [|[k' v'] dc IH]; simpl.
  - now rewrite str_eqb_refl.
  - destruct (str_eqb k' k) eqn:E; simpl; now rewrite E.
Qed.

Lemma dict_get_set_other (k k0 : str) (v : list str) (dc : dict) :
  k <> k0 -> dict_get k (dict_set k0 v dc) = dict_get k dc.
Proof.
  intros Hne. induction dc as [|[k' v'] dc IH]; simpl.
  - apply str_eqb_neq in Hne.
    destruct (str_eqb k0 k) eqn:E; [|reflexivity].
    apply str_eqb_eq in E. subst. now rewrite str_eqb_refl in Hne.
  - destruct (str_eqb k' k0) eqn:E; simpl.
    + apply str_eqb_eq in E. subst k'.
      destruct (str_eqb k0 k) eqn:E'; [|reflexivity].
      apply str_eqb_eq in E'. congruence.
    + now rewrite IH.
Qed.

Lemma assign_all_get_other (entries : list (str * list str)) (k : str) (dc : dict) :
  ~ In k (map fst entries) ->
  dict_get k (assign_all entries dc) = dict_get k dc.
Proof.
  unfold assign_all. revert dc.
  induction entries as [|[k0 v0] entries IH]; intros dc Hn; simpl in *.
  - reflexivity.
  - rewrite IH by tauto. apply dict_get_set_other. intros ->. tauto.
Qed.

Lemma assign_all_get_in (entries : list (str * list str)) (k : str) (v : list str)
      (dc : dict) :
  NoDup (map fst entries) -> In (k, v) entries ->
  dict_get k (assign_all entries dc) = Some v.
Proof.
  unfold assign_all. revert dc.
  induction entries as [|[k0 v0] entries IH]; intros dc Hnd Hin; simpl in *.
  - destruct Hin.
  - inversion Hnd as [|? ? Hnotin Hnd']; subst.
    destruct Hin as [E|Hin].
    + injection E as -> ->.
      change (fold_left (fun dc kv => dict_set (fst kv) (snd kv) dc) entries
                        (dict_set k v dc))
        with (assign_all entries (dict_set k v dc)).
      rewrite assign_all_get_other by exact Hnotin.
      apply dict_get_set_same.
    + now apply IH.
Qed.

Lemma window_entries_keys (s e : query_parts) :
  map fst (window_entries s e) = window_keys.
Proof. reflexivity. Qed.

Lemma window_keys_NoDup : NoDup window_keys.
Proof.
  unfold window_keys.
  repeat (constructor;
          [ cbn [map In]; intros H;
            repeat (destruct H as [H|H]; [vm_compute in H; discriminate H|]);
            exact H | ]).
  constructor.
Qed.

Lemma date_time_parts_ok (date_str time_str : str) :
  matches DATE_RE date_str = true ->
  matches TIME_RE time_str = true ->
  exists y m d hh mm,
    split_on (ch "-") date_str = [y; m; d]
    /\ split_on (ch ":") time_str = [hh; mm]
    /\ _date_time_to_query_parts date_str time_str
       = Ok (mkParts (strip0 d) (strip0 m) y (strip0 hh) (strip0 mm)).
Proof.
  intros Hd Ht.
  destruct (DATE_RE_split _ Hd) as (y & m & d & Hs).
  destruct (TIME_RE_split _ Ht) as (hh & mm & Hs').
  exists y, m, d, hh, mm. split; [exact Hs|]. split; [exact Hs'|].
  unfold _date_time_to_query_parts. now rewrite Hd, Ht, Hs, Hs'.
Qed.

Lemma date_time_parts_invalid (date_str time_str : str) :
  matches DATE_RE date_str && matches TIME_RE time_str = false ->
  exists msg, (msg = date_msg \/ msg = time_msg)
              /\ _date_time_to_query_parts date_str time_str = Raise (ValueError msg).
Proof.
  intros H. unfold _date_time_to_query_parts.
  destruct (matches DATE_RE date_str); simpl in *.
  - rewrite H. simpl. exists time_msg. auto.
  - exists date_msg. auto.
Qed.

(** Leading zeros, and nothing else, are what [lstrip('0')] removes. *)
Lemma lstrip_zeros (s : str) :
  exists n, s = repeat (ch "0") n ++ lstrip_chars (py "0") s
            /\ startswith (lstrip_chars (py "0") s) (py "0") = false.
Proof.
  induction s as [|c s [n [IH1 IH2]]].
  - exists 0. auto.
  - cbn [lstrip_chars existsb py map list_ascii_of_string].
    rewrite orb_false_r.
    destruct (c =? ch "0")%N eqn:E.
    + apply N.eqb_eq in E. subst c. exists (S n). simpl. split; [|exact IH2].
      f_equal. exact IH1.
    + exists 0. split; [reflexivity|].
      cbn [startswith]. now rewrite N.eqb_sym, E.
Qed.

Lemma strip0_nonempty (s : str) : strip0 s <> [].
Proof.
  unfold strip0. destruct (lstrip_chars (py "0") s) eqn:E; simpl; discriminate.
Qed.

(** C6.  For a date and a time that pass the patterns, the day, the month,
    the hour and the minute are returned with their leading zeros removed,
    ["0"] standing for a field of zeros only, and the year is returned as it
    is: ["00"] gives ["0"], ["05"] gives ["5"], and no field comes out
    empty.  The builder stores these values, as they are, under the start
    keys or the end keys of the query. *)
Theorem query_parts_without_leading_zeros (date_str time_str : str) :
  matches DATE_RE date_str = true ->
  matches TIME_RE time_str = true ->
  (exists y m d hh mm,
      split_on (ch "-") date_str = [y; m; d]
      /\ split_on (ch ":") time_str = [hh; mm]
      /\ _date_time_to_query_parts date_str time_str
         = Ok (mkParts (strip0 d) (strip0 m) y (strip0 hh) (strip0 mm))
      /\ (forall q other,
             let parts := mkParts (strip0 d) (strip0 m) y (strip0 hh) (strip0 mm) in
             (forall k v,
                 In (k, v) (window_entries parts other) ->
                 dict_get k (assign_all (window_entries parts other) (parse_qs q))
                 = Some v)
             /\ (forall k v,
                    In (k, v) (window_entries other parts) ->
                    dict_get k (assign_all (window_entries other parts) (parse_qs q))
                    = Some v)))
  /\ strip0 (py "00") = py "0"
  /\ strip0 (py "05") = py "5"
  /\ (forall s, strip0 s <> [])
  /\ (forall s, exists n,
         s = repeat (ch "0") n ++ lstrip_chars (py "0") s
         /\ startswith (lstrip_chars (py "0") s) (py "0") = false
         /\ strip0 s = if is_empty (lstrip_chars (py "0") s) then py "0"
                       else lstrip_chars (py "0") s).
Proof.
  intros Hd Ht. split.
  { destruct (date_time_parts_ok _ _ Hd Ht) as (y & m & d & hh & mm & Hs & Hs' & Hp).
    exists y, m, d, hh, mm.
    split; [exact Hs|]. split; [exact Hs'|]. split; [exact Hp|].
    intros q other parts. split; intros k v Hin;
      (apply assign_all_get_in; [|exact Hin]);
      rewrite window_entries_keys; exact window_keys_NoDup. }
  split; [reflexivity|]. split; [reflexivity|]. split; [exact strip0_nonempty|].
  intros s. destruct (lstrip_zeros s) as [n [H1 H2]]. exists n. auto.
Qed.

Lemma query_parts_without_leading_zeros_witness :
  matches DATE_RE (py "2025-07-05") = true
  /\ matches TIME_RE (py "00:09") = true
  /\ _date_time_to_query_parts (py "2025-07-05") (py "00:09")
     = Ok (mkParts (py "5") (py "7") (py "2025") (py "0") (py "9")).
Proof.
  split; [reflexivity|]. split; [reflexivity|].
  destruct (proj1 (query_parts_without_leading_zeros
                     (py "2025-07-05") (py "00:09") eq_refl eq_refl))
    as (y & m & d & hh & mm & Hs & Hs' & H & _).
  injection Hs as <- <- <-. injection Hs' as <- <-. exact H.
Defined.

Lemma DATE_RE_accepts (y1 y2 y3 y4 m1 m2 d1 d2 : char) :
  forallb isdecimal [y1; y2; y3; y4; m1; m2; d1; d2] = true ->
  matches DATE_RE [y1; y2; y3; y4; ch "-"; m1; m2; ch "-"; d1; d2] = true.
Proof.
  intros H. simpl in H.
  repeat (apply andb_true_iff in H; destruct H as [?H H]).
  unfold matches, re_match, run. simpl.
  repeat match goal with
         | E : isdecimal ?c = true |- context [isdecimal ?c] => rewrite E
         end.
  reflexivity.
Qed.

Lemma TIME_RE_accepts (h1 h2 n1 n2 : char) :
  forallb isdecimal [h1; h2; n1; n2] = true ->
  matches TIME_RE [h1; h2; ch ":"; n1; n2] = true.
Proof.
  intros H. simpl in H.
  repeat (apply andb_true_iff in H; destruct H as [?H H]).
  unfold matches, re_match, run. simpl.
  repeat match goal with
         | E : isdecimal ?c = true |- context [isdecimal ?c] => rewrite E
         end.
  reflexivity.
Qed.


Lemma rewritten_query_valid (q sd st ed et : str) (s e : query_parts) :
  _date_time_to_query_parts sd st = Ok s ->
  _date_time_to_query_parts ed et = Ok e ->
  rewritten_query q sd st ed et
  = urlencode (assign_all (window_entries s e) (parse_qs q)).
Proof. intros Hs He. unfold rewritten_query. now rewrite Hs, He. Qed.

(** C10.  The two patterns look at the shape only: any four digits, dash, two
    digits, dash, two digits is a date, any two digits, colon, two digits is
    a time, whatever the numbers are.  Such a pair passes the check, its
    fields come back with no range test, and the builder stores them under
    the keys of the query it encodes into the URL. *)
Theorem validation_is_syntactic (y1 y2 y3 y4 m1 m2 d1 d2 h1 h2 n1 n2 : char) :
  forallb isdecimal [y1; y2; y3; y4; m1; m2; d1; d2; h1; h2; n1; n2] = true ->
  let date_str := [y1; y2; y3; y4; ch "-"; m1; m2; ch "-"; d1; d2] in
  let time_str := [h1; h2; ch ":"; n1; n2] in
  let parts := mkParts (strip0 [d1; d2]) (strip0 [m1; m2]) [y1; y2; y3; y4]
                       (strip0 [h1; h2]) (strip0 [n1; n2]) in
  matches DATE_RE date_str = true
  /\ matches TIME_RE time_str = true
  /\ _date_time_to_query_parts date_str time_str = Ok parts
  /\ (forall (urlparse : str -> res ParseResult) base p,
         urlparse base = Ok p ->
         let qs := assign_all (window_entries parts parts) (parse_qs (query p)) in
         dict_get (py "start_day") qs = Some [strip0 [d1; d2]]
         /\ dict_get (py "start_month") qs = Some [strip0 [m1; m2]]
         /\ dict_get (py "start_hour") qs = Some [strip0 [h1; h2]]
         /\ dict_get (py "start_min") qs = Some [strip0 [n1; n2]]
         /\ _build_ascii_url urlparse base date_str time_str date_str time_str
            = (new_q <- urlencode qs ;;
               Ok (urlunparse (scheme p) (netloc p) (path p) (params p) new_q
                              (fragment p)))).
Proof.
  intros H date_str time_str parts.
  assert (Hd : matches DATE_RE date_str = true).
  { apply DATE_RE_accepts. simpl in *.
    repeat (apply andb_true_iff in H; destruct H as [?H H]).
    repeat (apply andb_true_intro; split; [assumption|]). reflexivity. }
  assert (Ht : matches TIME_RE time_str = true).
  { apply TIME_RE_accepts. simpl in *.
    repeat (apply andb_true_iff in H; destruct H as [?H H]).
    repeat (apply andb_true_intro; split; [assumption|]). reflexivity. }
  assert (Hp : _date_time_to_query_parts date_str time_str = Ok parts).
  { destruct (date_time_parts_ok _ _ Hd Ht) as (y & m & d & hh & mm & Hs & Hs' & Hp).
    rewrite Hp. clear Hp.
    destruct (DATE_RE_shape _ Hd) as (a1 & a2 & a3 & a4 & b1 & b2 & c1 & c2 & tail & E & Hdig & _).
    assert (tail = []) as ->.
    { apply (f_equal (@List.length char)) in E. rewrite length_app in E.
      simpl in E. destruct tail; [reflexivity|simpl in E; lia]. }
    clear E. simpl in H.
    repeat (apply andb_true_iff in H; destruct H as [?H H]).
    unfold date_str, time_str, split_on in Hs, Hs'. cbn [split_on_from] in Hs, Hs'.
    repeat match goal with
           | E : isdecimal ?c = true, Hs : context [(?c =? ch "-")%N] |- _ =>
               change (c =? ch "-")%N with (c =? 45)%N in Hs;
               rewrite (isdecimal_not_dash c E) in Hs; cbn [split_on_from] in Hs
           | E : isdecimal ?c = true, Hs : context [(?c =? ch ":")%N] |- _ =>
               change (c =? ch ":")%N with (c =? 58)%N in Hs;
               rewrite (isdecimal_not_colon c E) in Hs; cbn [split_on_from] in Hs
           | Hs : context [(ch ?a =? ch ?a)%N] |- _ =>
               change (ch a =? ch a)%N with true in Hs; cbn iota in Hs;
               cbn [split_on_from] in Hs
           end.
    cbn in Hs, Hs'. injection Hs as <- <- <-. injection Hs' as <- <-. reflexivity. }
  split; [exact Hd|]. split; [exact Ht|]. split; [exact Hp|].
  intros urlparse base p Hu qs.
  assert (Hget : forall k v, In (k, v) (window_entries parts parts) -> dict_get k qs = Some v).
  { intros k v Hin. apply assign_all_get_in; [|exact Hin].
    rewrite window_entries_keys. exact window_keys_NoDup. }
  split; [apply Hget; simpl; tauto|].
  split; [apply Hget; simpl; tauto|].
  split; [apply Hget; simpl; tauto|].
  split; [apply Hget; simpl; tauto|].
  unfold _build_ascii_url. rewrite Hu. cbn [bind].
  now rewrite rewritten_query_valid with (s := parts) (e := parts).
Qed.

(** Month 13, day 99, hour 25 and minute 61 go through into the URL. *)
Lemma validation_is_syntactic_witness :
  forallb isdecimal (py "202513992561") = true
  /\ _date_time_to_query_parts (py "2025-13-99") (py "25:61")
     = Ok (mkParts (py "99") (py "13") (py "2025") (py "25") (py "61"))
  /\ _build_ascii_url Demo.urlparse DEFAULT_URL
       (py "2025-13-99") (py "25:61") (py "2025-13-99") (py "25:61")
     = Ok (py ("https://www.nmdb.eu/nest/draw_graph.php?"
               ++ "formchk=1&stations%5B%5D=OULU&tabchoice=revori&"
               ++ "dtype=corr_for_efficiency&tresolution=5&yunits=0&shift=2&"
               ++ "date_choice=bydate&"
               ++ "start_day=99&start_month=13&start_year=2025&"
               ++ "start_hour=25&start_min=61&"
               ++ "end_day=99&end_month=13&end_year=2025&end_hour=25&end_min=61&"
               ++ "output=ascii&ygrid=1&mline=1&transp=0&fontsize=1&"
               ++ "text_color=222222&background_color=FFFFFF&margin_color=FFFFFF")).
Proof.
  split; [reflexivity|].
  pose proof (validation_is_syntactic
                (ch "2") (ch "0") (ch "2") (ch "5") (ch "1") (ch "3") (ch "9") (ch "9")
                (ch "2") (ch "5") (ch "6") (ch "1") eq_refl) as H.
  cbv zeta in H. destruct H as (_ & _ & Hp & Hb).
  split; [exact Hp|].
  destruct (Hb Demo.urlparse DEFAULT_URL _ eq_refl) as (_ & _ & _ & _ & Hurl).
  etransitivity; [exact Hurl|]. vm_compute. reflexivity.
Defined.

(* ================================================================== *)
(** * The operation *)
(* ================================================================== *)

Lemma rewritten_query_invalid (sd st ed et : str) :
  matches DATE_RE sd && matches TIME_RE st
  && (matches DATE_RE ed && matches TIME_RE et) = false ->
  exists msg, (msg = date_msg \/ msg = time_msg)
              /\ forall q, rewritten_query q sd st ed et = Raise (ValueError msg).
Proof.
  intros H. unfold rewritten_query.
  destruct (matches DATE_RE sd && matches TIME_RE st) eqn:E1.
  - simpl in H. apply andb_true_iff in E1. destruct E1 as [Hd Ht].
    destruct (date_time_parts_ok _ _ Hd Ht) as (y & m & d & hh & mm & _ & _ & Hs).
    destruct (date_time_parts_invalid _ _ H) as [msg [Hm He]].
    exists msg. split; [exact Hm|]. intros q. now rewrite Hs, He.
  - destruct (date_time_parts_invalid _ _ E1) as [msg [Hm He]].
    exists msg. split; [exact Hm|]. intros q. now rewrite He.
Qed.

(** C7.  When one of the four date and time arguments does not pass its
    pattern, the operation raises [ValueError] and leaves the world as it
    was: no request has been sent, nothing printed, no file written.  When
    the base URL itself parses, the message is that of the date or of the
    time check. *)
Theorem invalid_window_raises_before_request
        (num : Type) (urlparse : str -> res ParseResult)
        (to_datetime : list str -> list (option Z))
        (to_numeric : list str -> list (option num))
        (sort_values : list (row num) -> list (row num))
        (http_get : str -> res str) (csv_text : list (row num) -> str)
        (sd st ed et out_csv : str) (base_url : option str) (w : world) :
  (forall u e, urlparse u = Raise e -> exists m, e = ValueError m) ->
  matches DATE_RE sd && matches TIME_RE st
  && (matches DATE_RE ed && matches TIME_RE et) = false ->
  exists msg,
    nmdb_data urlparse to_datetime to_numeric sort_values http_get csv_text
              sd st ed et out_csv base_url w
    = (w, Raise (ValueError msg))
    /\ (forall p, urlparse (base_or_default base_url) = Ok p ->
                  msg = date_msg \/ msg = time_msg).
Proof.
  intros Hraise Hbad.
  destruct (rewritten_query_invalid _ _ _ _ Hbad) as [msg [Hm Hq]].
  unfold nmdb_data, bind_io, lift, _build_ascii_url.
  destruct (urlparse (base_or_default base_url)) as [p|e] eqn:Hu; cbn [bind].
  - rewrite Hq. cbn [bind]. exists msg. split; [reflexivity|]. intros _ _. exact Hm.
  - destruct (Hraise _ _ Hu) as [m ->]. exists m. split; [reflexivity|].
    intros p Hp. discriminate.
Qed.

Lemma Demo_urlparse_raises (u : str) (e : exn) :
  Demo.urlparse u = Raise e -> exists m, e = ValueError m.
Proof.
  unfold Demo.urlparse.
  destruct (Demo.cut_at (py ":") u) as [sch r0].
  destruct (startswith r0 (py "://")).
  - destruct (Demo.cut_at (py "/?#") (skipn 3 r0)) as [loc r1].
    destruct (Demo.cut_at (py "?#") r1) as [pth r2].
    destruct (Demo.cut_at (py "#") _) as [qry r3]. discriminate.
  - intros H. injection H as <-. now eexists.
Qed.

(** A date written day first is refused, and nothing has happened. *)
Lemma invalid_window_raises_before_request_witness :
  (forall u e, Demo.urlparse u = Raise e -> exists m, e = ValueError m)
  /\ matches DATE_RE (py "29/07/2024") && matches TIME_RE (py "00:00")
     && (matches DATE_RE (py "2025-08-29") && matches TIME_RE (py "23:59")) = false
  /\ exists msg,
      nmdb_data Demo.urlparse Demo.to_datetime Demo.to_numeric Demo.sort_stable
                (Demo.serve (py "2025-07-29 00:05 1")) Demo.csv_text
                (py "29/07/2024") (py "00:00") (py "2025-08-29") (py "23:59")
                default_out_csv None world0
      = (world0, Raise (ValueError msg))
      /\ (forall p, Demo.urlparse (base_or_default None) = Ok p ->
                    msg = date_msg \/ msg = time_msg).
Proof.
  split; [exact Demo_urlparse_raises|]. split; [reflexivity|].
  exact (@invalid_window_raises_before_request
           N Demo.urlparse Demo.to_datetime Demo.to_numeric Demo.sort_stable
           (Demo.serve (py "2025-07-29 00:05 1")) Demo.csv_text
           (py "29/07/2024") (py "00:00") (py "2025-08-29") (py "23:59")
           default_out_csv None world0 Demo_urlparse_raises eq_refl).
Defined.

Lemma file_get_set_same (path content : str) (fs : list (str * str)) :
  file_get path (file_set path content fs) = Some content.
Proof.
  induction fs as [|[p c] fs IH]; simpl.
  - now rewrite str_eqb_refl.
  - destruct (str_eqb p path) eqn:E; simpl; now rewrite E.
Qed.

Lemma file_get_set_other (path path0 content : str) (fs : list (str * str)) :
  path <> path0 -> file_get path (file_set path0 content fs) = file_get path fs.
Proof.
  intros Hne. induction fs as [|[p c] fs IH]; simpl.
  - destruct (str_eqb path0 path) eqn:E; [|reflexivity].
    apply str_eqb_eq in E. congruence.
  - destruct (str_eqb p path0) eqn:E; simpl.
    + apply str_eqb_eq in E. subst p.
      destruct (str_eqb path0 path) eqn:E'; [|reflexivity].
      apply str_eqb_eq in E'. congruence.
    + now rewrite IH.
Qed.

(** C4.  When the table parsed from the response is empty, the operation
    writes the whole response text to [nmdb_debug.txt], in place of whatever
    the file held, touches no other file, and raises [RuntimeError].  In
    every run the CSV is written only with a table that is not empty, after
    it has been assembled; a run that fails writes no CSV. *)
Theorem empty_table_dumps_text_and_raises
        (num : Type) (urlparse : str -> res ParseResult)
        (to_datetime : list str -> list (option Z))
        (to_numeric : list str -> list (option num))
        (sort_values : list (row num) -> list (row num))
        (http_get : str -> res str) (csv_text : list (row num) -> str)
        (sd st ed et out_csv : str) (base_url : option str) (w : world)
        (url text : str) :
  _build_ascii_url urlparse (base_or_default base_url) sd st ed et = Ok url ->
  http_get url = Ok text ->
  _parse_ascii to_datetime to_numeric sort_values text = Ok [] ->
  let run := nmdb_data urlparse to_datetime to_numeric sort_values http_get csv_text
                       sd st ed et out_csv base_url in
  snd (run w) = Raise (RuntimeError empty_msg)
  /\ files (fst (run w)) = file_set debug_path text (files w)
  /\ file_get debug_path (files (fst (run w))) = Some text
  /\ (forall path, path <> debug_path ->
                   file_get path (files (fst (run w))) = file_get path (files w))
  /\ requested (fst (run w)) = requested w ++ [url]
  /\ (forall w0, file_effect csv_text out_csv w0 (fst (run w0)) (snd (run w0))).
Proof.
  intros Hurl Hget Hparse run.
  assert (Hrun : run w = (mkWorld (file_set debug_path text (files w))
                                  (requested w ++ [url])
                                  (printed w ++ [py "Descargando: " ++ url]),
                          Raise (RuntimeError empty_msg))).
  { unfold run, nmdb_data, bind_io, lift, print, _download_text, write_text.
    rewrite Hurl. cbn. rewrite Hget, Hparse. reflexivity. }
  rewrite Hrun. cbn [fst snd files requested].
  split; [reflexivity|]. split; [reflexivity|].
  split; [apply file_get_set_same|].
  split; [intros path Hne; now apply file_get_set_other|].
  split; [reflexivity|].
  clear. intros w0.
  unfold run, nmdb_data, bind_io, lift, print, _download_text, write_text, ret.
  destruct (_build_ascii_url urlparse (base_or_default base_url) sd st ed et)
    as [u|e]; cbn; [|apply NothingWritten; [reflexivity|discriminate]].
  destruct (http_get u) as [t|e]; cbn;
    [|apply NothingWritten; [reflexivity|discriminate]].
  destruct (_parse_ascii to_datetime to_numeric sort_values t) as [[|r0 df]|e]; cbn.
  - now apply DebugDump with (text := t).
  - apply CsvSaved with (df := r0 :: df); [discriminate|reflexivity|reflexivity].
  - apply NothingWritten; [reflexivity|discriminate].
Qed.

(** A response made of comments only: the old dump is replaced by the
    response, the CSV of an earlier run is left alone. *)
Lemma empty_table_dumps_text_and_raises_witness :
  let text := py "# OULU" ++ [0x0a%N] ++ py "# no data" in
  let w := mkWorld [(debug_path, py "old dump"); (default_out_csv, py "old csv")] [] [] in
  let run := nmdb_data Demo.urlparse Demo.to_datetime Demo.to_numeric Demo.sort_stable
                       (Demo.serve text) Demo.csv_text
                       (py "2024-07-29") (py "00:00") (py "2025-08-29") (py "23:59")
                       default_out_csv None in
  _build_ascii_url Demo.urlparse (base_or_default None)
                   (py "2024-07-29") (py "00:00") (py "2025-08-29") (py "23:59")
  = Ok Demo.ascii_url
  /\ Demo.serve text Demo.ascii_url = Ok text
  /\ _parse_ascii Demo.to_datetime Demo.to_numeric Demo.sort_stable text = Ok []
  /\ snd (run w) = Raise (RuntimeError empty_msg)
  /\ files (fst (run w)) = [(debug_path, text); (default_out_csv, py "old csv")].
Proof.
  cbv zeta.
  assert (H1 : _build_ascii_url Demo.urlparse (base_or_default None)
                 (py "2024-07-29") (py "00:00") (py "2025-08-29") (py "23:59")
               = Ok Demo.ascii_url) by (vm_compute; reflexivity).
  assert (H3 : _parse_ascii Demo.to_datetime Demo.to_numeric
                 (Demo.sort_stable (num:=N))
                 (py "# OULU" ++ [0x0a%N] ++ py "# no data") = Ok [])
    by (vm_compute; reflexivity).
  split; [exact H1|]. split; [reflexivity|]. split; [exact H3|].
  destruct (@empty_table_dumps_text_and_raises
              N Demo.urlparse Demo.to_datetime Demo.to_numeric Demo.sort_stable
              (Demo.serve (py "# OULU" ++ [0x0a%N] ++ py "# no data")) Demo.csv_text
              (py "2024-07-29") (py "00:00") (py "2025-08-29") (py "23:59")
              default_out_csv None
              (mkWorld [(debug_path, py "old dump"); (default_out_csv, py "old csv")] [] [])
              Demo.ascii_url (py "# OULU" ++ [0x0a%N] ++ py "# no data")
              H1 eq_refl H3) as (Hr & Hf & _).
  split; [exact Hr|]. etransitivity; [exact Hf|]. reflexivity.
Defined.

(* ================================================================== *)
(** * The table assembler *)
(* ================================================================== *)

(** ** An insertion sort meets the contract, on either side of the ties *)

Lemma insert_row_perm {num} (strict : bool) (x : row num) (l : list (row num)) :
  Permutation (x :: l) (Demo.insert_row strict x l).
Proof.
  induction l as [|y l IH]; simpl.
  - apply Permutation_refl.
  - destruct (if strict then (fst x <? fst y)%Z else (fst x <=? fst y)%Z).
    + apply Permutation_refl.
    + eapply Permutation_trans; [apply perm_swap|]. now apply perm_skip.
Qed.

Lemma insert_row_hd {num} (strict : bool) (x y : row num) (l : list (row num)) :
  ts_le y x -> HdRel ts_le y l -> HdRel ts_le y (Demo.insert_row strict x l).
Proof.
  intros Hyx Hl. destruct l as [|z l]; simpl.
  - now constructor.
  - destruct (if strict then (fst x <? fst z)%Z else (fst x <=? fst z)%Z).
    + now constructor.
    + constructor. now inversion Hl.
Qed.

Lemma insert_row_sorted {num} (strict : bool) (x : row num) (l : list (row num)) :
  Sorted ts_le l -> Sorted ts_le (Demo.insert_row strict x l).
Proof.
  induction l as [|y l IH]; intros Hs; simpl.
  - repeat constructor.
  - inversion Hs as [|? ? Hs' Hhd]; subst.
    destruct (if strict then (fst x <? fst y)%Z else (fst x <=? fst y)%Z) eqn:E.
    + constructor; [exact Hs|]. constructor. unfold ts_le.
      destruct strict; [apply Z.ltb_lt in E|apply Z.leb_le in E]; lia.
    + constructor; [now apply IH|].
      apply insert_row_hd; [|exact Hhd]. unfold ts_le.
      destruct strict; [apply Z.ltb_ge in E|apply Z.leb_gt in E]; lia.
Qed.

Lemma insertion_sort_contract {num} (strict : bool) :
  sort_contract (Demo.insertion_sort (num:=num) strict).
Proof.
  intros l. unfold Demo.insertion_sort. induction l as [|x l [IHp IHs]]; simpl.
  - split; constructor.
  - split.
    + eapply Permutation_trans; [apply perm_skip, IHp|]. apply insert_row_perm.
    + now apply insert_row_sorted.
Qed.

Lemma Demo_columns_contract :
  column_contract Demo.to_datetime /\ column_contract Demo.to_numeric.
Proof.
  split; intros col; unfold Demo.to_datetime, Demo.to_numeric; apply length_map.
Qed.

(* ================================================================== *)
(** * The frame of the URL builder *)
(* ================================================================== *)

Arguments always_safe : simpl never.

(** The always-safe characters are ASCII and none of the characters that
    mean something in a query. *)
Lemma always_safe_plain (c : char) :
  always_safe c = true ->
  (c < 128 /\ c <> 32 /\ c <> 37 /\ c <> 38 /\ c <> 43 /\ c <> 61)%N.
Proof.
  unfold always_safe, in_range, contains. cbn [py map list_ascii_of_string existsb].
  rewrite !orb_true_iff, !andb_true_iff, !N.leb_le, !N.ltb_lt, !N.eqb_eq.
  change (ch "_") with 95%N. change (ch ".") with 46%N.
  change (ch "-") with 45%N. change (ch "~") with 126%N.
  intros H. repeat split; try (intros ->); lia.
Qed.

Lemma safe_not_contains (s : str) (c : char) :
  forallb always_safe s = true -> always_safe c = false -> contains c s = false.
Proof.
  intros Hs Hc. apply not_true_is_false. intros H.
  apply existsb_exists in H. destruct H as [x [Hin Hx]].
  apply N.eqb_eq in Hx. subst x.
  rewrite forallb_forall in Hs. apply Hs in Hin. congruence.
Qed.

Lemma replace_char_absent (a b : char) (s : str) :
  contains a s = false -> replace_char a b s = s.
Proof.
  unfold replace_char, contains. induction s as [|c s IH]; simpl; [reflexivity|].
  intros H. apply orb_false_iff in H. destruct H as [H1 H2].
  rewrite N.eqb_sym, H1. f_equal. now apply IH.
Qed.

Lemma split_once_from_app (sep : char) (cur name value : str) :
  contains sep name = false ->
  split_once_from sep cur (name ++ sep :: value) = [rev cur ++ name; value].
Proof.
  revert cur. induction name as [|c name IH]; intros cur H; simpl.
  - rewrite N.eqb_refl. now rewrite app_nil_r.
  - unfold contains in H. simpl in H. apply orb_false_iff in H. destruct H as [H1 H2].
    rewrite N.eqb_sym, H1. rewrite IH by exact H2. simpl.
    now rewrite <- app_assoc.
Qed.

(** A field [name=value] of always-safe characters, the value not empty,
    is read by [parse_qsl] as the pair of its two sides. *)
Lemma parse_field_plain (name value : str) :
  forallb always_safe (name ++ value) = true -> value <> [] ->
  parse_field (name ++ ch "=" :: value) = [(name, value)].
Proof.
  intros Hs Hv. rewrite forallb_app in Hs. apply andb_true_iff in Hs.
  destruct Hs as [Hn Hval].
  unfold parse_field.
  assert (Hne : is_empty (name ++ ch "=" :: value) = false)
    by (destruct name; reflexivity).
  rewrite Hne. unfold split_once.
  rewrite split_once_from_app by (apply safe_not_contains; [exact Hn|reflexivity]).
  simpl rev. simpl app.
  destruct value as [|v0 value]; [congruence|]. cbn [is_empty].
  rewrite !replace_char_absent
    by (apply safe_not_contains; [assumption|reflexivity]).
  unfold unquote.
  rewrite !safe_not_contains by (try assumption; reflexivity).
  reflexivity.
Qed.

Lemma split_on_nonempty_field (sep : char) (q field : str) :
  In field (split_on sep q) -> field <> [] -> q <> [].
Proof.
  intros Hin Hf ->. simpl in Hin. destruct Hin as [<-|[]]. congruence.
Qed.

Lemma parse_qsl_plain (q name value : str) :
  In (name ++ ch "=" :: value) (split_on (ch "&") q) ->
  forallb always_safe (name ++ value) = true -> value <> [] ->
  In (name, value) (parse_qsl q).
Proof.
  intros Hin Hs Hv. unfold parse_qsl.
  assert (Hq : q <> []).
  { eapply split_on_nonempty_field; [exact Hin|]. destruct name; discriminate. }
  destruct q as [|c q]; [congruence|]. cbn [is_empty].
  apply in_flat_map. exists (name ++ ch "=" :: value). split; [exact Hin|].
  rewrite parse_field_plain by assumption. now left.
Qed.

(** ** From the pairs to the dict *)

Lemma dict_append_holds_new (k x : str) (dc : dict) : holds k x (dict_append k x dc).
Proof.
  unfold holds. induction dc as [|[k' v'] dc IH]; simpl.
  - exists [x]. rewrite str_eqb_refl. split; [reflexivity|now left].
  - destruct (str_eqb k' k) eqn:E; simpl; rewrite E.
    + exists (v' ++ [x]). split; [reflexivity|]. apply in_or_app. right. now left.
    + exact IH.
Qed.

Lemma dict_append_holds_old (k x k0 x0 : str) (dc : dict) :
  holds k x dc -> holds k x (dict_append k0 x0 dc).
Proof.
  unfold holds. intros [vs [Hg Hin]].
  induction dc as [|[k' v'] dc IH]; simpl in *; [discriminate|].
  destruct (str_eqb k' k0) eqn:E0; simpl.
  - destruct (str_eqb k' k) eqn:E.
    + injection Hg as <-. exists (v' ++ [x0]). split; [reflexivity|].
      apply in_or_app. now left.
    + exists vs. auto.
  - destruct (str_eqb k' k) eqn:E.
    + exists vs. auto.
    + now apply IH.
Qed.

Lemma fold_dict_append_holds (pairs : list (str * str)) (k x : str) (dc : dict) :
  holds k x dc \/ In (k, x) pairs ->
  holds k x (fold_left (fun d nv => dict_append (fst nv) (snd nv) d) pairs dc).
Proof.
  revert dc. induction pairs as [|[k0 x0] pairs IH]; intros dc H; simpl.
  - destruct H as [H|[]]. exact H.
  - apply IH. destruct H as [H|[E|H]].
    + left. now apply dict_append_holds_old.
    + injection E as -> ->. left. apply dict_append_holds_new.
    + now right.
Qed.

Lemma parse_qs_holds (q k x : str) : In (k, x) (parse_qsl q) -> holds k x (parse_qs q).
Proof. intros H. unfold parse_qs. apply fold_dict_append_holds. now right. Qed.

Lemma dict_get_In (k : str) (vs : list str) (dc : dict) :
  dict_get k dc = Some vs -> exists k', str_eqb k' k = true /\ In (k', vs) dc.
Proof.
  induction dc as [|[k' v'] dc IH]; simpl; [discriminate|].
  destruct (str_eqb k' k) eqn:E.
  - intros H. injection H as ->. exists k'. auto.
  - intros H. destruct (IH H) as [k'' [E' Hin]]. exists k''. auto.
Qed.

(** ** From the dict to the encoded text *)

Lemma mapM_In {A B} (f : A -> res B) (l : list A) (bs : list B) (a : A) :
  mapM f l = Ok bs -> In a l -> exists b, f a = Ok b /\ In b bs.
Proof.
  revert bs. induction l as [|a0 l IH]; intros bs H Hin; simpl in *; [destruct Hin|].
  destruct (f a0) as [b0|e] eqn:E0; simpl in H; [|discriminate].
  destruct (mapM f l) as [bs'|e] eqn:El; simpl in H; [|discriminate].
  injection H as <-. destruct Hin as [<-|Hin].
  - exists b0. split; [exact E0|now left].
  - destruct (IH bs' eq_refl Hin) as [b [Hb Hbin]]. exists b. split; [exact Hb|now right].
Qed.

Lemma mapM_all {A B} (P : B -> Prop) (f : A -> res B) (l : list A) (bs : list B) :
  (forall a b, f a = Ok b -> P b) -> mapM f l = Ok bs -> Forall P bs.
Proof.
  intros Hf. revert bs. induction l as [|a0 l IH]; intros bs H; simpl in H.
  - injection H as <-. constructor.
  - destruct (f a0) as [b0|e] eqn:E0; simpl in H; [|discriminate].
    destruct (mapM f l) as [bs'|e] eqn:El; simpl in H; [|discriminate].
    injection H as <-. constructor; [now apply (Hf a0)|now apply IH].
Qed.

(** Always-safe text is encoded as itself. *)
Lemma utf8_encode_plain (s : str) :
  forallb always_safe s = true -> utf8_encode s = Some s.
Proof.
  induction s as [|c s IH]; simpl; [reflexivity|].
  intros H. apply andb_true_iff in H. destruct H as [Hc Hs].
  rewrite (IH Hs). apply always_safe_plain in Hc. destruct Hc as [Hc _].
  unfold utf8_encode_char. apply N.ltb_lt in Hc. now rewrite Hc.
Qed.

Lemma quote_from_bytes_plain (s safe : str) :
  forallb always_safe s = true -> quote_from_bytes s safe = s.
Proof.
  unfold quote_from_bytes. induction s as [|c s IH]; simpl; [reflexivity|].
  intros H. apply andb_true_iff in H. destruct H as [Hc Hs].
  unfold quote_byte at 1. rewrite Hc. simpl. f_equal. now apply IH.
Qed.

Lemma quote_plus_plain (s : str) :
  forallb always_safe s = true -> quote_plus s = Ok s.
Proof.
  intros H. unfold quote_plus.
  rewrite safe_not_contains by (try exact H; reflexivity). simpl.
  unfold quote. destruct s as [|c s]; [reflexivity|]. cbn [is_empty].
  rewrite utf8_encode_plain by exact H. now rewrite quote_from_bytes_plain.
Qed.

Lemma hexdigit_not_amp (n : N) : hexdigit n <> ch "&".
Proof.
  unfold hexdigit. change (ch "&") with 38%N.
  destruct (n <? 10)%N eqn:E; [apply N.ltb_lt in E|apply N.ltb_ge in E]; lia.
Qed.

Lemma quote_byte_amp_free (safe : str) (b : byte) :
  contains (ch "&") safe = false -> amp_free (quote_byte safe b).
Proof.
  intros Hsafe. unfold quote_byte, amp_free.
  change (ch "&") with 38%N in *.
  destruct (always_safe b) eqn:Hs; simpl.
  - apply always_safe_plain in Hs. constructor; [|constructor]. tauto.
  - destruct ((b <? 128)%N && contains b safe) eqn:Hc.
    + apply andb_true_iff in Hc. destruct Hc as [_ Hc]. constructor; [|constructor].
      intros E. rewrite E in Hc. rewrite Hsafe in Hc. discriminate Hc.
    + repeat constructor; try apply hexdigit_not_amp. discriminate.
Qed.

Lemma quote_amp_free (s safe q : str) :
  contains (ch "&") safe = false -> quote s safe = Ok q -> amp_free q.
Proof.
  intros Hsafe. unfold quote. destruct (is_empty s) eqn:E.
  - intros H. injection H as <-. apply is_empty_true in E. subst. constructor.
  - destruct (utf8_encode s) as [bs|]; [|discriminate].
    intros H. injection H as <-. unfold quote_from_bytes, amp_free.
    induction bs as [|b bs IH]; simpl; [constructor|].
    apply Forall_app. split; [now apply quote_byte_amp_free|exact IH].
Qed.

Lemma quote_plus_amp_free (s q : str) : quote_plus s = Ok q -> amp_free q.
Proof.
  unfold quote_plus. destruct (negb (contains (ch " ") s)).
  - apply quote_amp_free. reflexivity.
  - destruct (quote s [ch " "]) as [q0|e] eqn:E; simpl; [|discriminate].
    intros H. injection H as <-.
    apply quote_amp_free in E; [|reflexivity].
    unfold amp_free, replace_char in *. rewrite Forall_map.
    revert E. apply Forall_impl. intros c Hc.
    cbv beta. destruct (c =? 32)%N; [intros X; discriminate X|exact Hc].
Qed.

Lemma encode_entry_amp_free (kv : str * list str) (fields : list str) :
  encode_entry kv = Ok fields -> Forall amp_free fields.
Proof.
  unfold encode_entry. destruct (quote_plus (fst kv)) as [k|e] eqn:Ek; simpl; [|discriminate].
  apply mapM_all. intros elt f H.
  destruct (quote_plus elt) as [v|e] eqn:Ev; simpl in H; [|discriminate].
  injection H as <-. apply quote_plus_amp_free in Ek, Ev.
  unfold amp_free in *. apply Forall_app. split; [exact Ek|].
  constructor; [discriminate|exact Ev].
Qed.

(** Cutting at the separator what was joined with it gives the fields
    back, when no field holds the separator. *)
Lemma split_on_from_field (sep : char) (cur f : str) (rest : list str) :
  Forall (fun c => c <> sep) f ->
  split_on_from sep cur (f ++ sep :: join [sep] rest)
  = (rev cur ++ f) :: split_on_from sep [] (join [sep] rest).
Proof.
  revert cur. induction f as [|c f IH]; intros cur Hf; simpl.
  - rewrite N.eqb_refl. now rewrite app_nil_r.
  - inversion Hf as [|? ? Hc Hf']; subst.
    apply N.eqb_neq in Hc. rewrite Hc. rewrite IH by exact Hf'. simpl.
    now rewrite <- app_assoc.
Qed.

Lemma split_on_from_last (sep : char) (cur f : str) :
  Forall (fun c => c <> sep) f ->
  split_on_from sep cur f = [rev cur ++ f].
Proof.
  revert cur. induction f as [|c f IH]; intros cur Hf; simpl.
  - now rewrite app_nil_r.
  - inversion Hf as [|? ? Hc Hf']; subst.
    apply N.eqb_neq in Hc. rewrite Hc. rewrite IH by exact Hf'. simpl.
    now rewrite <- app_assoc.
Qed.

Lemma split_on_join (sep : char) (fields : list str) :
  fields <> [] ->
  Forall (Forall (fun c => c <> sep)) fields ->
  split_on sep (join [sep] fields) = fields.
Proof.
  unfold split_on. induction fields as [|f fields IH]; intros Hne Hall; [congruence|].
  inversion Hall as [|? ? Hf Hall']; subst.
  destruct fields as [|g fields].
  - cbn [join]. now apply split_on_from_last.
  - change (join [sep] (f :: g :: fields)) with (f ++ [sep] ++ join [sep] (g :: fields)).
    cbn [app]. rewrite split_on_from_field by exact Hf. cbn [rev app].
    f_equal. apply IH; [discriminate|exact Hall'].
Qed.

(** Every value of the dict shows in the encoded text as a field of its
    own: the encoded key, [=], the encoded value. *)
Lemma urlencode_field (dc : dict) (out k v k' v' : str) (vs : list str) :
  urlencode dc = Ok out ->
  In (k, vs) dc -> In v vs ->
  quote_plus k = Ok k' -> quote_plus v = Ok v' ->
  In (k' ++ ch "=" :: v') (split_on (ch "&") out).
Proof.
  intros Hout Hkv Hv Hk Hq. unfold urlencode in Hout.
  destruct (mapM encode_entry dc) as [l|e] eqn:El; simpl in Hout; [|discriminate].
  injection Hout as <-.
  assert (Hin : In (k' ++ ch "=" :: v') (List.concat l)).
  { destruct (mapM_In _ _ _ El Hkv) as [fields [Hf Hfin]].
    apply in_concat. exists fields. split; [exact Hfin|].
    unfold encode_entry in Hf. cbn [fst snd] in Hf. rewrite Hk in Hf. cbn [bind] in Hf.
    destruct (mapM_In _ _ _ Hf Hv) as [f [Hfv Hfi]].
    rewrite Hq in Hfv. cbn [bind] in Hfv. injection Hfv as <-. exact Hfi. }
  rewrite split_on_join; [exact Hin| |].
  - intros E. rewrite E in Hin. destruct Hin.
  - apply Forall_concat.
    apply (mapM_all (fun fields => Forall amp_free fields) encode_entry dc);
      [|exact El].
    intros a b. apply encode_entry_amp_free.
Qed.

(** The default URL of the source refutes it: its parameter
    [stations[]=OULU] comes out as [stations%5B%5D=OULU], because the query
    is decoded into a dict and encoded again. *)
Lemma default_query_is_reencoded : ~ other_parameters_byte_identical.
Proof.
  intros H.
  specialize (H Demo.default_query (py "2024-07-29") (py "00:00")
                (py "2025-08-29") (py "23:59")).
  destruct (rewritten_query Demo.default_query (py "2024-07-29") (py "00:00")
                            (py "2025-08-29") (py "23:59")) as [out|e] eqn:E;
    [|vm_compute in E; discriminate E].
  specialize (H out (py "stations[]=OULU") eq_refl).
  vm_compute in E. injection E as <-.
  assert (Hin : In (py "stations[]=OULU") (split_on (ch "&") Demo.default_query))
    by (vm_compute; tauto).
  assert (Hname : ~ In (field_name (py "stations[]=OULU")) window_keys).
  { vm_compute. intros X.
    repeat (destruct X as [X|X]; [discriminate X|]). exact X. }
  specialize (H Hin Hname). vm_compute in H.
  repeat (destruct H as [H|H]; [discriminate H|]). exact H.
Qed.

Lemma default_query_of_DEFAULT_URL :
  DEFAULT_URL = py "https://www.nmdb.eu/nest/draw_graph.php?" ++ Demo.default_query.
Proof. reflexivity. Qed.


(* ================================================================== *)
(** * Further properties of the line parser *)
(* ================================================================== *)

(** ** Tokens *)

Lemma split_ws_lstrip (s : str) : split_ws (lstrip s) = split_ws s.
Proof.
  unfold split_ws. induction s as [|c s IH]; simpl; [reflexivity|].
  destruct (isspace c) eqn:E; [exact IH|].
  simpl. now rewrite E.
Qed.

Lemma lstrip_decompose (s : str) :
  exists sp, s = sp ++ lstrip s /\ forallb isspace sp = true.
Proof.
  induction s as [|c s [sp [IH1 IH2]]]; simpl.
  - exists []. auto.
  - destruct (isspace c) eqn:E.
    + exists (c :: sp). simpl. rewrite E, IH2. split; [now f_equal|reflexivity].
    + exists []. auto.
Qed.

Lemma rstrip_decompose (s : str) :
  exists sp, s = rstrip s ++ sp /\ forallb isspace sp = true.
Proof.
  unfold rstrip. destruct (lstrip_decompose (rev s)) as [sp [H1 H2]].
  exists (rev sp). split.
  - rewrite <- rev_app_distr, <- H1. now rewrite rev_involutive.
  - rewrite forallb_forall in *. intros x Hx. apply H2. now apply in_rev.
Qed.

Lemma split_ws_from_trailing (cur s sp : str) :
  forallb isspace sp = true -> split_ws_from cur (s ++ sp) = split_ws_from cur s.
Proof.
  intros Hsp. revert cur. induction s as [|c s IH]; intros cur; simpl.
  - induction sp as [|a sp IHsp]; [reflexivity|].
    simpl in *. apply andb_true_iff in Hsp. destruct Hsp as [Ha Hsp].
    rewrite Ha. destruct cur as [|c0 cur].
    + now apply IHsp.
    + f_equal. clear IHsp. induction sp as [|b sp IHb]; [reflexivity|].
      simpl in *. apply andb_true_iff in Hsp. destruct Hsp as [Hb Hsp].
      rewrite Hb. now apply IHb.
  - destruct (isspace c); [destruct cur|]; now rewrite ?IH.
Qed.

Lemma split_ws_rstrip (s : str) : split_ws (rstrip s) = split_ws s.
Proof.
  destruct (rstrip_decompose s) as [sp [H1 H2]].
  rewrite H1 at 2. unfold split_ws. now rewrite split_ws_from_trailing.
Qed.

(** Stripping a line first does not change its tokens. *)
Lemma split_ws_strip (s : str) : split_ws (strip s) = split_ws s.
Proof. unfold strip. now rewrite split_ws_rstrip, split_ws_lstrip. Qed.

Lemma split_ws_from_first (cur s : str) :
  cur <> [] -> exists t ts, split_ws_from cur s = (rev cur ++ t) :: ts.
Proof.
  revert cur. induction s as [|c s IH]; intros cur Hc; simpl.
  - destruct cur; [congruence|]. exists [], []. now rewrite app_nil_r.
  - destruct (isspace c).
    + destruct cur; [congruence|]. exists [], (split_ws_from [] s).
      now rewrite app_nil_r.
    + destruct (IH (c :: cur)) as [t [ts H]]; [discriminate|].
      exists (c :: t), ts. rewrite H. simpl. now rewrite <- app_assoc.
Qed.

Lemma strip_head (s : str) (c : char) (r : str) :
  strip s = c :: r -> isspace c = false.
Proof.
  unfold strip. intros H.
  destruct (rstrip_decompose (lstrip s)) as [sp [H1 _]].
  rewrite H in H1. simpl in H1. now apply lstrip_head in H1.
Qed.

(** The first token of a line starts with the first character of the
    stripped line. *)
Lemma strip_first_token (s : str) (c : char) (r : str) :
  strip s = c :: r -> exists t ts, split_ws s = (c :: t) :: ts.
Proof.
  intros H. pose proof (strip_head _ H) as Hc.
  rewrite <- split_ws_strip, H. unfold split_ws. simpl. rewrite Hc.
  destruct (@split_ws_from_first [c] r) as [t [ts E]]; [discriminate|].
  exists t, ts. exact E.
Qed.

Lemma strip_empty_tokens (s : str) : strip s = [] -> split_ws s = [].
Proof. intros H. rewrite <- split_ws_strip, H. reflexivity. Qed.

(** What [parse_line] does, told by the tokens of the line alone. *)
Lemma parse_line_by_tokens (ln : str) :
  parse_line ln
  = match split_ws ln with
    | [] => Ok None
    | t :: _ =>
        if startswith t (py "#") then Ok None
        else Ok (first_match (split_ws ln))
    end.
Proof.
  destruct (strip ln) as [|c r] eqn:E.
  - rewrite (strip_empty_tokens _ E). unfold parse_line. now rewrite E.
  - destruct (strip_first_token _ E) as [t [ts Ht]]. rewrite Ht.
    assert (Hs : startswith (strip ln) (py "#") = startswith (c :: t) (py "#"))
      by (rewrite E; destruct r, t; reflexivity).
    destruct (startswith (c :: t) (py "#")) eqn:Hc.
    + unfold parse_line. rewrite Hs, E. reflexivity.
    + rewrite parse_line_tokens; [|now rewrite E|exact Hs].
      now rewrite split_ws_strip, Ht.
Qed.

Lemma split_ws_from_tokens (cur s : str) :
  forallb (fun c => negb (isspace c)) cur = true ->
  Forall (fun t => t <> [] /\ forallb (fun c => negb (isspace c)) t = true)
         (split_ws_from cur s).
Proof.
  revert cur. induction s as [|c s IH]; intros cur Hcur; simpl.
  - destruct cur as [|c0 cur]; constructor; [|constructor].
    split.
    + intros E. apply (f_equal (@List.length char)) in E.
      rewrite length_rev in E. discriminate.
    + rewrite forallb_forall in *. intros x Hx. apply Hcur. now apply in_rev in Hx.
  - destruct (isspace c) eqn:E.
    + destruct cur as [|c0 cur]; [now apply IH|].
      constructor; [|now apply IH].
      split.
      * intros E'. apply (f_equal (@List.length char)) in E'.
        rewrite length_rev in E'. discriminate.
      * rewrite forallb_forall in *. intros x Hx. apply Hcur. now apply in_rev in Hx.
    + apply IH. simpl. now rewrite E.
Qed.

(** A token is not empty and holds no white space. *)
Lemma split_ws_tokens (s t : str) :
  In t (split_ws s) -> t <> [] /\ forallb (fun c => negb (isspace c)) t = true.
Proof.
  intros Hin.
  pose proof (@split_ws_from_tokens [] s eq_refl) as H.
  rewrite Forall_forall in H. now apply H.
Qed.

Lemma last_nth_error {A} (l : list A) (d : A) :
  l <> [] -> nth_error l (List.length l - 1) = Some (last l d).
Proof.
  induction l as [|a l IH]; [congruence|]. intros _.
  destruct l as [|b l]; [reflexivity|].
  change (last (a :: b :: l) d) with (last (b :: l) d).
  rewrite <- IH by discriminate. simpl. now rewrite Nat.sub_0_r.
Qed.

(** X1.  The result of a line depends on its tokens only: the amount and
    the kind of white space around and between them play no part. *)
Theorem parse_line_depends_on_tokens (a b : str) :
  split_ws a = split_ws b -> parse_line a = parse_line b.
Proof. intros H. now rewrite !parse_line_by_tokens, H. Qed.

Lemma parse_line_depends_on_tokens_witness :
  let a := py "2025-07-29 00:05 1" in
  let b := [0x09%N] ++ py "2025-07-29" ++ [0x09; 0xa0]%N ++ py "00:05   1  " in
  split_ws a = split_ws b /\ parse_line a = parse_line b.
Proof.
  cbv zeta. split; [reflexivity|].
  exact (@parse_line_depends_on_tokens
           (py "2025-07-29 00:05 1")
           ([0x09%N] ++ py "2025-07-29" ++ [0x09; 0xa0]%N ++ py "00:05   1  ")
           eq_refl).
Defined.

(** X2.  A row has a simple shape: its datetime is the first [k] tokens of
    the line joined by single spaces and its count is the token that
    follows, where [k] is 2 for format A, 1 for format B and all but the
    last token for format C.  The count is never empty and holds no white
    space; no row comes from format D. *)
Theorem row_is_leading_tokens_and_next (ln : str) (f : format) (dt cnt : str) :
  parse_line ln = Ok (Some (f, (dt, cnt))) ->
  let tokens := split_ws ln in
  let k := match f with
           | FormatA => 2
           | FormatB => 1
           | _ => List.length tokens - 1
           end in
  f <> FormatD
  /\ 1 <= k < List.length tokens
  /\ dt = join (py " ") (firstn k tokens)
  /\ nth_error tokens k = Some cnt
  /\ cnt <> []
  /\ forallb (fun c => negb (isspace c)) cnt = true.
Proof.
  intros H tokens k.
  assert (Hmain : f <> FormatD /\ 1 <= k < List.length tokens
                  /\ dt = join (py " ") (firstn k tokens)
                  /\ nth_error tokens k = Some cnt).
  { rewrite parse_line_by_tokens in H. fold tokens in H.
    destruct tokens as [|t0 ts] eqn:Et; [discriminate|].
    destruct (startswith t0 (py "#")); [discriminate|].
    injection H as H. unfold first_match, chain in H.
    rewrite rowD_none in H.
    destruct (spec_format_A (t0 :: ts)) as [rA|] eqn:EA.
    { injection H as <- ->. unfold spec_format_A in EA.
      destruct ts as [|t1 [|t2 rest]]; try discriminate.
      destruct (matches DATE_RE t0 && matches LINE_TIME_RE t1); [|discriminate].
      injection EA as <- <-. subst k. simpl.
      repeat split; try discriminate; try lia; reflexivity. }
    destruct (spec_format_B (t0 :: ts)) as [rB|] eqn:EB.
    { injection H as <- ->. unfold spec_format_B in EB.
      destruct ts as [|t1 rest]; try discriminate.
      destruct (matches DATE_RE t0 && matches NUM_RE t1); [|discriminate].
      injection EB as <- <-. subst k. simpl.
      repeat split; try discriminate; try lia; reflexivity. }
    destruct (spec_format_C (t0 :: ts)) as [rC|] eqn:EC; [|discriminate].
    injection H as <- ->. unfold spec_format_C in EC.
    destruct (matches NUM_RE (last (t0 :: ts) []) && (2 <=? List.length (t0 :: ts)))
      eqn:Ec; [|discriminate].
    apply andb_true_iff in Ec. destruct Ec as [_ Hlen]. apply Nat.leb_le in Hlen.
    injection EC as <- <-. subst k.
    split; [discriminate|]. split; [lia|]. split.
    - f_equal. rewrite removelast_firstn_len. f_equal. lia.
    - apply last_nth_error. discriminate. }
  destruct Hmain as (H1 & H2 & H3 & H4).
  repeat split; try assumption; try lia;
    apply nth_error_In in H4; now apply split_ws_tokens in H4.
Qed.

Lemma row_is_leading_tokens_and_next_witness :
  let ln := py "  Jul 29 2025   12.5" in
  parse_line ln = Ok (Some (FormatC, (py "Jul 29 2025", py "12.5")))
  /\ py "Jul 29 2025" = join (py " ") (firstn 3 (split_ws ln))
  /\ nth_error (split_ws ln) 3 = Some (py "12.5").
Proof.
  cbv zeta.
  assert (H : parse_line (py "  Jul 29 2025   12.5")
              = Ok (Some (FormatC, (py "Jul 29 2025", py "12.5"))))
    by (vm_compute; reflexivity).
  split; [exact H|].
  destruct (row_is_leading_tokens_and_next _ H) as (_ & _ & Hdt & Hcnt & _).
  split; [exact Hdt|exact Hcnt].
Defined.

(** X3.  A line of fewer than two tokens gives no row, whatever the token
    is: a number alone, or a date and time written with a [T], is passed
    over. *)
Theorem short_line_gives_no_row (ln : str) :
  List.length (split_ws ln) < 2 -> parse_line ln = Ok None.
Proof.
  intros Hlen. rewrite parse_line_by_tokens.
  destruct (split_ws ln) as [|t [|t1 ts]]; [reflexivity| |simpl in Hlen; lia].
  destruct (startswith t (py "#")); [reflexivity|].
  unfold first_match, chain. rewrite rowD_none.
  unfold spec_format_C. cbn [List.length Nat.leb]. rewrite andb_false_r.
  reflexivity.
Qed.

Lemma short_line_gives_no_row_witness :
  List.length (split_ws (py "2025-07-29T00:05:00")) < 2
  /\ parse_line (py "2025-07-29T00:05:00") = Ok None
  /\ parse_line (py " 12345.6 ") = Ok None.
Proof.
  split; [vm_compute; lia|].
  split; apply short_line_gives_no_row; vm_compute; lia.
Defined.

(** X4.  A line of two or more tokens that is not a comment and whose last
    token is a number always gives a row. *)
Theorem numeric_last_token_gives_row (ln t : str) (ts : list str) :
  split_ws ln = t :: ts ->
  ts <> [] ->
  startswith t (py "#") = false ->
  matches NUM_RE (last (t :: ts) []) = true ->
  exists r, parse_line ln = Ok (Some r).
Proof.
  intros Ht Hts Hc Hn. rewrite parse_line_by_tokens, Ht, Hc.
  unfold first_match, chain.
  destruct (spec_format_A (t :: ts)); [now eexists|].
  destruct (spec_format_B (t :: ts)); [now eexists|].
  unfold spec_format_C. rewrite Hn.
  destruct ts as [|t1 ts]; [congruence|]. cbn [List.length Nat.leb andb].
  now eexists.
Qed.

Lemma numeric_last_token_gives_row_witness :
  split_ws (py "OULU 2025/07/29 -1.5e3") = [py "OULU"; py "2025/07/29"; py "-1.5e3"]
  /\ exists r, parse_line (py "OULU 2025/07/29 -1.5e3") = Ok (Some r).
Proof.
  split; [reflexivity|].
  apply (@numeric_last_token_gives_row
           (py "OULU 2025/07/29 -1.5e3") (py "OULU") [py "2025/07/29"; py "-1.5e3"]);
    [reflexivity|discriminate|reflexivity|reflexivity].
Defined.

(** ** Texts put one after the other *)

Lemma splitlines_from_join (n : nat) :
  forall (a b cur : str),
    List.length a <= n ->
    exists gap,
      (gap = [] \/ gap = [[]])
      /\ splitlines_from cur (a ++ 0x0a%N :: b)
         = splitlines_from cur a ++ gap ++ splitlines_from [] b.
Proof.
  induction n as [|n IH]; intros a b cur Hlen.
  - destruct a; [|simpl in Hlen; lia]. simpl.
    change (is_linebreak 10%N) with true. cbn iota.
    destruct cur as [|c0 cur].
    + exists [[]]. split; [now right|]. destruct b; reflexivity.
    + exists []. split; [now left|]. destruct b; reflexivity.
  - destruct a as [|c a].
    + apply (IH [] b cur). simpl. lia.
    + simpl in Hlen. cbn [app splitlines_from].
      destruct (is_linebreak c) eqn:Ec.
      * destruct a as [|c' a].
        -- cbn [app].
           destruct ((c =? 13)%N && (10 =? 10)%N)%N eqn:Ecr.
           ++ exists []. split; [now left|]. reflexivity.
           ++ exists [[]]. split; [now right|].
              cbn [splitlines_from]. change (is_linebreak 10%N) with true. cbn iota.
              destruct b; reflexivity.
        -- cbn [app].
           destruct ((c =? 13)%N && (c' =? 10)%N).
           ++ destruct (IH a b [] ltac:(simpl in Hlen; lia)) as [gap [Hg E]].
              exists gap. split; [exact Hg|]. rewrite E. reflexivity.
           ++ destruct (IH (c' :: a) b [] ltac:(simpl in *; lia)) as [gap [Hg E]].
              exists gap. split; [exact Hg|]. cbn [app] in E. rewrite E. reflexivity.
      * destruct (IH a b (c :: cur) ltac:(lia)) as [gap [Hg E]].
        exists gap. split; [exact Hg|]. exact E.
Qed.

Lemma parse_lines_app (l1 l2 : list str) (r1 r2 : list raw_row) :
  parse_lines l1 = Ok r1 -> parse_lines l2 = Ok r2 ->
  parse_lines (l1 ++ l2) = Ok (r1 ++ r2).
Proof.
  unfold parse_lines. revert r1. induction l1 as [|a l1 IH]; intros r1 H1 H2; simpl in *.
  - injection H1 as <-. exact H2.
  - destruct (parse_line a) as [x|e]; simpl in *; [|discriminate].
    destruct (mapM parse_line l1) as [xs|e] eqn:E1; simpl in *; [|discriminate].
    injection H1 as <-.
    specialize (IH (flat_map appended xs) eq_refl H2).
    destruct (mapM parse_line (l1 ++ l2)) as [ys|e]; simpl in *; [|discriminate].
    injection IH as IH. now rewrite IH, app_assoc.
Qed.

(** X5.  Rows come in the order of the lines, and texts compose: the rows of
    two texts joined by a line feed are the rows of the first followed by
    the rows of the second. *)
Theorem raw_rows_of_joined_texts (a b : str) :
  exists ra rb,
    raw_rows a = Ok ra /\ raw_rows b = Ok rb
    /\ raw_rows (a ++ 0x0a%N :: b) = Ok (ra ++ rb).
Proof.
  destruct (parse_lines_total (splitlines a)) as [ra Ha].
  destruct (parse_lines_total (splitlines b)) as [rb Hb].
  exists ra, rb. split; [exact Ha|]. split; [exact Hb|].
  unfold raw_rows, splitlines.
  destruct (@splitlines_from_join (List.length a) a b [] (le_n _)) as [gap [Hg E]].
  rewrite E. apply parse_lines_app; [exact Ha|].
  destruct Hg as [-> | ->]; [exact Hb|].
  cbn [app]. unfold parse_lines in *. cbn [mapM].
  change (parse_line []) with (@Ok (option (format * raw_row)) None). cbn [bind].
  unfold splitlines in Hb.
  destruct (mapM parse_line (splitlines_from [] b)) as [xs|e]; simpl in *;
    [exact Hb|discriminate].
Qed.

(** X6.  The count of a row of format B or C is a number in the sense of
    [NUM_RE], made of digits, signs, points and exponent letters only.
    (Format A takes its third token as it is.) *)
Theorem checked_counts_are_numerals (ln : str) (f : format) (dt cnt : str) :
  parse_line ln = Ok (Some (f, (dt, cnt))) ->
  f <> FormatA ->
  matches NUM_RE cnt = true /\ forallb num_char cnt = true.
Proof.
  intros H Hf.
  assert (Hm : matches NUM_RE cnt = true /\ In cnt (split_ws ln)).
  { rewrite parse_line_by_tokens in H.
    destruct (split_ws ln) as [|t0 ts] eqn:Et; [discriminate|].
    destruct (startswith t0 (py "#")); [discriminate|].
    injection H as H. unfold first_match, chain in H.
    rewrite rowD_none in H.
    destruct (spec_format_A (t0 :: ts)) as [rA|];
      [injection H as Hfa _; congruence|].
    destruct (spec_format_B (t0 :: ts)) as [rB|] eqn:EB.
    { injection H as _ Hrow. subst rB. unfold spec_format_B in EB.
      destruct ts as [|t1 rest]; try discriminate.
      destruct (matches DATE_RE t0); simpl in EB; [|discriminate].
      destruct (matches NUM_RE t1) eqn:E1; [|discriminate].
      injection EB as _ <-. split; [exact E1|]. simpl. tauto. }
    destruct (spec_format_C (t0 :: ts)) as [rC|] eqn:EC; [|discriminate].
    injection H as _ Hrow. subst rC. unfold spec_format_C in EC.
    destruct (matches NUM_RE (last (t0 :: ts) [])) eqn:E1; cbn [andb] in EC;
      [|discriminate].
    destruct (2 <=? List.length (t0 :: ts)); [|discriminate].
    injection EC as _ <-. split; [exact E1|].
    apply nth_error_In with (n := List.length (t0 :: ts) - 1).
    apply last_nth_error. discriminate. }
  destruct Hm as [Hm Hin]. split; [exact Hm|].
  apply split_ws_tokens in Hin. destruct Hin as [_ Hink].
  unfold matches, re_match in Hm.
  destruct (run NUM_RE true cnt) as [m|] eqn:Hr; [|discriminate].
  apply NUM_RE_run_shape in Hr. destruct Hr as [_ [pre [tail [E [Hp He]]]]].
  destruct (at_end_cases _ He) as [-> | ->].
  - rewrite app_nil_r in E. now subst.
  - subst cnt. rewrite forallb_app in Hink. apply andb_true_iff in Hink.
    destruct Hink as [_ Hink]. vm_compute in Hink. discriminate.
Qed.

Lemma checked_counts_are_numerals_witness :
  parse_line (py "2025-07-29   99.9")
  = Ok (Some (FormatB, (py "2025-07-29", py "99.9")))
  /\ FormatB <> FormatA
  /\ forallb num_char (py "99.9") = true.
Proof.
  assert (H : parse_line (py "2025-07-29   99.9")
              = Ok (Some (FormatB, (py "2025-07-29", py "99.9"))))
    by (vm_compute; reflexivity).
  split; [exact H|]. split; [discriminate|].
  exact (proj2 (checked_counts_are_numerals _ H ltac:(discriminate))).
Defined.

(* ================================================================== *)
(** * Further properties of the validation *)
(* ================================================================== *)

Lemma DATE_RE_accepts_tail (y1 y2 y3 y4 m1 m2 d1 d2 : char) (tail : str) :
  forallb isdecimal [y1; y2; y3; y4; m1; m2; d1; d2] = true ->
  at_end tail = true ->
  matches DATE_RE ([y1; y2; y3; y4; ch "-"; m1; m2; ch "-"; d1; d2] ++ tail) = true.
Proof.
  intros H He. simpl in H.
  repeat (apply andb_true_iff in H; destruct H as [?H H]).
  unfold matches, re_match, run. simpl.
  repeat match goal with
         | E : isdecimal ?c = true |- context [isdecimal ?c] => rewrite E
         end.
  simpl. rewrite He. reflexivity.
Qed.

Lemma TIME_RE_accepts_tail (h1 h2 n1 n2 : char) (tail : str) :
  forallb isdecimal [h1; h2; n1; n2] = true ->
  at_end tail = true ->
  matches TIME_RE ([h1; h2; ch ":"; n1; n2] ++ tail) = true.
Proof.
  intros H He. simpl in H.
  repeat (apply andb_true_iff in H; destruct H as [?H H]).
  unfold matches, re_match, run. simpl.
  repeat match goal with
         | E : isdecimal ?c = true |- context [isdecimal ?c] => rewrite E
         end.
  simpl. rewrite He. reflexivity.
Qed.

(** X7.  What the validation accepts, exactly: a date is four digits, a
    dash, two digits, a dash and two digits, a time is two digits, a colon
    and two digits, and either may be followed by one line feed ([$]
    matches before a final line feed).  Nothing else passes. *)
Theorem validation_accepts_exactly (s : str) :
  (matches DATE_RE s = true
   <-> exists y1 y2 y3 y4 m1 m2 d1 d2 tail,
        s = [y1; y2; y3; y4; ch "-"; m1; m2; ch "-"; d1; d2] ++ tail
        /\ forallb isdecimal [y1; y2; y3; y4; m1; m2; d1; d2] = true
        /\ (tail = [] \/ tail = [0x0a%N]))
  /\ (matches TIME_RE s = true
      <-> exists h1 h2 n1 n2 tail,
           s = [h1; h2; ch ":"; n1; n2] ++ tail
           /\ forallb isdecimal [h1; h2; n1; n2] = true
           /\ (tail = [] \/ tail = [0x0a%N])).
Proof.
  split; split.
  - intros H. apply DATE_RE_shape in H.
    destruct H as (y1 & y2 & y3 & y4 & m1 & m2 & d1 & d2 & tail & E & Hd & He).
    exists y1, y2, y3, y4, m1, m2, d1, d2, tail.
    split; [exact E|]. split; [exact Hd|]. now apply at_end_cases.
  - intros (y1 & y2 & y3 & y4 & m1 & m2 & d1 & d2 & tail & -> & Hd & Ht).
    apply DATE_RE_accepts_tail; [exact Hd|]. destruct Ht as [-> | ->]; reflexivity.
  - intros H. apply TIME_RE_shape in H.
    destruct H as (h1 & h2 & n1 & n2 & tail & E & Hd & He).
    exists h1, h2, n1, n2, tail.
    split; [exact E|]. split; [exact Hd|]. now apply at_end_cases.
  - intros (h1 & h2 & n1 & n2 & tail & -> & Hd & Ht).
    apply TIME_RE_accepts_tail; [exact Hd|]. destruct Ht as [-> | ->]; reflexivity.
Qed.

(* ================================================================== *)
(** * Further properties of the URL builder *)
(* ================================================================== *)

Lemma rewritten_query_ok (q sd st ed et out : str) :
  rewritten_query q sd st ed et = Ok out ->
  exists s e,
    _date_time_to_query_parts sd st = Ok s
    /\ _date_time_to_query_parts ed et = Ok e
    /\ urlencode (assign_all (window_entries s e) (parse_qs q)) = Ok out.
Proof.
  unfold rewritten_query.
  destruct (_date_time_to_query_parts sd st) as [s|x]; cbn [bind]; [|discriminate].
  destruct (_date_time_to_query_parts ed et) as [e|x]; cbn [bind]; [|discriminate].
  intros H. now exists s, e.
Qed.

Lemma window_entry_field (q : str) (s e : query_parts) (out k v : str) :
  urlencode (assign_all (window_entries s e) (parse_qs q)) = Ok out ->
  In (k, [v]) (window_entries s e) ->
  forallb always_safe v = true ->
  In (k ++ ch "=" :: v) (split_on (ch "&") out).
Proof.
  intros Hout Hin Hv.
  assert (Hk : forallb always_safe k = true).
  { simpl in Hin.
    repeat (destruct Hin as [E|Hin]; [injection E as <- _; reflexivity|]).
    destruct Hin. }
  assert (Hg : dict_get k (assign_all (window_entries s e) (parse_qs q)) = Some [v]).
  { apply assign_all_get_in; [|exact Hin].
    rewrite window_entries_keys. exact window_keys_NoDup. }
  apply dict_get_In in Hg. destruct Hg as [k' [Hk' Hkv]].
  apply str_eqb_eq in Hk'. subst k'.
  eapply urlencode_field;
    [exact Hout | exact Hkv | now left
     | now apply quote_plus_plain | now apply quote_plus_plain].
Qed.

(** X8.  Whenever the builder gives a query, the query is not empty and
    has the field [output=ascii]: the output mode of the base URL never
    survives.  Each of the ten date and time values whose characters are
    always-safe (ASCII digits are) stands in the query as the field
    [key=value]. *)
Theorem new_query_has_ascii_output (q sd st ed et out : str) :
  rewritten_query q sd st ed et = Ok out ->
  out <> []
  /\ In (py "output=ascii") (split_on (ch "&") out)
  /\ exists s e,
      _date_time_to_query_parts sd st = Ok s
      /\ _date_time_to_query_parts ed et = Ok e
      /\ forall k v,
          In (k, [v]) (window_entries s e) ->
          forallb always_safe v = true ->
          In (k ++ ch "=" :: v) (split_on (ch "&") out).
Proof.
  intros H. destruct (@rewritten_query_ok _ _ _ _ _ _ H) as (s & e & Hs & He & Hout).
  assert (Hascii : In (py "output=ascii") (split_on (ch "&") out)).
  { apply (@window_entry_field q s e out (py "output") (py "ascii") Hout);
      [simpl; tauto|reflexivity]. }
  split.
  - intros ->. simpl in Hascii. destruct Hascii as [E|[]]. discriminate E.
  - split; [exact Hascii|]. exists s, e. split; [exact Hs|]. split; [exact He|].
    intros k v. now apply (@window_entry_field q s e out k v Hout).
Qed.

Lemma new_query_has_ascii_output_witness :
  exists out,
    rewritten_query (py "output=plot&x=1") (py "2024-07-29") (py "00:00")
                    (py "2025-08-29") (py "23:59") = Ok out
    /\ In (py "output=ascii") (split_on (ch "&") out)
    /\ ~ In (py "output=plot") (split_on (ch "&") out).
Proof.
  destruct (rewritten_query (py "output=plot&x=1") (py "2024-07-29") (py "00:00")
                            (py "2025-08-29") (py "23:59")) as [out|e] eqn:E;
    [|vm_compute in E; discriminate E].
  exists out. split; [reflexivity|].
  split; [exact (proj1 (proj2 (@new_query_has_ascii_output _ _ _ _ _ _ E)))|].
  vm_compute in E. injection E as <-. vm_compute.
  intros X. repeat (destruct X as [X|X]; [discriminate X|]). exact X.
Defined.

(** ** The keys of the dict *)

Lemma has_key_cons (k k' : str) (v : list str) (dc : dict) :
  has_key k ((k', v) :: dc) = str_eqb k k' || has_key k dc.
Proof. reflexivity. Qed.

Lemma str_eqb_sym (a b : str) : str_eqb a b = str_eqb b a.
Proof.
  destruct (str_eqb a b) eqn:E; symmetry.
  - apply str_eqb_eq in E. subst. apply str_eqb_refl.
  - apply str_eqb_neq. apply str_eqb_neq in E. congruence.
Qed.

Lemma dict_set_keys (k : str) (v : list str) (dc : dict) :
  map fst (dict_set k v dc)
  = if has_key k dc then map fst dc else map fst dc ++ [k].
Proof.
  induction dc as [|[k' v'] dc IH]; simpl; [reflexivity|].
  rewrite has_key_cons, (str_eqb_sym k k').
  destruct (str_eqb k' k); simpl; [reflexivity|].
  rewrite IH. destruct (has_key k dc); reflexivity.
Qed.

Lemma dict_append_keys (k x : str) (dc : dict) :
  map fst (dict_append k x dc)
  = if has_key k dc then map fst dc else map fst dc ++ [k].
Proof.
  induction dc as [|[k' v'] dc IH]; simpl; [reflexivity|].
  rewrite has_key_cons, (str_eqb_sym k k').
  destruct (str_eqb k' k); simpl; [reflexivity|].
  rewrite IH. destruct (has_key k dc); reflexivity.
Qed.

Lemma has_key_In (k : str) (dc : dict) : has_key k dc = true <-> In k (map fst dc).
Proof.
  unfold has_key. rewrite existsb_exists. split.
  - intros [x [Hin E]]. apply str_eqb_eq in E. now subst.
  - intros Hin. exists k. split; [exact Hin|apply str_eqb_refl].
Qed.

Lemma NoDup_append {A} (l1 l2 : list A) :
  NoDup l1 -> NoDup l2 -> (forall x, In x l1 -> ~ In x l2) -> NoDup (l1 ++ l2).
Proof.
  induction l1 as [|a l1 IH]; intros H1 H2 Hd; simpl; [exact H2|].
  inversion H1 as [|? ? Ha H1']; subst. constructor.
  - intros Hin. apply in_app_or in Hin. destruct Hin as [Hin|Hin]; [tauto|].
    apply (Hd a); [now left|exact Hin].
  - apply IH; [exact H1'|exact H2|]. intros x Hx. apply Hd. now right.
Qed.

Lemma NoDup_snoc {A} (l : list A) (a : A) : NoDup l -> ~ In a l -> NoDup (l ++ [a]).
Proof.
  intros Hl Ha. apply NoDup_append; [exact Hl|repeat constructor; tauto|].
  intros x Hx [<-|[]]. tauto.
Qed.

Lemma keys_step_NoDup (k : str) (dc : dict) :
  NoDup (map fst dc) ->
  NoDup (if has_key k dc then map fst dc else map fst dc ++ [k]).
Proof.
  intros H. destruct (has_key k dc) eqn:E; [exact H|].
  apply NoDup_snoc; [exact H|]. intros Hin. apply has_key_In in Hin. congruence.
Qed.

Lemma parse_qs_keys_NoDup (q : str) : NoDup (map fst (parse_qs q)).
Proof.
  unfold parse_qs.
  assert (H : forall pairs dc, NoDup (map fst dc) ->
                NoDup (map fst (fold_left (fun d nv => dict_append (fst nv) (snd nv) d)
                                          pairs dc))).
  { induction pairs as [|[k x] pairs IH]; intros dc Hd; simpl; [exact Hd|].
    apply IH. rewrite dict_append_keys. now apply keys_step_NoDup. }
  apply H. constructor.
Qed.

Lemma assign_all_keys (entries : list (str * list str)) (dc : dict) :
  NoDup (map fst entries) ->
  map fst (assign_all entries dc)
  = map fst dc ++ filter (fun k => negb (has_key k dc)) (map fst entries).
Proof.
  unfold assign_all. revert dc.
  induction entries as [|[k v] entries IH]; intros dc Hnd; simpl.
  - now rewrite app_nil_r.
  - inversion Hnd as [|? ? Hk Hnd']; subst.
    rewrite IH by exact Hnd'. rewrite dict_set_keys.
    assert (Hf : forall dc',
               map fst dc' = (if has_key k dc then map fst dc else map fst dc ++ [k]) ->
               filter (fun k0 => negb (has_key k0 dc')) (map fst entries)
               = filter (fun k0 => negb (has_key k0 dc)) (map fst entries)).
    { intros dc' E. apply filter_ext_in. intros x Hx. f_equal.
      unfold has_key at 1. rewrite E. fold (has_key x dc).
      destruct (has_key k dc); [reflexivity|].
      rewrite existsb_app. simpl. rewrite orb_false_r.
      unfold has_key.
      destruct (str_eqb x k) eqn:Exk; [|now rewrite orb_false_r].
      apply str_eqb_eq in Exk. subst x. contradiction. }
    rewrite (Hf (dict_set k v dc) (dict_set_keys k v dc)).
    destruct (has_key k dc) eqn:E; simpl; [reflexivity|].
    now rewrite <- app_assoc.
Qed.

(** X9.  In the dict the builder encodes no key stands twice, whatever the
    base query repeats; the keys of the base query keep their places, and
    those of the eleven that the base query lacks follow them in the order
    of the assignments. *)
Theorem assignments_keep_key_order (q : str) (s e : query_parts) :
  let old := parse_qs q in
  let new := assign_all (window_entries s e) old in
  NoDup (map fst new)
  /\ map fst new
     = map fst old ++ filter (fun k => negb (has_key k old)) window_keys
  /\ List.length new <= List.length old + 11.
Proof.
  intros old new.
  assert (E : map fst new
              = map fst old ++ filter (fun k => negb (has_key k old)) window_keys).
  { unfold new. rewrite assign_all_keys.
    - now rewrite window_entries_keys.
    - rewrite window_entries_keys. exact window_keys_NoDup. }
  split; [|split; [exact E|]].
  - rewrite E. apply NoDup_append.
    + apply parse_qs_keys_NoDup.
    + apply NoDup_filter. exact window_keys_NoDup.
    + intros x Hx Hf. apply filter_In in Hf. destruct Hf as [_ Hf].
      apply has_key_In in Hx. rewrite Hx in Hf. discriminate.
  - rewrite <- (length_map fst new), E, length_app, length_map.
    pose proof (filter_length_le (fun k => negb (has_key k old)) window_keys) as Hl.
    change (List.length window_keys) with 11 in Hl. lia.
Qed.

Lemma rewritten_query_nonempty (q sd st ed et out : str) :
  rewritten_query q sd st ed et = Ok out -> out <> [].
Proof.
  intros H. destruct (@rewritten_query_ok _ _ _ _ _ _ H) as (s & e & _ & _ & Hout).
  assert (Hascii : In (py "output=ascii") (split_on (ch "&") out)).
  { apply (@window_entry_field q s e out (py "output") (py "ascii") Hout);
      [simpl; tauto|reflexivity]. }
  intros ->. simpl in Hascii. destruct Hascii as [E|[]]. discriminate E.
Qed.

(** X10.  The builder changes the query and nothing else.  For a base URL
    with a scheme and a host, and a path that is absolute (or lacking, with
    no parameters), the result is the scheme, the host, the path, the
    parameters and the fragment of the base around the new query, which is
    always there. *)
Theorem built_url_keeps_other_components
        (urlparse : str -> res ParseResult) (base sd st ed et url : str)
        (p : ParseResult) :
  urlparse base = Ok p ->
  _build_ascii_url urlparse base sd st ed et = Ok url ->
  scheme p <> [] ->
  netloc p <> [] ->
  startswith (path p) (py "/") = true \/ (path p = [] /\ params p = []) ->
  exists new_q,
    rewritten_query (query p) sd st ed et = Ok new_q
    /\ url = scheme p ++ py "://" ++ netloc p ++ path p
             ++ (if is_empty (params p) then [] else py ";" ++ params p)
             ++ py "?" ++ new_q
             ++ (if is_empty (fragment p) then [] else py "#" ++ fragment p).
Proof.
  intros Hu Hb Hs Hn Hp. unfold _build_ascii_url in Hb. rewrite Hu in Hb. cbn [bind] in Hb.
  destruct (rewritten_query (query p) sd st ed et) as [new_q|x] eqn:Hq;
    cbn [bind] in Hb; [|discriminate].
  exists new_q. split; [reflexivity|]. injection Hb as <-.
  pose proof (rewritten_query_nonempty _ _ _ _ _ Hq) as Hne.
  unfold urlunparse, urlunsplit.
  apply is_empty_false in Hs, Hn, Hne. rewrite Hs, Hn, Hne. cbn [negb orb].
  destruct Hp as [Hp|[Hp Hpar]].
  - destruct (path p) as [|c r] eqn:Epath; [discriminate|].
    cbn [startswith] in Hp. apply andb_true_iff in Hp. destruct Hp as [Hc _].
    apply N.eqb_eq in Hc. subst c.
    change (py "/") with [ch "/"].
    destruct (is_empty (params p)); cbn [negb];
      destruct (is_empty (fragment p)); cbn [negb app is_empty firstn andb];
      rewrite str_eqb_refl; cbn [negb];
      rewrite ?app_nil_r;
      repeat first [rewrite <- app_assoc | rewrite <- app_comm_cons]; reflexivity.
  - rewrite Hp, Hpar. cbn [is_empty negb app firstn andb].
    destruct (is_empty (fragment p)); cbn [negb app];
      rewrite ?app_nil_r; repeat rewrite <- app_assoc; reflexivity.
Qed.

Lemma built_url_keeps_other_components_witness :
  exists p new_q,
    Demo.urlparse (py "https://h.example/api/x?output=plot&k=v#top") = Ok p
    /\ scheme p <> [] /\ netloc p <> []
    /\ startswith (path p) (py "/") = true
    /\ rewritten_query (query p) (py "2024-07-29") (py "00:00")
                       (py "2025-08-29") (py "23:59") = Ok new_q
    /\ _build_ascii_url Demo.urlparse (py "https://h.example/api/x?output=plot&k=v#top")
         (py "2024-07-29") (py "00:00") (py "2025-08-29") (py "23:59")
       = Ok (py "https://h.example/api/x?" ++ new_q ++ py "#top").
Proof.
  destruct (Demo.urlparse (py "https://h.example/api/x?output=plot&k=v#top"))
    as [p|x] eqn:Ep; [|vm_compute in Ep; discriminate Ep].
  destruct (_build_ascii_url Demo.urlparse
              (py "https://h.example/api/x?output=plot&k=v#top")
              (py "2024-07-29") (py "00:00") (py "2025-08-29") (py "23:59"))
    as [url|x] eqn:Eb; [|vm_compute in Eb; discriminate Eb].
  assert (Hp : p = mkParseResult (py "https") (py "h.example") (py "/api/x") []
                                 (py "output=plot&k=v") (py "top"))
    by (vm_compute in Ep; now injection Ep as <-).
  assert (H1 : scheme p <> []) by (subst p; discriminate).
  assert (H2 : netloc p <> []) by (subst p; discriminate).
  assert (H3 : startswith (path p) (py "/") = true) by (subst p; reflexivity).
  destruct (@built_url_keeps_other_components
              Demo.urlparse _ _ _ _ _ url p Ep Eb H1 H2 (or_introl H3))
    as [new_q [Hq Hurl]].
  exists p, new_q. repeat split; try assumption.
  rewrite Hurl. subst p. reflexivity.
Defined.

(** ** Code points that can be encoded *)

(** Boolean tests among the hypotheses, as propositions. *)
Ltac to_prop :=
  repeat match goal with
         | H : (_ <? _)%N = true |- _ => apply N.ltb_lt in H
         | H : (_ <? _)%N = false |- _ => apply N.ltb_ge in H
         | H : (_ <=? _)%N = true |- _ => apply N.leb_le in H
         | H : (_ <=? _)%N = false |- _ => apply N.leb_gt in H
         | H : (_ =? _)%N = true |- _ => apply N.eqb_eq in H
         | H : (_ =? _)%N = false |- _ => apply N.eqb_neq in H
         | H : _ && _ = true |- _ => apply andb_true_iff in H; destruct H
         | H : _ || _ = false |- _ => apply orb_false_iff in H; destruct H
         | H : negb _ = false |- _ => apply negb_false_iff in H
         | H : negb _ = true |- _ => apply negb_true_iff in H
         | H : _ && _ = false |- _ => apply andb_false_iff in H; destruct H
         | H : _ || _ = true |- _ => apply orb_true_iff in H; destruct H
         | H : (if ?c then _ else _) = _ |- _ => destruct c eqn:?
         end.

Lemma encodable_char_spec (c : char) :
  encodable_char c = true <-> (c < 0xD800 \/ (0xE000 <= c /\ c < 0x110000))%N.
Proof.
  unfold encodable_char.
  rewrite orb_true_iff, andb_true_iff, N.ltb_lt, N.leb_le, N.ltb_lt. tauto.
Qed.

Lemma utf8_encode_char_encodable (c : char) :
  encodable_char c = true <-> exists b, utf8_encode_char c = Some b.
Proof.
  rewrite encodable_char_spec. unfold utf8_encode_char. split.
  - intros H.
    destruct (c <? 128)%N eqn:E1; [now eexists|].
    destruct (c <? 2048)%N eqn:E2; [now eexists|].
    destruct ((55296 <=? c) && (c <? 57344))%N eqn:E3; [to_prop; lia|].
    destruct (c <? 65536)%N eqn:E4; [now eexists|].
    destruct (c <? 1114112)%N eqn:E5; [now eexists|].
    to_prop; lia.
  - intros [b H].
    destruct (c <? 128)%N eqn:E1; [to_prop; lia|].
    destruct (c <? 2048)%N eqn:E2; [to_prop; lia|].
    destruct ((55296 <=? c) && (c <? 57344))%N eqn:E3; [discriminate|].
    destruct (c <? 65536)%N eqn:E4; [to_prop; lia|].
    destruct (c <? 1114112)%N eqn:E5; [to_prop; lia|discriminate].
Qed.

Lemma utf8_encode_encodable (s : str) :
  encodable s = true <-> exists bs, utf8_encode s = Some bs.
Proof.
  unfold encodable. induction s as [|c s IH]; simpl.
  - split; [now eexists|reflexivity].
  - rewrite andb_true_iff, IH, utf8_encode_char_encodable. split.
    + intros [[b Hb] [bs Hbs]]. rewrite Hb, Hbs. now eexists.
    + intros [bs H].
      destruct (utf8_encode_char c) as [b|]; [|discriminate].
      destruct (utf8_encode s) as [bs'|]; [|discriminate].
      split; now eexists.
Qed.

(** [quote_plus] raises exactly on text that cannot be encoded. *)
Lemma quote_plus_encodable (s : str) :
  encodable s = true <-> exists q, quote_plus s = Ok q.
Proof.
  rewrite utf8_encode_encodable. unfold quote_plus, quote.
  destruct s as [|c s].
  - simpl. split; now eexists.
  - cbn [is_empty].
    destruct (utf8_encode (c :: s)) as [bs|];
      destruct (negb (contains (ch " ") (c :: s))); cbn [bind];
      split; intros [x H]; try discriminate; now eexists.
Qed.

(** Whatever the bytes, what the decoder gives can be encoded. *)
Lemma utf8_decode_encodable (n : nat) :
  forall bs, List.length bs <= n -> encodable (utf8_decode_replace bs) = true.
Proof.
  unfold encodable.
  induction n as [|n IH]; intros bs Hlen.
  - destruct bs; [reflexivity|simpl in Hlen; lia].
  - destruct bs as [|b0 r0]; [reflexivity|]. simpl in Hlen.
    assert (Hrep : encodable_char REPLACEMENT = true) by reflexivity.
    assert (Htail : forall r, List.length r <= n ->
                      forallb encodable_char (utf8_decode_replace r) = true)
      by exact IH.
    cbn [utf8_decode_replace].
    destruct (b0 <? 128)%N eqn:E1.
    { cbn [forallb]. rewrite Htail by lia. rewrite andb_true_r.
      apply encodable_char_spec. to_prop. lia. }
    destruct (b0 <? 194)%N eqn:E2.
    { cbn [forallb]. now rewrite Hrep, Htail by lia. }
    destruct (b0 <? 224)%N eqn:E3.
    { destruct r0 as [|b1 r1]; [reflexivity|]. simpl in Hlen.
      destruct (is_cont b1) eqn:C1; cbn [forallb].
      - rewrite Htail by lia. rewrite andb_true_r.
        apply encodable_char_spec. unfold is_cont in C1. to_prop. lia.
      - rewrite Hrep, Htail by (simpl; lia). reflexivity. }
    destruct (b0 <? 240)%N eqn:E4.
    { destruct r0 as [|b1 r1]; [reflexivity|]. simpl in Hlen.
      destruct (negb (is_cont b1)
                || (if (b1 <? 160)%N then (b0 =? 224)%N else (b0 =? 237)%N)) eqn:C1.
      - cbn [forallb]. rewrite Hrep, Htail by (simpl; lia). reflexivity.
      - destruct r1 as [|b2 r2]; [reflexivity|]. simpl in Hlen.
        destruct (is_cont b2) eqn:C2; cbn [forallb].
        + rewrite Htail by lia. rewrite andb_true_r.
          apply encodable_char_spec. unfold is_cont in *. to_prop; lia.
        + rewrite Hrep, Htail by (simpl; lia). reflexivity. }
    destruct (b0 <? 245)%N eqn:E5.
    { destruct r0 as [|b1 r1]; [reflexivity|]. simpl in Hlen.
      destruct (negb (is_cont b1)
                || (if (b1 <? 144)%N then (b0 =? 240)%N else (b0 =? 244)%N)) eqn:C1.
      - cbn [forallb]. rewrite Hrep, Htail by (simpl; lia). reflexivity.
      - destruct r1 as [|b2 r2]; [reflexivity|]. simpl in Hlen.
        destruct (is_cont b2) eqn:C2.
        + destruct r2 as [|b3 r3]; [reflexivity|]. simpl in Hlen.
          destruct (is_cont b3) eqn:C3; cbn [forallb].
          * rewrite Htail by lia. rewrite andb_true_r.
            apply encodable_char_spec. unfold is_cont in *. to_prop; lia.
          * rewrite Hrep, Htail by (simpl; lia). reflexivity.
        + cbn [forallb]. rewrite Hrep, Htail by (simpl; lia). reflexivity. }
    cbn [forallb]. now rewrite Hrep, Htail by lia.
Qed.

Lemma utf8_decode_always_encodable (bs : bytes) :
  encodable (utf8_decode_replace bs) = true.
Proof. exact (@utf8_decode_encodable (List.length bs) bs (le_n _)). Qed.

Lemma encodable_app (a b : str) : encodable (a ++ b) = encodable a && encodable b.
Proof. apply forallb_app. Qed.

Lemma unquote_runs_encodable (cur s : str) :
  encodable s = true -> encodable (unquote_runs cur s) = true.
Proof.
  revert cur. induction s as [|c s IH]; intros cur Hs; simpl.
  - apply utf8_decode_always_encodable.
  - unfold encodable in Hs. simpl in Hs. apply andb_true_iff in Hs.
    destruct Hs as [Hc Hs].
    destruct (c <? 128)%N; [now apply IH|].
    rewrite encodable_app.
    rewrite utf8_decode_always_encodable.
    unfold encodable at 1. simpl. rewrite Hc. now apply IH.
Qed.

Lemma unquote_encodable (s : str) : encodable s = true -> encodable (unquote s) = true.
Proof.
  intros H. unfold unquote.
  destruct (negb (contains (ch "%") s)); [exact H|now apply unquote_runs_encodable].
Qed.

Lemma replace_char_encodable (a b : char) (s : str) :
  encodable_char b = true -> encodable s = true -> encodable (replace_char a b s) = true.
Proof.
  intros Hb Hs. unfold encodable, replace_char in *.
  rewrite forallb_forall in *. intros x Hx. apply in_map_iff in Hx.
  destruct Hx as [y [<- Hy]]. destruct (y =? a)%N; [exact Hb|now apply Hs].
Qed.

(** The pieces a text is cut into are made of its characters. *)
Lemma split_on_from_chars (sep : char) (cur s piece : str) (c : char) :
  In piece (split_on_from sep cur s) -> In c piece -> In c cur \/ In c s.
Proof.
  revert cur. induction s as [|a s IH]; intros cur Hp Hc; simpl in Hp.
  - destruct Hp as [<-|[]]. left. now apply in_rev.
  - destruct (a =? sep)%N.
    + destruct Hp as [<-|Hp].
      * left. now apply in_rev.
      * destruct (IH [] Hp Hc) as [[]|H]. right. now right.
    + destruct (IH (a :: cur) Hp Hc) as [[<-|H]|H]; [right; now left|now left|].
      right. now right.
Qed.

Lemma split_once_from_chars (sep : char) (cur s piece : str) (c : char) :
  In piece (split_once_from sep cur s) -> In c piece -> In c cur \/ In c s.
Proof.
  revert cur. induction s as [|a s IH]; intros cur Hp Hc; simpl in Hp.
  - destruct Hp as [<-|[]]. left. now apply in_rev.
  - destruct (a =? sep)%N.
    + destruct Hp as [<-|[<-|[]]].
      * left. now apply in_rev.
      * right. now right.
    + destruct (IH (a :: cur) Hp Hc) as [[<-|H]|H]; [right; now left|now left|].
      right. now right.
Qed.

Lemma split_on_encodable (sep : char) (s piece : str) :
  encodable s = true -> In piece (split_on sep s) -> encodable piece = true.
Proof.
  unfold encodable. rewrite !forallb_forall. intros Hs Hp c Hc.
  destruct (@split_on_from_chars _ _ _ _ _ Hp Hc) as [[]|H]. now apply Hs.
Qed.

Lemma split_once_encodable (sep : char) (s piece : str) :
  encodable s = true -> In piece (split_once sep s) -> encodable piece = true.
Proof.
  unfold encodable. rewrite !forallb_forall. intros Hs Hp c Hc.
  destruct (@split_once_from_chars _ _ _ _ _ Hp Hc) as [[]|H]. now apply Hs.
Qed.

Lemma parse_field_encodable (f k v : str) :
  encodable f = true -> In (k, v) (parse_field f) ->
  encodable k = true /\ encodable v = true.
Proof.
  intros Hf. unfold parse_field.
  destruct (is_empty f); [intros []|].
  destruct (split_once (ch "=") f) as [|n [|v0 [|x rest]]] eqn:E; try (intros []).
  destruct (is_empty v0); [intros []|].
  intros [H|[]]. injection H as <- <-.
  split; apply unquote_encodable, replace_char_encodable; try reflexivity;
    apply (@split_once_encodable (ch "=") f); try exact Hf; rewrite E; simpl; tauto.
Qed.

Lemma parse_qsl_encodable (q k v : str) :
  encodable q = true -> In (k, v) (parse_qsl q) ->
  encodable k = true /\ encodable v = true.
Proof.
  intros Hq. unfold parse_qsl. destruct (is_empty q); [intros []|].
  intros H. apply in_flat_map in H. destruct H as [f [Hf Hin]].
  apply (@parse_field_encodable f); [|exact Hin].
  now apply (@split_on_encodable (ch "&") q).
Qed.

Lemma dict_append_encodable (k x : str) (dc : dict) :
  encodable k = true -> encodable x = true ->
  dict_encodable dc -> dict_encodable (dict_append k x dc).
Proof.
  intros Hk Hx. unfold dict_encodable.
  induction dc as [|[k' v'] dc IH]; intros Hd; simpl.
  - repeat constructor; assumption.
  - inversion Hd as [|? ? [H1 H2] Hd']; subst. simpl in *.
    destruct (str_eqb k' k).
    + constructor; [|exact Hd']. split; [exact H1|]. simpl.
      apply Forall_app. split; [exact H2|]. now repeat constructor.
    + constructor; [now split|now apply IH].
Qed.

Lemma dict_set_encodable (k : str) (v : list str) (dc : dict) :
  encodable k = true -> Forall (fun x => encodable x = true) v ->
  dict_encodable dc -> dict_encodable (dict_set k v dc).
Proof.
  intros Hk Hv. unfold dict_encodable.
  induction dc as [|[k' v'] dc IH]; intros Hd; simpl.
  - repeat constructor; assumption.
  - inversion Hd as [|? ? [H1 H2] Hd']; subst. simpl in *.
    destruct (str_eqb k' k).
    + constructor; [|exact Hd']. now split.
    + constructor; [now split|now apply IH].
Qed.

Lemma parse_qs_encodable (q : str) : encodable q = true -> dict_encodable (parse_qs q).
Proof.
  intros Hq. unfold parse_qs.
  assert (H : forall pairs dc,
             (forall k v, In (k, v) pairs -> encodable k = true /\ encodable v = true) ->
             dict_encodable dc ->
             dict_encodable (fold_left (fun d nv => dict_append (fst nv) (snd nv) d)
                                       pairs dc)).
  { induction pairs as [|[k x] pairs IH]; intros dc Hp Hd; simpl; [exact Hd|].
    apply IH; [intros k' v' Hin; apply Hp; now right|].
    destruct (Hp k x (or_introl eq_refl)) as [Hk Hx].
    now apply dict_append_encodable. }
  apply H; [|constructor]. intros k v. now apply parse_qsl_encodable.
Qed.

Lemma assign_all_encodable (entries : list (str * list str)) (dc : dict) :
  dict_encodable entries -> dict_encodable dc ->
  dict_encodable (assign_all entries dc).
Proof.
  unfold assign_all. revert dc.
  induction entries as [|[k v] entries IH]; intros dc He Hd; simpl; [exact Hd|].
  inversion He as [|? ? [H1 H2] He']; subst. simpl in *.
  apply IH; [exact He'|]. now apply dict_set_encodable.
Qed.

Lemma mapM_ok {A B} (f : A -> res B) (l : list A) :
  Forall (fun a => exists b, f a = Ok b) l -> exists bs, mapM f l = Ok bs.
Proof.
  induction l as [|a l IH]; intros H; simpl; [now eexists|].
  inversion H as [|? ? [b Hb] H']; subst.
  destruct (IH H') as [bs Hbs]. rewrite Hb, Hbs. simpl. now eexists.
Qed.

Lemma urlencode_encodable (dc : dict) :
  dict_encodable dc -> exists out, urlencode dc = Ok out.
Proof.
  intros Hd. unfold urlencode.
  destruct (@mapM_ok _ _ encode_entry dc) as [l Hl]; [|rewrite Hl; simpl; now eexists].
  unfold dict_encodable in Hd. revert Hd. apply Forall_impl.
  intros [k vs] [Hk Hvs]. simpl in *. unfold encode_entry. simpl.
  apply quote_plus_encodable in Hk. destruct Hk as [k' Hk']. rewrite Hk'. cbn [bind].
  apply mapM_ok. revert Hvs. apply Forall_impl. intros v Hv.
  apply quote_plus_encodable in Hv. destruct Hv as [v' Hv']. rewrite Hv'. simpl.
  now eexists.
Qed.

Lemma isdecimal_encodable (c : char) : isdecimal c = true -> encodable_char c = true.
Proof.
  unfold isdecimal. intros H. apply existsb_exists in H.
  destruct H as [r [Hin Hr]]. apply encodable_char_spec.
  unfold decimal_runs in Hin. simpl in Hin.
  repeat (destruct Hin as [<-|Hin];
          [unfold in_range in Hr; simpl in Hr; to_prop; lia|]).
  destruct Hin.
Qed.

Lemma lstrip_chars_encodable (chars s : str) :
  encodable s = true -> encodable (lstrip_chars chars s) = true.
Proof.
  unfold encodable. induction s as [|c s IH]; simpl; [reflexivity|].
  intros H. destruct (existsb (N.eqb c) chars); [|exact H].
  apply andb_true_iff in H. now apply IH.
Qed.

Lemma strip0_encodable (s : str) : encodable s = true -> encodable (strip0 s) = true.
Proof.
  intros H. unfold strip0.
  destruct (is_empty (lstrip_chars (py "0") s)); [reflexivity|].
  now apply lstrip_chars_encodable.
Qed.

Lemma accepted_date_encodable (s : str) : matches DATE_RE s = true -> encodable s = true.
Proof.
  intros H. apply DATE_RE_shape in H.
  destruct H as (y1 & y2 & y3 & y4 & m1 & m2 & d1 & d2 & tail & -> & Hd & He).
  simpl in Hd. repeat (apply andb_true_iff in Hd; destruct Hd as [?H Hd]).
  unfold encodable. cbn [app forallb].
  repeat match goal with
         | E : isdecimal ?c = true |- context [encodable_char ?c] =>
             rewrite (isdecimal_encodable c E)
         end.
  destruct (at_end_cases _ He) as [-> | ->]; reflexivity.
Qed.

Lemma accepted_time_encodable (s : str) : matches TIME_RE s = true -> encodable s = true.
Proof.
  intros H. apply TIME_RE_shape in H.
  destruct H as (h1 & h2 & n1 & n2 & tail & -> & Hd & He).
  simpl in Hd. repeat (apply andb_true_iff in Hd; destruct Hd as [?H Hd]).
  unfold encodable. cbn [app forallb].
  repeat match goal with
         | E : isdecimal ?c = true |- context [encodable_char ?c] =>
             rewrite (isdecimal_encodable c E)
         end.
  destruct (at_end_cases _ He) as [-> | ->]; reflexivity.
Qed.

Lemma query_parts_encodable (date_str time_str : str) (s : query_parts) :
  _date_time_to_query_parts date_str time_str = Ok s ->
  encodable (q_day s) = true /\ encodable (q_month s) = true
  /\ encodable (q_year s) = true /\ encodable (q_hour s) = true
  /\ encodable (q_min s) = true.
Proof.
  unfold _date_time_to_query_parts.
  destruct (matches DATE_RE date_str) eqn:Hd; cbn [negb]; [|discriminate].
  destruct (matches TIME_RE time_str) eqn:Ht; cbn [negb]; [|discriminate].
  apply accepted_date_encodable in Hd. apply accepted_time_encodable in Ht.
  destruct (split_on (ch "-") date_str) as [|y [|m [|d [|x r]]]] eqn:Ed; try discriminate.
  destruct (split_on (ch ":") time_str) as [|hh [|mm [|x r]]] eqn:Et; try discriminate.
  intros H. injection H as <-. cbn [q_day q_month q_year q_hour q_min].
  assert (Hpd : forall piece, In piece [y; m; d] -> encodable piece = true)
    by (intros piece Hp; apply (@split_on_encodable (ch "-") date_str); [exact Hd|];
        now rewrite Ed).
  assert (Hpt : forall piece, In piece [hh; mm] -> encodable piece = true)
    by (intros piece Hp; apply (@split_on_encodable (ch ":") time_str); [exact Ht|];
        now rewrite Et).
  repeat split; try apply strip0_encodable;
    first [apply Hpd; simpl; tauto | apply Hpt; simpl; tauto].
Qed.

Lemma window_entries_encodable (s e : query_parts) :
  encodable (q_day s) = true /\ encodable (q_month s) = true
  /\ encodable (q_year s) = true /\ encodable (q_hour s) = true
  /\ encodable (q_min s) = true ->
  encodable (q_day e) = true /\ encodable (q_month e) = true
  /\ encodable (q_year e) = true /\ encodable (q_hour e) = true
  /\ encodable (q_min e) = true ->
  dict_encodable (window_entries s e).
Proof.
  intros (S1 & S2 & S3 & S4 & S5) (E1 & E2 & E3 & E4 & E5).
  unfold dict_encodable, window_entries.
  repeat (constructor; [split; [reflexivity|]; constructor; [assumption|constructor]|]).
  constructor; [|constructor].
  split; [reflexivity|]. constructor; [reflexivity|constructor].
Qed.

(** X11.  With a date and time pair that passes the patterns the builder
    fails only when the base query cannot be encoded: if the query of the
    base URL holds no lone surrogate, the builder returns a URL.  Percent
    escapes in the base never make it fail, whatever bytes they stand for. *)
Theorem builder_succeeds_on_encodable_query
        (urlparse : str -> res ParseResult) (base sd st ed et : str)
        (p : ParseResult) :
  urlparse base = Ok p ->
  matches DATE_RE sd = true -> matches TIME_RE st = true ->
  matches DATE_RE ed = true -> matches TIME_RE et = true ->
  encodable (query p) = true ->
  exists url, _build_ascii_url urlparse base sd st ed et = Ok url.
Proof.
  intros Hu Hsd Hst Hed Het Hq.
  destruct (date_time_parts_ok _ _ Hsd Hst) as (y & m & d & hh & mm & _ & _ & Hs).
  destruct (date_time_parts_ok _ _ Hed Het) as (y' & m' & d' & hh' & mm' & _ & _ & He).
  unfold _build_ascii_url. rewrite Hu. cbn [bind].
  rewrite (@rewritten_query_valid (query p) sd st ed et _ _ Hs He).
  destruct (@urlencode_encodable
              (assign_all (window_entries
                             (mkParts (strip0 d) (strip0 m) y (strip0 hh) (strip0 mm))
                             (mkParts (strip0 d') (strip0 m') y' (strip0 hh') (strip0 mm')))
                          (parse_qs (query p)))) as [out Hout].
  - apply assign_all_encodable; [|now apply parse_qs_encodable].
    apply window_entries_encodable.
    + exact (query_parts_encodable _ _ Hs).
    + exact (query_parts_encodable _ _ He).
  - rewrite Hout. cbn [bind]. now eexists.
Qed.

Lemma builder_succeeds_on_encodable_query_witness :
  let base := py "https://h.example/q?name=%ED%A0%80%FF&x=%zz+1" in
  exists p url,
    Demo.urlparse base = Ok p
    /\ encodable (query p) = true
    /\ _build_ascii_url Demo.urlparse base (py "2024-07-29") (py "00:00")
                        (py "2025-08-29") (py "23:59") = Ok url.
Proof.
  cbv zeta.
  destruct (Demo.urlparse (py "https://h.example/q?name=%ED%A0%80%FF&x=%zz+1"))
    as [p|x] eqn:Ep; [|vm_compute in Ep; discriminate Ep].
  assert (Hq : encodable (query p) = true)
    by (vm_compute in Ep; injection Ep as <-; reflexivity).
  destruct (@builder_succeeds_on_encodable_query
              Demo.urlparse _ (py "2024-07-29") (py "00:00")
              (py "2025-08-29") (py "23:59") p Ep eq_refl eq_refl eq_refl eq_refl Hq)
    as [url Hurl].
  exists p, url. repeat split; assumption.
Defined.

(* ================================================================== *)
(** * Encoding and decoding a query: the round trip *)
(* ================================================================== *)

(** From here on [lia] also reasons about division by a constant. *)
Ltac Zify.zify_post_hook ::= Z.to_euclidean_division_equations.

(** Settles the tests of a decoder run on bytes given by arithmetic. *)
Ltac settle_tests :=
  repeat (match goal with
          | |- context [(?a <? ?b)%N] =>
              first [ replace (a <? b)%N with true
                        by (symmetry; apply N.ltb_lt; to_prop; lia)
                    | replace (a <? b)%N with false
                        by (symmetry; apply N.ltb_ge; to_prop; lia) ]
          | |- context [(?a <=? ?b)%N] =>
              first [ replace (a <=? b)%N with true
                        by (symmetry; apply N.leb_le; to_prop; lia)
                    | replace (a <=? b)%N with false
                        by (symmetry; apply N.leb_gt; to_prop; lia) ]
          | |- context [(?a =? ?b)%N] =>
              first [ replace (a =? b)%N with true
                        by (symmetry; apply N.eqb_eq; to_prop; lia)
                    | replace (a =? b)%N with false
                        by (symmetry; apply N.eqb_neq; to_prop; lia) ]
          end; cbn [negb orb andb]).

(** One step of the decoder. *)
Lemma utf8_decode_replace_cons (b0 : byte) (r0 : bytes) :
  utf8_decode_replace (b0 :: r0) =
      (if b0 <? 0x80 then b0 :: utf8_decode_replace r0
       else if b0 <? 0xC2 then REPLACEMENT :: utf8_decode_replace r0
       else if b0 <? 0xE0 then
         match r0 with
         | [] => [REPLACEMENT]
         | b1 :: r1 =>
             if is_cont b1
             then ((b0 - 0xC0) * 64 + (b1 - 0x80)) :: utf8_decode_replace r1
             else REPLACEMENT :: utf8_decode_replace r0
         end
       else if b0 <? 0xF0 then
         match r0 with
         | [] => [REPLACEMENT]
         | b1 :: r1 =>
             if negb (is_cont b1)
                || (if b1 <? 0xA0 then b0 =? 0xE0 else b0 =? 0xED)
             then REPLACEMENT :: utf8_decode_replace r0
             else
               match r1 with
               | [] => [REPLACEMENT]
               | b2 :: r2 =>
                   if is_cont b2
                   then ((b0 - 0xE0) * 4096 + (b1 - 0x80) * 64 + (b2 - 0x80))
                        :: utf8_decode_replace r2
                   else REPLACEMENT :: utf8_decode_replace r1
               end
         end
       else if b0 <? 0xF5 then
         match r0 with
         | [] => [REPLACEMENT]
         | b1 :: r1 =>
             if negb (is_cont b1)
                || (if b1 <? 0x90 then b0 =? 0xF0 else b0 =? 0xF4)
             then REPLACEMENT :: utf8_decode_replace r0
             else
               match r1 with
               | [] => [REPLACEMENT]
               | b2 :: r2 =>
                   if is_cont b2
                   then
                     match r2 with
                     | [] => [REPLACEMENT]
                     | b3 :: r3 =>
                         if is_cont b3
                         then ((b0 - 0xF0) * 262144 + (b1 - 0x80) * 4096
                               + (b2 - 0x80) * 64 + (b3 - 0x80))
                              :: utf8_decode_replace r3
                         else REPLACEMENT :: utf8_decode_replace r2
                     end
                   else REPLACEMENT :: utf8_decode_replace r1
               end
         end
       else REPLACEMENT :: utf8_decode_replace r0)%N.
Proof. reflexivity. Qed.

Lemma decode_1 (b0 : byte) (r : bytes) :
  (b0 < 128)%N -> utf8_decode_replace (b0 :: r) = b0 :: utf8_decode_replace r.
Proof.
  intros H. rewrite utf8_decode_replace_cons.
  apply N.ltb_lt in H. now rewrite H.
Qed.

Lemma decode_2 (b0 b1 : byte) (r : bytes) :
  (194 <= b0 < 224)%N -> (128 <= b1 < 192)%N ->
  utf8_decode_replace (b0 :: b1 :: r)
  = ((b0 - 192) * 64 + (b1 - 128))%N :: utf8_decode_replace r.
Proof.
  intros H0 H1. rewrite utf8_decode_replace_cons. unfold is_cont.
  settle_tests. reflexivity.
Qed.

Lemma decode_3 (b0 b1 b2 : byte) (r : bytes) :
  (224 <= b0 < 240)%N -> (128 <= b1 < 192)%N -> (128 <= b2 < 192)%N ->
  (b0 = 224 -> 160 <= b1)%N -> (b0 = 237 -> b1 < 160)%N ->
  utf8_decode_replace (b0 :: b1 :: b2 :: r)
  = ((b0 - 224) * 4096 + (b1 - 128) * 64 + (b2 - 128))%N :: utf8_decode_replace r.
Proof.
  intros H0 H1 H2 Hlo Hhi. rewrite utf8_decode_replace_cons. unfold is_cont.
  settle_tests.
  destruct (b1 <? 160)%N eqn:E; settle_tests; reflexivity.
Qed.

Lemma decode_4 (b0 b1 b2 b3 : byte) (r : bytes) :
  (240 <= b0 < 245)%N -> (128 <= b1 < 192)%N -> (128 <= b2 < 192)%N ->
  (128 <= b3 < 192)%N ->
  (b0 = 240 -> 144 <= b1)%N -> (b0 = 244 -> b1 < 144)%N ->
  utf8_decode_replace (b0 :: b1 :: b2 :: b3 :: r)
  = ((b0 - 240) * 262144 + (b1 - 128) * 4096 + (b2 - 128) * 64 + (b3 - 128))%N
    :: utf8_decode_replace r.
Proof.
  intros H0 H1 H2 H3 Hlo Hhi. rewrite utf8_decode_replace_cons. unfold is_cont.
  settle_tests.
  destruct (b1 <? 144)%N eqn:E; settle_tests; reflexivity.
Qed.

(** Decoding what one code point was encoded to gives the code point. *)
Lemma utf8_char_round_trip (c : char) (b : bytes) (rest : bytes) :
  utf8_encode_char c = Some b ->
  utf8_decode_replace (b ++ rest) = c :: utf8_decode_replace rest.
Proof.
  unfold utf8_encode_char.
  destruct (c <? 128)%N eqn:E1.
  { intros H. assert (Hb : b = [c]) by congruence. subst b.
    cbn [app]. apply decode_1. to_prop. lia. }
  destruct (c <? 2048)%N eqn:E2.
  { intros H.
    assert (Hb : b = [(192 + c / 64)%N; (128 + c mod 64)%N]) by congruence.
    subst b. cbn [app]. to_prop.
    rewrite decode_2 by lia. f_equal. lia. }
  destruct ((55296 <=? c) && (c <? 57344))%N eqn:E3; [discriminate|].
  destruct (c <? 65536)%N eqn:E4.
  { intros H.
    assert (Hb : b = [(224 + c / 4096)%N; (128 + (c / 64) mod 64)%N;
                      (128 + c mod 64)%N]) by congruence.
    subst b. cbn [app]. to_prop.
    - rewrite decode_3 by lia. f_equal. lia.
    - rewrite decode_3 by lia. f_equal. lia. }
  destruct (c <? 1114112)%N eqn:E5; [|discriminate].
  intros H.
  assert (Hb : b = [(240 + c / 262144)%N; (128 + (c / 4096) mod 64)%N;
                    (128 + (c / 64) mod 64)%N; (128 + c mod 64)%N]) by congruence.
  subst b. cbn [app]. to_prop.
  - rewrite decode_4 by lia. f_equal. lia.
  - rewrite decode_4 by lia. f_equal. lia.
Qed.

Lemma utf8_round_trip (s : str) (bs : bytes) :
  utf8_encode s = Some bs -> utf8_decode_replace bs = s.
Proof.
  revert bs. induction s as [|c s IH]; intros bs; simpl.
  - intros H. now injection H as <-.
  - destruct (utf8_encode_char c) as [b|] eqn:Ec; [|discriminate].
    destruct (utf8_encode s) as [bs'|]; [|discriminate].
    intros H. injection H as <-.
    rewrite (utf8_char_round_trip _ _ Ec). f_equal. now apply IH.
Qed.

(** ** Percent escapes *)

Lemma split_on_from_cur (sep : char) (cur s : str) :
  split_on_from sep cur s
  = match split_on_from sep [] s with
    | f0 :: its => (rev cur ++ f0) :: its
    | [] => []
    end.
Proof.
  revert cur. induction s as [|c s IH]; intros cur; simpl.
  - now rewrite app_nil_r.
  - destruct (c =? sep)%N.
    + now rewrite app_nil_r.
    + rewrite (IH (c :: cur)), (IH [c]).
      destruct (split_on_from sep [] s); [reflexivity|].
      simpl. now rewrite <- app_assoc.
Qed.

Lemma split_on_from_not_nil (sep : char) (cur s : str) : split_on_from sep cur s <> [].
Proof.
  revert cur. induction s as [|c s IH]; intros cur; simpl; [discriminate|].
  destruct (c =? sep)%N; [discriminate|apply IH].
Qed.

Lemma unquote_to_bytes_plain (c : char) (s : str) :
  c <> ch "%" -> unquote_to_bytes (c :: s) = c :: unquote_to_bytes s.
Proof.
  intros Hc. unfold unquote_to_bytes, split_on. cbn [split_on_from].
  apply N.eqb_neq in Hc. rewrite Hc. rewrite split_on_from_cur.
  destruct (split_on_from (ch "%") [] s) as [|f0 its] eqn:E; [|reflexivity].
  now apply split_on_from_not_nil in E.
Qed.

Lemma hexval_not_percent (h : char) (x : N) : hexval h = Some x -> h <> ch "%".
Proof. intros H ->. vm_compute in H. discriminate. Qed.

Lemma unquote_to_bytes_escape (h1 h2 : char) (x y : N) (s : str) :
  hexval h1 = Some x -> hexval h2 = Some y ->
  unquote_to_bytes (ch "%" :: h1 :: h2 :: s) = (16 * x + y)%N :: unquote_to_bytes s.
Proof.
  intros H1 H2. unfold unquote_to_bytes, split_on. cbn [split_on_from].
  rewrite N.eqb_refl.
  pose proof (@hexval_not_percent _ _ H1) as N1.
  pose proof (@hexval_not_percent _ _ H2) as N2.
  apply N.eqb_neq in N1, N2. rewrite N1, N2. rewrite split_on_from_cur.
  destruct (split_on_from (ch "%") [] s) as [|f0 its] eqn:E;
    [now apply split_on_from_not_nil in E|].
  cbn [app flat_map rev unquote_item]. now rewrite H1, H2.
Qed.

Lemma hexval_hexdigit (n : N) : (n < 16)%N -> hexval (hexdigit n) = Some n.
Proof.
  intros H. unfold hexdigit, hexval, in_range.
  destruct (n <? 10)%N eqn:E; to_prop.
  - settle_tests. f_equal. lia.
  - settle_tests. f_equal. lia.
Qed.

(** The bytes percent-quoted with the space kept, unquoted, are the bytes. *)
Lemma unquote_to_bytes_quoted (bs : bytes) :
  Forall (fun b => (b < 256)%N) bs ->
  unquote_to_bytes (flat_map (quote_byte [ch " "]) bs) = bs.
Proof.
  induction bs as [|b bs IH]; intros H; [reflexivity|].
  inversion H as [|? ? Hb H']; subst. cbn [flat_map]. unfold quote_byte at 1.
  destruct (always_safe b || (b <? 128)%N && contains b [ch " "]) eqn:E.
  - cbn [app]. rewrite unquote_to_bytes_plain; [now rewrite IH|].
    apply orb_true_iff in E. destruct E as [E|E].
    + apply always_safe_plain in E. change (ch "%") with 37%N. lia.
    + apply andb_true_iff in E. destruct E as [_ E]. unfold contains in E. simpl in E.
      rewrite orb_false_r in E. apply N.eqb_eq in E. subst b. discriminate.
  - cbn [app].
    rewrite (@unquote_to_bytes_escape _ _ (b / 16) (b mod 16)).
    + rewrite IH by exact H'. f_equal. lia.
    + apply hexval_hexdigit. lia.
    + apply hexval_hexdigit. lia.
Qed.

Lemma utf8_decode_ascii (s : str) :
  forallb (fun c => c <? 128)%N s = true -> utf8_decode_replace s = s.
Proof.
  induction s as [|c s IH]; simpl forallb; intros H; [reflexivity|].
  apply andb_true_iff in H. destruct H as [Hc Hs].
  rewrite decode_1 by (to_prop; lia). now rewrite IH.
Qed.

Lemma unquote_to_bytes_no_percent (s : str) :
  contains (ch "%") s = false -> unquote_to_bytes s = s.
Proof.
  unfold contains. induction s as [|c s IH]; cbn [existsb]; intros H; [reflexivity|].
  apply orb_false_iff in H. destruct H as [Hc Hs].
  rewrite unquote_to_bytes_plain; [now rewrite IH|].
  apply N.eqb_neq in Hc. congruence.
Qed.

Lemma unquote_runs_ascii (cur s : str) :
  forallb (fun c => c <? 128)%N s = true ->
  unquote_runs cur s = utf8_decode_replace (unquote_to_bytes (rev cur ++ s)).
Proof.
  revert cur. induction s as [|c s IH]; intros cur H; simpl.
  - now rewrite app_nil_r.
  - simpl in H. apply andb_true_iff in H. destruct H as [Hc Hs].
    rewrite Hc. rewrite IH by exact Hs. simpl. now rewrite <- app_assoc.
Qed.

(** On ASCII text [unquote] is: undo the escapes, then decode. *)
Lemma unquote_ascii (s : str) :
  forallb (fun c => c <? 128)%N s = true ->
  unquote s = utf8_decode_replace (unquote_to_bytes s).
Proof.
  intros H. unfold unquote. destruct (contains (ch "%") s) eqn:E; cbn [negb].
  - now rewrite unquote_runs_ascii.
  - rewrite unquote_to_bytes_no_percent by exact E. now rewrite utf8_decode_ascii.
Qed.

(** ** What [quote_plus] writes *)

Lemma utf8_encode_char_bytes (c : char) (b : bytes) :
  utf8_encode_char c = Some b ->
  b <> [] /\ Forall (fun x => (x < 256)%N /\ ((x < 128)%N -> x = c)) b.
Proof.
  unfold utf8_encode_char.
  destruct (c <? 128)%N eqn:E1.
  { intros H. assert (Hb : b = [c]) by congruence. subst b.
    split; [discriminate|]. repeat constructor. to_prop. lia. }
  destruct (c <? 2048)%N eqn:E2.
  { intros H.
    assert (Hb : b = [(192 + c / 64)%N; (128 + c mod 64)%N]) by congruence.
    subst b. split; [discriminate|]. to_prop. repeat constructor; lia. }
  destruct ((55296 <=? c) && (c <? 57344))%N eqn:E3; [discriminate|].
  destruct (c <? 65536)%N eqn:E4.
  { intros H.
    assert (Hb : b = [(224 + c / 4096)%N; (128 + (c / 64) mod 64)%N;
                      (128 + c mod 64)%N]) by congruence.
    subst b. split; [discriminate|]. clear E3. to_prop. repeat constructor; lia. }
  destruct (c <? 1114112)%N eqn:E5; [|discriminate].
  intros H.
  assert (Hb : b = [(240 + c / 262144)%N; (128 + (c / 4096) mod 64)%N;
                    (128 + (c / 64) mod 64)%N; (128 + c mod 64)%N]) by congruence.
  subst b. split; [discriminate|]. clear E3. to_prop. repeat constructor; lia.
Qed.

Lemma utf8_encode_bytes (s : str) (bs : bytes) :
  utf8_encode s = Some bs ->
  (s <> [] -> bs <> [])
  /\ Forall (fun x => (x < 256)%N /\ ((x < 128)%N -> In x s)) bs.
Proof.
  revert bs. induction s as [|c s IH]; intros bs; simpl.
  - intros H. assert (bs = []) by congruence. subst. split; [congruence|constructor].
  - destruct (utf8_encode_char c) as [b|] eqn:Ec; [|discriminate].
    destruct (utf8_encode s) as [bs'|]; [|discriminate].
    intros H. assert (Hb : bs = b ++ bs') by congruence. subst bs.
    destruct (utf8_encode_char_bytes _ Ec) as [Hne Hb].
    destruct (IH bs' eq_refl) as [_ Hbs'].
    split.
    + intros _. destruct b; [congruence|discriminate].
    + apply Forall_app. split.
      * revert Hb. apply Forall_impl. intros x [H1 H2]. split; [exact H1|].
        intros Hx. left. symmetry. now apply H2.
      * revert Hbs'. apply Forall_impl. intros x [H1 H2]. split; [exact H1|].
        intros Hx. right. now apply H2.
Qed.

Lemma always_safe_hexdigit (n : N) : (n < 16)%N -> always_safe (hexdigit n) = true.
Proof.
  intros H. unfold hexdigit, always_safe, in_range.
  destruct (n <? 10)%N eqn:E; to_prop.
  - replace (48 <=? 48 + n)%N with true by (symmetry; apply N.leb_le; lia).
    replace (48 + n <? 48 + 10)%N with true by (symmetry; apply N.ltb_lt; lia).
    cbn [andb]. now rewrite !orb_true_r.
  - replace (65 <=? 65 + (n - 10))%N with true by (symmetry; apply N.leb_le; lia).
    replace (65 + (n - 10) <? 65 + 26)%N with true by (symmetry; apply N.ltb_lt; lia).
    reflexivity.
Qed.

Lemma quote_byte_chars (b : byte) :
  (b < 256)%N ->
  quote_byte [ch " "] b <> []
  /\ Forall (plain_or [ch " "; ch "%"]) (quote_byte [ch " "] b).
Proof.
  intros Hb. unfold quote_byte, plain_or.
  destruct (always_safe b || (b <? 128)%N && contains b [ch " "]) eqn:E.
  - split; [discriminate|]. constructor; [|constructor].
    apply orb_true_iff in E. destruct E as [E|E]; [now left|].
    apply andb_true_iff in E. destruct E as [_ E]. unfold contains in E.
    cbn [existsb] in E. rewrite orb_false_r in E. apply N.eqb_eq in E.
    right. left. congruence.
  - split; [discriminate|].
    constructor; [right; right; now left|].
    constructor; [left; apply always_safe_hexdigit; lia|].
    constructor; [left; apply always_safe_hexdigit; lia|constructor].
Qed.

Lemma quoted_chars (bs : bytes) :
  Forall (fun b => (b < 256)%N) bs ->
  Forall (plain_or [ch " "; ch "%"]) (flat_map (quote_byte [ch " "]) bs).
Proof.
  induction bs as [|b bs IH]; intros H; [constructor|].
  inversion H; subst. cbn [flat_map]. apply Forall_app. split.
  - now apply quote_byte_chars.
  - now apply IH.
Qed.

Lemma plain_or_absent (extra : list char) (x : char) (s : str) :
  always_safe x = false -> ~ In x extra -> Forall (plain_or extra) s ->
  contains x s = false.
Proof.
  intros Hx Hn Hs. apply not_true_is_false. intros H.
  apply existsb_exists in H. destruct H as [y [Hin Hy]].
  apply N.eqb_eq in Hy. subst y. rewrite Forall_forall in Hs.
  destruct (Hs x Hin) as [H|H]; [congruence|contradiction].
Qed.

Lemma plain_or_ascii (s : str) :
  Forall (plain_or [ch " "; ch "%"]) s -> forallb (fun c => c <? 128)%N s = true.
Proof.
  intros H. apply forallb_forall. intros c Hc. rewrite Forall_forall in H.
  apply N.ltb_lt. destruct (H c Hc) as [Hs|[<-|[<-|[]]]].
  - now apply always_safe_plain in Hs.
  - reflexivity.
  - reflexivity.
Qed.

Lemma replace_back (a b : char) (s : str) :
  contains b s = false -> replace_char b a (replace_char a b s) = s.
Proof.
  unfold contains, replace_char. induction s as [|c s IH]; cbn [existsb map];
    intros H; [reflexivity|].
  apply orb_false_iff in H. destruct H as [Hc Hs]. rewrite IH by exact Hs. f_equal.
  destruct (c =? a)%N eqn:E.
  - rewrite N.eqb_refl. apply N.eqb_eq in E. now subst.
  - rewrite N.eqb_sym, Hc. reflexivity.
Qed.

Lemma quote_byte_without_space (bs : bytes) :
  contains (ch " ") bs = false ->
  flat_map (quote_byte []) bs = flat_map (quote_byte [ch " "]) bs.
Proof.
  unfold contains. induction bs as [|b bs IH]; cbn [existsb flat_map]; intros H;
    [reflexivity|].
  apply orb_false_iff in H. destruct H as [Hb Hbs]. rewrite IH by exact Hbs. f_equal.
  unfold quote_byte, contains. cbn [existsb].
  rewrite N.eqb_sym, Hb. reflexivity.
Qed.

(** What [quote_plus] gives, with its [+] signs read as spaces again, is
    the percent-quoted encoding of the text. *)
Lemma quote_plus_unplus (s qp : str) :
  quote_plus s = Ok qp ->
  exists bs,
    utf8_encode s = Some bs
    /\ replace_char (ch "+") (ch " ") qp = flat_map (quote_byte [ch " "]) bs
    /\ contains (ch "=") qp = false
    /\ (s <> [] -> qp <> []).
Proof.
  intros H.
  assert (He : exists bs, utf8_encode s = Some bs)
    by (apply utf8_encode_encodable, quote_plus_encodable; now exists qp).
  destruct He as [bs Hbs]. exists bs. split; [exact Hbs|].
  destruct (utf8_encode_bytes _ Hbs) as [Hne Hb].
  assert (H256 : Forall (fun b => (b < 256)%N) bs)
    by (revert Hb; apply Forall_impl; tauto).
  pose proof (quoted_chars H256) as Hq.
  assert (Hnonempty : s <> [] -> flat_map (quote_byte [ch " "]) bs <> []).
  { intros Hs. specialize (Hne Hs). destruct bs as [|b bs]; [congruence|].
    cbn [flat_map]. inversion H256; subst.
    destruct (quote_byte_chars H2) as [Hq0 _].
    destruct (quote_byte [ch " "] b); [congruence|discriminate]. }
  unfold quote_plus, quote in H. rewrite Hbs in H.
  destruct (contains (ch " ") s) eqn:Esp; cbn [negb] in H.
  - (* spaces become [+] *)
    assert (Hs : s <> []) by (intros ->; discriminate).
    destruct s as [|c s]; [congruence|]. cbn [is_empty bind] in H.
    assert (E : qp = replace_char (ch " ") (ch "+")
                                  (quote_from_bytes bs [ch " "])) by congruence.
    unfold quote_from_bytes in E. subst qp.
    assert (Hplus : contains (ch "+") (flat_map (quote_byte [ch " "]) bs) = false)
      by (apply (@plain_or_absent [ch " "; ch "%"]);
          [reflexivity|simpl; intros [X|[X|[]]]; discriminate X|exact Hq]).
    split; [now apply replace_back|]. split.
    + apply not_true_is_false. intros X. apply existsb_exists in X.
      destruct X as [y [Hin Hy]]. apply N.eqb_eq in Hy. subst y.
      unfold replace_char in Hin. apply in_map_iff in Hin.
      destruct Hin as [z [Hz Hzin]].
      destruct (z =? ch " ")%N; [discriminate Hz|]. subst z.
      rewrite Forall_forall in Hq.
      destruct (Hq _ Hzin) as [X|[X|[X|[]]]]; discriminate X.
    + intros _ X. apply Hnonempty; [discriminate|].
      unfold replace_char in X. now apply map_eq_nil in X.
  - (* no space *)
    assert (Hbsp : contains (ch " ") bs = false).
    { apply not_true_is_false. intros X. apply existsb_exists in X.
      destruct X as [y [Hin Hy]]. apply N.eqb_eq in Hy. subst y.
      rewrite Forall_forall in Hb. destruct (Hb _ Hin) as [_ Hin'].
      assert (Hc : contains (ch " ") s = true)
        by (apply existsb_exists; exists (ch " "); split;
            [apply Hin'; reflexivity|reflexivity]).
      congruence. }
    assert (E : qp = flat_map (quote_byte [ch " "]) bs).
    { destruct s as [|c s].
      - cbn [is_empty] in H. simpl in Hbs.
        assert (bs = []) by congruence. subst bs. cbn [flat_map]. congruence.
      - cbn [is_empty] in H. unfold quote_from_bytes in H.
        rewrite quote_byte_without_space in H by exact Hbsp. congruence. }
    subst qp.
    split; [|split; [|exact Hnonempty]].
    + apply replace_char_absent.
      apply (@plain_or_absent [ch " "; ch "%"]);
        [reflexivity|simpl; intros [X|[X|[]]]; discriminate X|exact Hq].
    + apply (@plain_or_absent [ch " "; ch "%"]);
        [reflexivity|simpl; intros [X|[X|[]]]; discriminate X|exact Hq].
Qed.

(** [unquote] undoes [quote_plus], once the [+] signs are spaces again. *)
Lemma unquote_quote_plus (s qp : str) :
  quote_plus s = Ok qp -> unquote (replace_char (ch "+") (ch " ") qp) = s.
Proof.
  intros H. apply quote_plus_unplus in H. destruct H as (bs & Hbs & Hq & _ & _).
  pose proof Hbs as Hb. apply utf8_encode_bytes in Hb. destruct Hb as [_ Hb].
  assert (H256 : Forall (fun b => (b < 256)%N) bs)
    by (revert Hb; apply Forall_impl; tauto).
  rewrite Hq. rewrite unquote_ascii by (apply plain_or_ascii, quoted_chars, H256).
  rewrite unquote_to_bytes_quoted by exact H256.
  now apply utf8_round_trip.
Qed.

(** ** From the encoded text back to the dict *)

Lemma Ok_inj {A} (a b : A) : Ok a = Ok b -> a = b.
Proof. intros H. now injection H. Qed.

Lemma parse_field_quoted (k v k' v' : str) :
  quote_plus k = Ok k' -> quote_plus v = Ok v' -> v <> [] ->
  parse_field (k' ++ ch "=" :: v') = [(k, v)].
Proof.
  intros Hk Hv Hne.
  pose proof (@unquote_quote_plus _ _ Hk) as Uk.
  pose proof (@unquote_quote_plus _ _ Hv) as Uv.
  apply quote_plus_unplus in Hk. destruct Hk as (_ & _ & _ & Heq & _).
  apply quote_plus_unplus in Hv. destruct Hv as (_ & _ & _ & _ & Hv).
  specialize (Hv Hne).
  unfold parse_field, split_once.
  rewrite split_once_from_app by exact Heq. cbn [rev app].
  destruct (k' ++ ch "=" :: v') eqn:E; [now destruct k'|]. cbn [is_empty].
  destruct v' as [|c' v']; [congruence|]. cbn [is_empty].
  now rewrite Uk, Uv.
Qed.

Lemma encode_values_parse (k k' : str) (vs : list str) (fields : list str) :
  quote_plus k = Ok k' ->
  Forall (fun v => v <> []) vs ->
  mapM (fun elt => e <- quote_plus elt ;; Ok (k' ++ ch "=" :: e)) vs = Ok fields ->
  flat_map parse_field fields = map (pair k) vs
  /\ Forall (fun f => f <> []) fields.
Proof.
  intros Hk. revert fields. induction vs as [|v vs IH]; intros fields Hne H.
  - simpl in H. apply Ok_inj in H. subst fields. now split.
  - inversion Hne as [|? ? Hv Hvs]; subst. cbn [mapM] in H.
    destruct (quote_plus v) as [v'|] eqn:Ev; [|discriminate]. cbn [bind] in H.
    destruct (mapM _ vs) as [fs|] eqn:Em; [|discriminate]. cbn [bind] in H.
    apply Ok_inj in H. subst fields.
    destruct (IH fs Hvs eq_refl) as [IH1 IH2].
    split.
    + cbn [flat_map map]. rewrite IH1.
      now rewrite (@parse_field_quoted _ _ _ _ Hk Ev Hv).
    + constructor; [now destruct k'|exact IH2].
Qed.

Lemma encode_entry_parse (kv : str * list str) (fields : list str) :
  Forall (fun v => v <> []) (snd kv) ->
  encode_entry kv = Ok fields ->
  flat_map parse_field fields = map (pair (fst kv)) (snd kv)
  /\ Forall (fun f => f <> []) fields.
Proof.
  intros Hne H. unfold encode_entry in H.
  destruct (quote_plus (fst kv)) as [k'|] eqn:Ek; [|discriminate].
  cbn [bind] in H. exact (@encode_values_parse _ _ _ _ Ek Hne H).
Qed.

Lemma encode_entries_parse (dc : dict) (l : list (list str)) :
  values_present dc ->
  mapM encode_entry dc = Ok l ->
  flat_map parse_field (List.concat l) = pairs_of dc
  /\ Forall (fun f => f <> []) (List.concat l)
  /\ Forall amp_free (List.concat l).
Proof.
  revert l. induction dc as [|kv dc IH]; intros l Hv H.
  - simpl in H. apply Ok_inj in H. subst l. now repeat split.
  - inversion Hv as [|? ? [_ Hkv] Hdc]; subst. cbn [mapM] in H.
    destruct (encode_entry kv) as [fs|] eqn:Ee; [|discriminate]. cbn [bind] in H.
    destruct (mapM encode_entry dc) as [l'|] eqn:Em; [|discriminate].
    cbn [bind] in H. apply Ok_inj in H. subst l.
    destruct (IH l' Hdc eq_refl) as (IH1 & IH2 & IH3).
    destruct (@encode_entry_parse _ _ Hkv Ee) as [E1 E2].
    cbn [List.concat]. unfold pairs_of. cbn [flat_map].
    rewrite flat_map_app, E1, IH1. split; [reflexivity|].
    split; apply Forall_app; split; try assumption.
    now apply (@encode_entry_amp_free kv).
Qed.

Lemma join_nonempty (sep : str) (fields : list str) :
  fields <> [] -> Forall (fun f => f <> []) fields -> join sep fields <> [].
Proof.
  destruct fields as [|f rest]; [congruence|]. intros _ H.
  inversion H; subst. destruct f as [|c f]; [congruence|].
  destruct rest; discriminate.
Qed.

(** The pairs [parse_qsl] reads from what [urlencode] wrote. *)
Lemma urlencode_parse_qsl (dc : dict) (out : str) :
  values_present dc -> urlencode dc = Ok out -> parse_qsl out = pairs_of dc.
Proof.
  intros Hv H. unfold urlencode in H.
  destruct (mapM encode_entry dc) as [l|] eqn:Em; [|discriminate].
  cbn [bind] in H. apply Ok_inj in H.
  subst out. destruct (@encode_entries_parse _ _ Hv Em) as (E1 & E2 & E3).
  destruct (List.concat l) as [|f fs] eqn:Ec.
  - simpl in E1. rewrite <- E1. reflexivity.
  - unfold parse_qsl.
    assert (Hj : join [ch "&"] (f :: fs) <> []) by (apply join_nonempty; [discriminate|exact E2]).
    destruct (join [ch "&"] (f :: fs)) eqn:Ej; [congruence|]. cbn [is_empty].
    rewrite <- Ej. rewrite split_on_join; [exact E1|discriminate|exact E3].
Qed.

Lemma dict_append_fresh (k x : str) (acc : dict) :
  has_key k acc = false -> dict_append k x acc = acc ++ [(k, [x])].
Proof.
  induction acc as [|[k0 v0] acc IH]; [reflexivity|].
  rewrite has_key_cons. intros H. apply orb_false_iff in H. destruct H as [H1 H2].
  cbn [dict_append app]. rewrite str_eqb_sym, H1. now rewrite IH.
Qed.

Lemma dict_append_last (k x : str) (acc : dict) (l : list str) :
  has_key k acc = false ->
  dict_append k x (acc ++ [(k, l)]) = acc ++ [(k, l ++ [x])].
Proof.
  induction acc as [|[k0 v0] acc IH].
  - intros _. cbn [dict_append app]. now rewrite str_eqb_refl.
  - rewrite has_key_cons. intros H. apply orb_false_iff in H. destruct H as [H1 H2].
    cbn [dict_append app]. rewrite str_eqb_sym, H1. now rewrite IH.
Qed.

Lemma fold_append_values (k : str) (xs l : list str) (acc : dict) :
  has_key k acc = false ->
  fold_left (fun dc nv => dict_append (fst nv) (snd nv) dc) (map (pair k) xs)
            (acc ++ [(k, l)])
  = acc ++ [(k, l ++ xs)].
Proof.
  intros Hk. revert l. induction xs as [|x xs IH]; intros l.
  - now rewrite app_nil_r.
  - cbn [map fold_left fst snd]. rewrite dict_append_last by exact Hk.
    rewrite IH. now rewrite <- app_assoc.
Qed.

Lemma fold_pairs_of (dc acc : dict) :
  NoDup (map fst (acc ++ dc)) ->
  Forall (fun kv => snd kv <> []) dc ->
  fold_left (fun dc nv => dict_append (fst nv) (snd nv) dc) (pairs_of dc) acc
  = acc ++ dc.
Proof.
  revert acc. induction dc as [|[k vs] dc IH]; intros acc Hnd Hv.
  - now rewrite app_nil_r.
  - inversion Hv as [|? ? Hvs Hdc]; subst. cbn [snd] in Hvs.
    destruct vs as [|v vs]; [congruence|].
    assert (Hk : has_key k acc = false).
    { apply not_true_is_false. intros X. apply has_key_In in X.
      rewrite map_app in Hnd. cbn [map fst] in Hnd.
      apply NoDup_remove_2 in Hnd. apply Hnd. apply in_or_app. now left. }
    unfold pairs_of. cbn [flat_map fst snd map]. fold (pairs_of dc).
    rewrite fold_left_app. cbn [fold_left fst snd].
    rewrite dict_append_fresh by exact Hk.
    rewrite fold_append_values by exact Hk. cbn [app].
    rewrite IH.
    + now rewrite <- app_assoc.
    + rewrite <- app_assoc. exact Hnd.
    + exact Hdc.
Qed.

(** [parse_qs] undoes [urlencode] on such a dict. *)
Lemma parse_qs_urlencode (dc : dict) (out : str) :
  query_dict dc -> urlencode dc = Ok out -> parse_qs out = dc.
Proof.
  intros [Hnd Hv] H. unfold parse_qs. rewrite (@urlencode_parse_qsl _ _ Hv H).
  rewrite fold_pairs_of; [reflexivity|exact Hnd|].
  revert Hv. apply Forall_impl. tauto.
Qed.

(** ** The dict the builder encodes *)

Lemma utf8_decode_replace_nonempty (b : byte) (r : bytes) :
  utf8_decode_replace (b :: r) <> [].
Proof.
  rewrite utf8_decode_replace_cons.
  repeat match goal with
         | |- context [if ?c then _ else _] => destruct c
         | |- context [match ?l with [] => _ | _ :: _ => _ end] => destruct l
         end; discriminate.
Qed.

Lemma unquote_item_nonempty (item : str) : unquote_item item <> [].
Proof.
  unfold unquote_item. destruct item as [|a [|b rest]]; try discriminate.
  destruct (hexval a); [|discriminate]. destruct (hexval b); discriminate.
Qed.

Lemma unquote_to_bytes_nonempty (s : str) : s <> [] -> unquote_to_bytes s <> [].
Proof.
  destruct s as [|c s]; [congruence|]. intros _.
  destruct (N.eq_dec c (ch "%")) as [->|Hc].
  - unfold unquote_to_bytes, split_on. cbn [split_on_from].
    rewrite N.eqb_refl. cbn [rev app].
    destruct (split_on_from (ch "%") [] s) as [|i its] eqn:E.
    + now apply split_on_from_not_nil in E.
    + cbn [flat_map]. pose proof (unquote_item_nonempty i).
      destruct (unquote_item i); [congruence|discriminate].
  - rewrite unquote_to_bytes_plain by exact Hc. discriminate.
Qed.

Lemma decode_unquote_nonempty (s : str) :
  s <> [] -> utf8_decode_replace (unquote_to_bytes s) <> [].
Proof.
  intros H. apply unquote_to_bytes_nonempty in H.
  destruct (unquote_to_bytes s); [congruence|]. apply utf8_decode_replace_nonempty.
Qed.

Lemma unquote_runs_nonempty (cur s : str) :
  cur <> [] \/ s <> [] -> unquote_runs cur s <> [].
Proof.
  revert cur. induction s as [|c s IH]; intros cur H; cbn [unquote_runs].
  - apply decode_unquote_nonempty. destruct H as [H|H]; [|congruence].
    intros X. apply H. apply (f_equal (@rev char)) in X.
    now rewrite rev_involutive in X.
  - destruct (c <? 128)%N.
    + apply IH. left. discriminate.
    + intros X. apply app_eq_nil in X. destruct X as [_ X]. discriminate X.
Qed.

Lemma unquote_nonempty (s : str) : s <> [] -> unquote s <> [].
Proof.
  intros H. unfold unquote. destruct (negb (contains (ch "%") s)); [exact H|].
  apply unquote_runs_nonempty. now right.
Qed.

Lemma parse_field_value_nonempty (f k v : str) :
  In (k, v) (parse_field f) -> v <> [].
Proof.
  unfold parse_field. destruct (is_empty f); [intros []|].
  destruct (split_once (ch "=") f) as [|n [|x [|y l]]]; try (intros []).
  destruct x as [|c x]; cbn [is_empty]; [intros []|].
  intros [H|[]]. assert (E : v = unquote (replace_char (ch "+") (ch " ") (c :: x)))
    by congruence.
  subst v. apply unquote_nonempty. discriminate.
Qed.

Lemma parse_qsl_value_nonempty (q k v : str) : In (k, v) (parse_qsl q) -> v <> [].
Proof.
  unfold parse_qsl. destruct (is_empty q); [intros []|].
  intros H. apply in_flat_map in H. destruct H as [f [_ H]].
  now apply parse_field_value_nonempty in H.
Qed.

Lemma dict_append_values_present (k x : str) (dc : dict) :
  x <> [] -> values_present dc -> values_present (dict_append k x dc).
Proof.
  intros Hx. unfold values_present.
  induction dc as [|[k0 v0] dc IH]; intros H; cbn [dict_append].
  - constructor; [|constructor]. cbn [snd]. split; [discriminate|].
    now constructor.
  - inversion H as [|? ? [H1 H2] H3]; subst. cbn [snd] in *.
    destruct (str_eqb k0 k).
    + constructor; [|exact H3]. cbn [snd]. split.
      * now destruct v0.
      * apply Forall_app. split; [exact H2|now constructor].
    + constructor; [now split|now apply IH].
Qed.

Lemma fold_dict_append_values_present (l : list (str * str)) (dc : dict) :
  Forall (fun nv => snd nv <> []) l -> values_present dc ->
  values_present (fold_left (fun dc nv => dict_append (fst nv) (snd nv) dc) l dc).
Proof.
  revert dc. induction l as [|[k v] l IH]; intros dc Hl Hd; [exact Hd|].
  inversion Hl; subst. cbn [fold_left]. apply IH; [assumption|].
  now apply dict_append_values_present.
Qed.

(** What [parse_qs] returns is such a dict, whatever the text. *)
Lemma parse_qs_query_dict (q : str) : query_dict (parse_qs q).
Proof.
  split; [apply parse_qs_keys_NoDup|]. unfold parse_qs.
  apply fold_dict_append_values_present; [|constructor].
  apply Forall_forall. intros [k v] H. cbn [snd].
  now apply parse_qsl_value_nonempty in H.
Qed.

Lemma dict_set_values_present (k x : str) (dc : dict) :
  x <> [] -> values_present dc -> values_present (dict_set k [x] dc).
Proof.
  intros Hx. unfold values_present.
  induction dc as [|[k0 v0] dc IH]; intros H; cbn [dict_set].
  - constructor; [|constructor]. cbn [snd]. split; [discriminate|now constructor].
  - inversion H as [|? ? [H1 H2] H3]; subst. cbn [snd] in *.
    destruct (str_eqb k0 k).
    + constructor; [|exact H3]. cbn [snd]. split; [discriminate|now constructor].
    + constructor; [now split|now apply IH].
Qed.

Lemma dict_set_keys_NoDup (k : str) (v : list str) (dc : dict) :
  NoDup (map fst dc) -> NoDup (map fst (dict_set k v dc)).
Proof. intros H. rewrite dict_set_keys. now apply keys_step_NoDup. Qed.

Lemma assign_all_query_dict (entries : list (str * list str)) (dc : dict) :
  Forall (fun kv => exists x, snd kv = [x] /\ x <> []) entries ->
  query_dict dc -> query_dict (assign_all entries dc).
Proof.
  unfold assign_all. revert dc.
  induction entries as [|[k v] entries IH]; intros dc He Hd; [exact Hd|].
  inversion He as [|? ? [x [Hx Hne]] He']; subst. cbn [snd] in Hx. subst v.
  cbn [fold_left fst snd]. apply IH; [exact He'|].
  destruct Hd as [H1 H2]. split.
  - now apply dict_set_keys_NoDup.
  - now apply dict_set_values_present.
Qed.

Lemma split_on_head_nonempty (sep c : char) (s : str) :
  c <> sep -> exists f its, split_on sep (c :: s) = (c :: f) :: its.
Proof.
  intros H. unfold split_on. cbn [split_on_from].
  apply N.eqb_neq in H. rewrite H. rewrite split_on_from_cur.
  destruct (split_on_from sep [] s) as [|f0 its] eqn:E.
  - now apply split_on_from_not_nil in E.
  - exists f0, its. reflexivity.
Qed.

Lemma query_parts_nonempty (date_str time_str : str) (s : query_parts) :
  _date_time_to_query_parts date_str time_str = Ok s ->
  q_day s <> [] /\ q_month s <> [] /\ q_year s <> []
  /\ q_hour s <> [] /\ q_min s <> [].
Proof.
  unfold _date_time_to_query_parts.
  destruct (matches DATE_RE date_str) eqn:Ed; cbn [negb]; [|discriminate].
  destruct (matches TIME_RE time_str) eqn:Et; cbn [negb]; [|discriminate].
  apply DATE_RE_shape in Ed.
  destruct Ed as (y1 & y2 & y3 & y4 & m1 & m2 & d1 & d2 & tail & -> & Hd & _).
  assert (Hy : y1 <> ch "-").
  { intros ->. cbn [forallb] in Hd. discriminate Hd. }
  cbn [app].
  destruct (@split_on_head_nonempty (ch "-") y1
              ([y2; y3; y4; ch "-"; m1; m2; ch "-"; d1; d2] ++ tail) Hy)
    as (f & its & E).
  cbn [app] in E. rewrite E.
  destruct its as [|m [|d [|x its]]]; try discriminate.
  destruct (split_on (ch ":") time_str) as [|hh [|mm [|x its]]]; try discriminate.
  intros H. apply Ok_inj in H. subst s. cbn [q_day q_month q_year q_hour q_min].
  repeat split; try apply strip0_nonempty. discriminate.
Qed.

Lemma window_entries_values (date_s time_s date_e time_e : str) (s e : query_parts) :
  _date_time_to_query_parts date_s time_s = Ok s ->
  _date_time_to_query_parts date_e time_e = Ok e ->
  Forall (fun kv => exists x, snd kv = [x] /\ x <> []) (window_entries s e).
Proof.
  intros Hs He.
  apply query_parts_nonempty in Hs. destruct Hs as (S1 & S2 & S3 & S4 & S5).
  apply query_parts_nonempty in He. destruct He as (E1 & E2 & E3 & E4 & E5).
  unfold window_entries.
  repeat (constructor; [cbn [snd]; eexists; split; [reflexivity|];
                        first [assumption|discriminate]|]).
  constructor.
Qed.

Lemma dict_set_settled (k : str) (v : list str) (dc : dict) :
  dict_get k dc = Some v -> dict_set k v dc = dc.
Proof.
  induction dc as [|[k0 v0] dc IH]; cbn [dict_get dict_set]; [discriminate|].
  destruct (str_eqb k0 k).
  - intros H. now injection H as ->.
  - intros H. now rewrite IH.
Qed.

Lemma assign_all_settled (entries : list (str * list str)) (dc : dict) :
  (forall k v, In (k, v) entries -> dict_get k dc = Some v) ->
  assign_all entries dc = dc.
Proof.
  unfold assign_all. induction entries as [|[k v] entries IH]; intros H;
    [reflexivity|].
  cbn [fold_left fst snd]. rewrite dict_set_settled by (apply H; now left).
  apply IH. intros k' v' Hin. apply H. now right.
Qed.

(** Assigning the same entries a second time changes nothing. *)
Lemma assign_all_twice (entries : list (str * list str)) (dc : dict) :
  NoDup (map fst entries) ->
  assign_all entries (assign_all entries dc) = assign_all entries dc.
Proof.
  intros H. apply assign_all_settled. intros k v Hin.
  now apply assign_all_get_in.
Qed.

Lemma dict_get_absent (k : str) (dc : dict) :
  ~ In k (map fst dc) -> dict_get k dc = None.
Proof.
  induction dc as [|[k0 v0] dc IH]; [reflexivity|]. cbn [map fst dict_get].
  intros H. destruct (str_eqb k0 k) eqn:E.
  - apply str_eqb_eq in E. exfalso. apply H. now left.
  - apply IH. intros X. apply H. now right.
Qed.

(** Two dicts with the same keys in the same order and the same value at
    every key are the same dict. *)
Lemma dict_ext (a b : dict) :
  NoDup (map fst a) -> map fst a = map fst b ->
  (forall k, dict_get k a = dict_get k b) -> a = b.
Proof.
  revert b. induction a as [|[k v] a IH]; intros [|[k' v'] b] Hnd Hk Hg;
    try discriminate Hk; [reflexivity|].
  cbn [map fst] in Hk, Hnd. assert (k' = k) by congruence. subst k'.
  assert (Hk' : map fst a = map fst b) by congruence.
  inversion Hnd as [|? ? Hnin Hnd']; subst.
  pose proof (Hg k) as Hv. cbn [dict_get] in Hv. rewrite str_eqb_refl in Hv.
  assert (v' = v) by congruence. subst v'. f_equal.
  apply IH; [exact Hnd'|exact Hk'|]. intros k0.
  destruct (str_eqb k k0) eqn:E.
  - apply str_eqb_eq in E. subst k0.
    rewrite !dict_get_absent; [reflexivity|now rewrite <- Hk'|exact Hnin].
  - specialize (Hg k0). cbn [dict_get] in Hg. now rewrite E in Hg.
Qed.

Lemma assign_all_keys_NoDup (entries : list (str * list str)) (dc : dict) :
  NoDup (map fst dc) -> NoDup (map fst (assign_all entries dc)).
Proof.
  unfold assign_all. revert dc.
  induction entries as [|[k v] entries IH]; intros dc H; [exact H|].
  cbn [fold_left fst snd]. apply IH. now apply dict_set_keys_NoDup.
Qed.

Lemma filter_none {A} (f : A -> bool) (l : list A) :
  (forall x, In x l -> f x = false) -> filter f l = [].
Proof.
  induction l as [|x l IH]; intros H; [reflexivity|]. cbn [filter].
  rewrite (H x) by now left. apply IH. intros y Hy. apply H. now right.
Qed.

(** A second round of assignments to the same keys overrides the first. *)
Lemma assign_all_overrides (first second : list (str * list str)) (dc : dict) :
  NoDup (map fst first) -> map fst second = map fst first -> NoDup (map fst dc) ->
  assign_all second (assign_all first dc) = assign_all second dc.
Proof.
  intros Hnd Hk Hdc.
  assert (Hnd2 : NoDup (map fst second)) by now rewrite Hk.
  apply dict_ext.
  - now apply assign_all_keys_NoDup, assign_all_keys_NoDup.
  - rewrite (@assign_all_keys second (assign_all first dc) Hnd2).
    rewrite (@filter_none _ (fun k => negb (has_key k (assign_all first dc)))).
    { rewrite app_nil_r.
      now rewrite (@assign_all_keys second dc Hnd2), (@assign_all_keys first dc Hnd), Hk. }
    rewrite Hk.
    intros k Hin. apply negb_false_iff. apply has_key_In.
    rewrite (@assign_all_keys first dc Hnd). apply in_or_app.
    destruct (has_key k dc) eqn:E.
    + left. now apply has_key_In.
    + right. apply filter_In. split; [exact Hin|]. now rewrite E.
  - intros k.
    destruct (in_dec (list_eq_dec N.eq_dec) k (map fst second)) as [Hin|Hnin].
    + apply in_map_iff in Hin. destruct Hin as [[k0 v] [E Hin]].
      cbn [fst] in E. subst k0.
      rewrite (@assign_all_get_in second k v _ Hnd2 Hin).
      now rewrite (@assign_all_get_in second k v _ Hnd2 Hin).
    + rewrite !(@assign_all_get_other second k _ Hnin).
      apply assign_all_get_other. now rewrite <- Hk.
Qed.

(** What the builder wrote parses back to the dict it encoded. *)
Lemma rewritten_query_parses_back (q sd st ed et out : str) :
  rewritten_query q sd st ed et = Ok out ->
  exists s e,
    _date_time_to_query_parts sd st = Ok s
    /\ _date_time_to_query_parts ed et = Ok e
    /\ urlencode (assign_all (window_entries s e) (parse_qs q)) = Ok out
    /\ parse_qs out = assign_all (window_entries s e) (parse_qs q).
Proof.
  intros H. apply rewritten_query_ok in H. destruct H as (s & e & Hs & He & Hu).
  exists s, e. repeat (split; [assumption|]).
  apply parse_qs_urlencode; [|exact Hu].
  apply assign_all_query_dict; [|apply parse_qs_query_dict].
  exact (@window_entries_values _ _ _ _ _ _ Hs He).
Qed.

(** ** The frame of the URL builder, on the text *)

(** A field [name=value] of a query text, its value not blank, gives the
    pair of the decoded name and the decoded value. *)
Lemma parse_qsl_field (q name value : str) :
  In (name ++ ch "=" :: value) (split_on (ch "&") q) ->
  contains (ch "=") name = false -> value <> [] ->
  In (unquote (replace_char (ch "+") (ch " ") name),
      unquote (replace_char (ch "+") (ch " ") value)) (parse_qsl q).
Proof.
  intros Hin Hn Hv. unfold parse_qsl.
  assert (Hq : q <> []).
  { eapply split_on_nonempty_field; [exact Hin|]. destruct name; discriminate. }
  destruct q as [|c q]; [congruence|]. cbn [is_empty].
  apply in_flat_map. exists (name ++ ch "=" :: value). split; [exact Hin|].
  unfold parse_field, split_once. rewrite split_once_from_app by exact Hn.
  cbn [rev app].
  destruct (name ++ ch "=" :: value) eqn:E; [now destruct name|]. cbn [is_empty].
  destruct value as [|v0 value]; [congruence|]. cbn [is_empty]. now left.
Qed.

(** Every value of every key of an encoded dict is a field of the text:
    the key and the value, each as [quote_plus] writes it. *)
Lemma urlencode_entry_present (dc : dict) (out k v : str) (vs : list str) :
  urlencode dc = Ok out -> In (k, vs) dc -> In v vs ->
  exists k' v',
    quote_plus k = Ok k' /\ quote_plus v = Ok v'
    /\ In (k' ++ ch "=" :: v') (split_on (ch "&") out).
Proof.
  intros Hout Hkv Hv.
  assert (Hq : exists k' v', quote_plus k = Ok k' /\ quote_plus v = Ok v').
  { unfold urlencode in Hout.
    destruct (mapM encode_entry dc) as [l|] eqn:El; [|discriminate].
    destruct (mapM_In _ _ _ El Hkv) as [fields [Hf _]].
    unfold encode_entry in Hf. cbn [fst snd] in Hf.
    destruct (quote_plus k) as [k'|]; [|discriminate]. cbn [bind] in Hf.
    destruct (mapM_In _ _ _ Hf Hv) as [f [Hfv _]].
    destruct (quote_plus v) as [v'|]; [|discriminate].
    now exists k', v'. }
  destruct Hq as (k' & v' & Hk' & Hv').
  exists k', v'. split; [exact Hk'|]. split; [exact Hv'|].
  exact (@urlencode_field dc out k v k' v' vs Hout Hkv Hv Hk' Hv').
Qed.

(** C3, amended.  For a date and time pair that passes the patterns, the new
    query is the encoding of the dict parsed from the base query with the
    eleven keys assigned: the ten date and time keys hold the rendered
    fields and [output] holds [ascii], and read back the new query gives
    exactly that dict.  Every other parameter of the base query that has a
    value is in the new query, with the name and the value it decodes to: as
    the field [quote_plus(name)=quote_plus(value)], which is its own text,
    letter for letter, when name and value are made of always-safe
    characters, and a fresh encoding otherwise. *)
Theorem rewritten_query_frame (q sd st ed et : str) :
  matches DATE_RE sd = true -> matches TIME_RE st = true ->
  matches DATE_RE ed = true -> matches TIME_RE et = true ->
  exists s e,
    _date_time_to_query_parts sd st = Ok s
    /\ _date_time_to_query_parts ed et = Ok e
    /\ rewritten_query q sd st ed et
       = urlencode (assign_all (window_entries s e) (parse_qs q))
    /\ (forall k v, In (k, v) (window_entries s e) ->
                    dict_get k (assign_all (window_entries s e) (parse_qs q)) = Some v)
    /\ (forall k, ~ In k window_keys ->
                  dict_get k (assign_all (window_entries s e) (parse_qs q))
                  = dict_get k (parse_qs q))
    /\ (forall out name value,
           rewritten_query q sd st ed et = Ok out ->
           In (name ++ ch "=" :: value) (split_on (ch "&") q) ->
           ~ In name window_keys ->
           value <> [] ->
           forallb always_safe (name ++ value) = true ->
           In (name ++ ch "=" :: value) (split_on (ch "&") out))
    /\ (forall out name value,
           rewritten_query q sd st ed et = Ok out ->
           In (name ++ ch "=" :: value) (split_on (ch "&") q) ->
           contains (ch "=") name = false ->
           value <> [] ->
           ~ In (unquote (replace_char (ch "+") (ch " ") name)) window_keys ->
           exists k' v',
             quote_plus (unquote (replace_char (ch "+") (ch " ") name)) = Ok k'
             /\ quote_plus (unquote (replace_char (ch "+") (ch " ") value)) = Ok v'
             /\ In (k' ++ ch "=" :: v') (split_on (ch "&") out))
    /\ (forall out,
           rewritten_query q sd st ed et = Ok out ->
           parse_qs out = assign_all (window_entries s e) (parse_qs q)).
Proof.
  intros Hsd Hst Hed Het.
  destruct (date_time_parts_ok _ _ Hsd Hst) as (y & m & d & hh & mm & _ & _ & Hs).
  destruct (date_time_parts_ok _ _ Hed Het) as (y' & m' & d' & hh' & mm' & _ & _ & He).
  eexists. eexists. split; [exact Hs|]. split; [exact He|].
  match goal with
  | |- context [window_entries ?a ?b] => set (s := a) in *; set (e := b) in *
  end.
  pose proof (@rewritten_query_valid q sd st ed et s e Hs He) as Hrq.
  assert (Hframe : forall out k v,
             urlencode (assign_all (window_entries s e) (parse_qs q)) = Ok out ->
             In (k, v) (parse_qsl q) -> ~ In k window_keys ->
             exists vs, In (k, vs) (assign_all (window_entries s e) (parse_qs q))
                        /\ In v vs).
  { intros out k v Hout Hpair Hk.
    apply parse_qs_holds in Hpair. destruct Hpair as [vs [Hg Hval]].
    rewrite <- (@assign_all_get_other (window_entries s e) k (parse_qs q)) in Hg
      by now rewrite window_entries_keys.
    apply dict_get_In in Hg. destruct Hg as [k0 [Hk0 Hkv]].
    apply str_eqb_eq in Hk0. subst k0. now exists vs. }
  split; [exact Hrq|]. split; [|split; [|split; [|split]]].
  - intros k v Hin. apply assign_all_get_in; [|exact Hin].
    rewrite window_entries_keys. exact window_keys_NoDup.
  - intros k Hk. apply assign_all_get_other. now rewrite window_entries_keys.
  - intros out name value Hout Hin Hname Hv Hsafe.
    rewrite Hrq in Hout.
    assert (Hpair : In (name, value) (parse_qsl q))
      by (apply parse_qsl_plain; assumption).
    destruct (Hframe out name value Hout Hpair Hname) as [vs [Hkv Hval]].
    rewrite forallb_app in Hsafe. apply andb_true_iff in Hsafe.
    destruct Hsafe as [Hn Hvs].
    eapply urlencode_field;
      [exact Hout | exact Hkv | exact Hval
       | apply quote_plus_plain; exact Hn | apply quote_plus_plain; exact Hvs].
  - intros out name value Hout Hin Hname Hv Hk.
    rewrite Hrq in Hout.
    pose proof (@parse_qsl_field q name value Hin Hname Hv) as Hpair.
    destruct (Hframe out _ _ Hout Hpair Hk) as [vs [Hkv Hval]].
    exact (@urlencode_entry_present _ out _ _ vs Hout Hkv Hval).
  - intros out Hout. rewrite Hrq in Hout.
    apply parse_qs_urlencode; [|exact Hout].
    apply assign_all_query_dict; [|apply parse_qs_query_dict].
    exact (@window_entries_values _ _ _ _ _ _ Hs He).
Qed.

(** On the default query the parameter [tabchoice=revori] is kept letter
    for letter, and [stations[]=OULU] is there with its brackets encoded. *)
Lemma rewritten_query_frame_witness :
  matches DATE_RE (py "2024-07-29") = true
  /\ matches TIME_RE (py "00:00") = true
  /\ matches DATE_RE (py "2025-08-29") = true
  /\ matches TIME_RE (py "23:59") = true
  /\ exists out,
      rewritten_query Demo.default_query (py "2024-07-29") (py "00:00")
                      (py "2025-08-29") (py "23:59") = Ok out
      /\ In (py "tabchoice=revori") (split_on (ch "&") out)
      /\ In (py "stations%5B%5D=OULU") (split_on (ch "&") out).
Proof.
  split; [reflexivity|]. split; [reflexivity|].
  split; [reflexivity|]. split; [reflexivity|].
  destruct (@rewritten_query_frame Demo.default_query (py "2024-07-29") (py "00:00")
              (py "2025-08-29") (py "23:59") eq_refl eq_refl eq_refl eq_refl)
    as (s & e & _ & _ & _ & _ & _ & Hbytes & Hfresh & _).
  destruct (rewritten_query Demo.default_query (py "2024-07-29") (py "00:00")
                            (py "2025-08-29") (py "23:59")) as [out|err] eqn:E;
    [|vm_compute in E; discriminate E].
  exists out. split; [reflexivity|]. split.
  - apply (Hbytes out (py "tabchoice") (py "revori") eq_refl).
    + vm_compute. tauto.
    + vm_compute. intros X. repeat (destruct X as [X|X]; [discriminate X|]). exact X.
    + discriminate.
    + reflexivity.
  - destruct (Hfresh out (py "stations[]") (py "OULU") eq_refl) as (k' & v' & Hk & Hv & Hin).
    + vm_compute. tauto.
    + reflexivity.
    + discriminate.
    + vm_compute. intros X. repeat (destruct X as [X|X]; [discriminate X|]). exact X.
    + vm_compute in Hk. apply Ok_inj in Hk. subst k'.
      vm_compute in Hv. apply Ok_inj in Hv. subst v'. exact Hin.
Defined.

(** A parameter with a blank value, or with no [=], is not among the pairs
    [parse_qs] returns with its default flags, so the builder does not write
    it; its neighbours are written.  The statement above speaks of
    parameters with a value only. *)
Lemma parameters_without_value_are_not_written :
  exists out,
    rewritten_query (py "a=&b&c=1") (py "2024-07-29") (py "00:00")
                    (py "2025-08-29") (py "23:59") = Ok out
    /\ hd [] (split_on (ch "&") out) = py "c=1"
    /\ ~ In (py "a=") (split_on (ch "&") out)
    /\ ~ In (py "b") (split_on (ch "&") out).
Proof.
  eexists. split; [vm_compute; reflexivity|]. split; [reflexivity|].
  split; vm_compute; intros X;
    repeat (destruct X as [X|X]; [discriminate X|]); exact X.
Qed.

(** X12.  The query the builder writes says what the builder meant: read
    with [parse_qs], as the code itself reads the base query, it gives the
    dict that was encoded.  Each of the eleven keys holds exactly its one new
    value, and every other key holds the decoded values it held in the base
    query, with nothing lost or added by the encoding. *)
Theorem new_query_parses_to_assigned_dict (q sd st ed et out : str) :
  rewritten_query q sd st ed et = Ok out ->
  exists s e,
    _date_time_to_query_parts sd st = Ok s
    /\ _date_time_to_query_parts ed et = Ok e
    /\ parse_qs out = assign_all (window_entries s e) (parse_qs q)
    /\ (forall k v, In (k, v) (window_entries s e) ->
                    dict_get k (parse_qs out) = Some v)
    /\ (forall k, ~ In k window_keys ->
                  dict_get k (parse_qs out) = dict_get k (parse_qs q)).
Proof.
  intros H. apply rewritten_query_parses_back in H.
  destruct H as (s & e & Hs & He & _ & Hp).
  exists s, e. repeat (split; [assumption|]). rewrite Hp. split.
  - intros k v Hin. apply assign_all_get_in; [|exact Hin].
    rewrite window_entries_keys. apply window_keys_NoDup.
  - intros k Hk. apply assign_all_get_other. now rewrite window_entries_keys.
Qed.

Lemma new_query_parses_to_assigned_dict_witness :
  exists out s e,
    rewritten_query (py "station=a%2Fb+c&output=plot&tag=x&tag=y")
                    (py "2025-07-29") (py "00:05") (py "2025-08-01") (py "23:59")
    = Ok out
    /\ _date_time_to_query_parts (py "2025-07-29") (py "00:05") = Ok s
    /\ _date_time_to_query_parts (py "2025-08-01") (py "23:59") = Ok e
    /\ parse_qs out
       = assign_all (window_entries s e)
                    (parse_qs (py "station=a%2Fb+c&output=plot&tag=x&tag=y")).
Proof.
  destruct (rewritten_query (py "station=a%2Fb+c&output=plot&tag=x&tag=y")
                            (py "2025-07-29") (py "00:05")
                            (py "2025-08-01") (py "23:59"))
    as [out|x] eqn:E; [|vm_compute in E; discriminate E].
  destruct (@new_query_parses_to_assigned_dict _ _ _ _ _ _ E)
    as (s & e & Hs & He & Hp & _).
  exists out, s, e. repeat split; assumption.
Defined.

(** X13.  The builder can be applied to its own result.  Rewriting the
    query it wrote, for any second window, gives what rewriting the base
    query for that window gives (the same text or the same error): the last
    window wins and nothing of the first one is left.  With the same window
    again the query comes back unchanged. *)
Theorem rewriting_again_keeps_last_window (q sd st ed et out : str) :
  rewritten_query q sd st ed et = Ok out ->
  (forall sd' st' ed' et',
      rewritten_query out sd' st' ed' et' = rewritten_query q sd' st' ed' et')
  /\ rewritten_query out sd st ed et = Ok out.
Proof.
  intros H.
  assert (Hall : forall sd' st' ed' et',
             rewritten_query out sd' st' ed' et' = rewritten_query q sd' st' ed' et').
  { intros sd' st' ed' et'.
    destruct (rewritten_query_parses_back _ _ _ _ _ H) as (s & e & _ & _ & _ & Hp).
    unfold rewritten_query.
    destruct (_date_time_to_query_parts sd' st') as [s'|x]; [|reflexivity].
    destruct (_date_time_to_query_parts ed' et') as [e'|x]; [|reflexivity].
    cbn [bind]. rewrite Hp. f_equal. apply assign_all_overrides.
    - rewrite window_entries_keys. apply window_keys_NoDup.
    - now rewrite !window_entries_keys.
    - apply parse_qs_keys_NoDup. }
  split; [exact Hall|]. now rewrite Hall.
Qed.

Lemma rewriting_again_keeps_last_window_witness :
  exists out,
    rewritten_query (py "station=a%2Fb+c&output=plot&tag=x&tag=y")
                    (py "2025-07-29") (py "00:05") (py "2025-08-01") (py "23:59")
    = Ok out
    /\ rewritten_query out (py "2025-07-29") (py "00:05")
                       (py "2025-08-01") (py "23:59") = Ok out.
Proof.
  destruct (rewritten_query (py "station=a%2Fb+c&output=plot&tag=x&tag=y")
                            (py "2025-07-29") (py "00:05")
                            (py "2025-08-01") (py "23:59"))
    as [out|x] eqn:E; [|vm_compute in E; discriminate E].
  exists out. split; [reflexivity|].
  exact (proj2 (@rewriting_again_keeps_last_window _ _ _ _ _ _ E)).
Defined.

(* ================================================================== *)
(** * Further properties of the table assembler *)
(* ================================================================== *)

Lemma mapM_length {A B} (f : A -> res B) (l : list A) (bs : list B) :
  mapM f l = Ok bs -> List.length bs = List.length l.
Proof.
  revert bs. induction l as [|a l IH]; intros bs H; cbn [mapM] in H.
  - apply Ok_inj in H. now subst.
  - destruct (f a) as [b|]; [|discriminate]. cbn [bind] in H.
    destruct (mapM f l) as [bs'|]; [|discriminate]. cbn [bind] in H.
    apply Ok_inj in H. subst bs. cbn [List.length]. now rewrite (IH bs' eq_refl).
Qed.

Lemma appended_length (rs : list (option (format * raw_row))) :
  List.length (flat_map appended rs) <= List.length rs.
Proof.
  induction rs as [|r rs IH]; [apply le_n|]. cbn [flat_map].
  rewrite length_app. destruct r as [[f r]|]; cbn [appended List.length]; lia.
Qed.

Lemma parse_lines_length (lines : list str) (rows : list raw_row) :
  parse_lines lines = Ok rows -> List.length rows <= List.length lines.
Proof.
  unfold parse_lines. destruct (mapM parse_line lines) as [rs|] eqn:E; [|discriminate].
  cbn [bind]. intros H. apply Ok_inj in H. subst rows.
  rewrite <- (mapM_length _ _ E). apply appended_length.
Qed.

Lemma parse_lines_all_passed (lines : list str) :
  Forall (fun ln => parse_line ln = Ok None) lines -> parse_lines lines = Ok [].
Proof.
  unfold parse_lines. induction lines as [|ln lines IH]; intros H; [reflexivity|].
  inversion H as [|? ? H1 H2]; subst. specialize (IH H2). cbn [mapM].
  rewrite H1. cbn [bind].
  destruct (mapM parse_line lines) as [rs|]; [|discriminate]. cbn [bind] in *.
  apply Ok_inj in IH. cbn [flat_map appended app]. now rewrite IH.
Qed.

Lemma dropna_length {num} (cols : list (option Z * option num)) :
  List.length (dropna cols) <= List.length cols.
Proof.
  unfold dropna. induction cols as [|c cols IH]; [apply le_n|]. cbn [flat_map].
  rewrite length_app. destruct c as [[t|] [v|]]; cbn [keep List.length]; lia.
Qed.

Lemma sort_contract_nil {num} (sort_values : list (row num) -> list (row num)) :
  sort_contract sort_values -> sort_values [] = [].
Proof. intros H. destruct (H []) as [Hp _]. now apply Permutation_nil. Qed.

Lemma ts_le_trans {num} (a b c : row num) : ts_le a b -> ts_le b c -> ts_le a c.
Proof. unfold ts_le. lia. Qed.

Lemma sorted_strongly {num} (l : list (row num)) :
  Sorted ts_le l -> StronglySorted ts_le l.
Proof.
  apply Sorted_StronglySorted. intros a b c. apply ts_le_trans.
Qed.

(** An ascending arrangement of rows of pairwise distinct timestamps is the
    only one. *)
Lemma sorted_perm_unique {num} (l1 l2 : list (row num)) :
  NoDup (map fst l1) -> Permutation l1 l2 ->
  StronglySorted ts_le l1 -> StronglySorted ts_le l2 -> l1 = l2.
Proof.
  revert l2. induction l1 as [|a l1 IH]; intros l2 Hnd Hp H1 H2.
  - apply Permutation_nil in Hp. now subst.
  - destruct l2 as [|b l2].
    + apply Permutation_sym, Permutation_nil in Hp. discriminate.
    + cbn [map] in Hnd. inversion Hnd as [|? ? Hnin Hnd']; subst.
      inversion H1 as [|? ? S1 F1]; subst. inversion H2 as [|? ? S2 F2]; subst.
      rewrite Forall_forall in F1, F2.
      assert (Hab : a = b).
      { assert (Ha : In a (b :: l2)) by (apply (Permutation_in _ Hp); now left).
        destruct Ha as [Ha|Ha]; [now symmetry|].
        assert (Hb : In b (a :: l1))
          by (apply (Permutation_in _ (Permutation_sym Hp)); now left).
        destruct Hb as [Hb|Hb]; [exact Hb|].
        pose proof (F2 _ Ha) as L1. pose proof (F1 _ Hb) as L2. unfold ts_le in *.
        exfalso. apply Hnin. replace (fst a) with (fst b) by lia.
        now apply in_map. }
      subst b. f_equal. apply IH; try assumption.
      now apply Permutation_cons_inv in Hp.
Qed.

Lemma strongly_sorted_strict {num} (l : list (row num)) :
  NoDup (map fst l) -> StronglySorted ts_le l ->
  StronglySorted (fun a b => (fst a < fst b)%Z) l.
Proof.
  induction l as [|a l IH]; intros Hnd Hs; [constructor|].
  cbn [map] in Hnd. inversion Hnd as [|? ? Hnin Hnd']; subst.
  inversion Hs as [|? ? S F]; subst. constructor; [now apply IH|].
  rewrite Forall_forall in *. intros b Hb. specialize (F b Hb). unfold ts_le in F.
  assert (fst a <> fst b) by (intros E; apply Hnin; rewrite E; now apply in_map).
  lia.
Qed.

(** X14.  When the rows that are kept have pairwise distinct timestamps,
    the table does not depend on the sort: two sorts that both keep the
    library's promise give the same table, and its timestamps are strictly
    ascending.  The freedom the default [kind] leaves concerns ties only. *)
Theorem table_is_unique_without_ties
        (num : Type) (to_datetime : list str -> list (option Z))
        (to_numeric : list str -> list (option num))
        (sort1 sort2 : list (row num) -> list (row num))
        (rows : list raw_row) :
  sort_contract sort1 -> sort_contract sort2 ->
  NoDup (map fst (dropna (combine (to_datetime (map fst rows))
                                  (to_numeric (map snd rows))))) ->
  assemble to_datetime to_numeric sort1 rows
  = assemble to_datetime to_numeric sort2 rows
  /\ StronglySorted (fun a b => (fst a < fst b)%Z)
                    (assemble to_datetime to_numeric sort1 rows).
Proof.
  intros C1 C2 Hnd. unfold assemble, assemble_columns.
  set (kept := dropna (combine (to_datetime (map fst rows))
                               (to_numeric (map snd rows)))) in *.
  destruct (C1 kept) as [P1 S1]. destruct (C2 kept) as [P2 S2].
  assert (Hnd1 : NoDup (map fst (sort1 kept))).
  { apply (Permutation_NoDup (l := map fst kept)); [|exact Hnd].
    now apply Permutation_map. }
  split.
  - apply sorted_perm_unique; [exact Hnd1| |now apply sorted_strongly
                              |now apply sorted_strongly].
    eapply Permutation_trans; [apply Permutation_sym, P1|exact P2].
  - apply strongly_sorted_strict; [exact Hnd1|now apply sorted_strongly].
Qed.

Lemma table_is_unique_without_ties_witness :
  let rows := [(py "2025-07-29 00:10", py "7"); (py "garbage", py "8");
               (py "2025-07-29 00:05", py "9")] in
  assemble Demo.to_datetime Demo.to_numeric Demo.sort_stable rows
  = assemble Demo.to_datetime Demo.to_numeric Demo.sort_reversing rows
  /\ StronglySorted (fun a b => (fst a < fst b)%Z)
                    (assemble Demo.to_datetime Demo.to_numeric Demo.sort_stable rows).
Proof.
  cbv zeta.
  apply (@table_is_unique_without_ties
           N Demo.to_datetime Demo.to_numeric Demo.sort_stable Demo.sort_reversing
           [(py "2025-07-29 00:10", py "7"); (py "garbage", py "8");
            (py "2025-07-29 00:05", py "9")]
           (insertion_sort_contract false) (insertion_sort_contract true)).
  vm_compute. repeat constructor; simpl; intuition discriminate.
Defined.

(** X15.  The assembler invents no row: the table has at most as many rows
    as the loop appended, and the loop appends at most one row for a line of
    the text. *)
Theorem table_has_at_most_one_row_per_line
        (num : Type) (to_datetime : list str -> list (option Z))
        (to_numeric : list str -> list (option num))
        (sort_values : list (row num) -> list (row num))
        (text : str) (table : list (row num)) :
  column_contract to_datetime ->
  sort_contract sort_values ->
  _parse_ascii to_datetime to_numeric sort_values text = Ok table ->
  exists rows,
    raw_rows text = Ok rows
    /\ List.length table <= List.length rows
    /\ List.length rows <= List.length (splitlines text).
Proof.
  intros Hd Hs H. unfold _parse_ascii in H.
  destruct (raw_rows text) as [rows|] eqn:Er; [|discriminate]. cbn [bind] in H.
  apply Ok_inj in H. subst table. exists rows. split; [reflexivity|]. split.
  - unfold assemble, assemble_columns.
    destruct (Hs (dropna (combine (to_datetime (map fst rows))
                                  (to_numeric (map snd rows))))) as [Hp _].
    rewrite <- (Permutation_length Hp).
    eapply Nat.le_trans; [apply dropna_length|].
    rewrite length_combine, Hd, length_map. apply Nat.le_min_l.
  - now apply parse_lines_length.
Qed.

Lemma table_has_at_most_one_row_per_line_witness :
  let text := py "# OULU" ++ [0x0a%N] ++ py "2025-07-29 00:05:00 9" ++ [0x0a%N]
              ++ py "2025-07-29 n/a 7" in
  exists table rows,
    _parse_ascii Demo.to_datetime Demo.to_numeric Demo.sort_stable text = Ok table
    /\ raw_rows text = Ok rows
    /\ List.length table <= List.length rows
    /\ List.length rows <= List.length (splitlines text).
Proof.
  cbv zeta.
  destruct (_parse_ascii Demo.to_datetime Demo.to_numeric (Demo.sort_stable (num:=N))
              (py "# OULU" ++ [0x0a%N] ++ py "2025-07-29 00:05:00 9" ++ [0x0a%N]
               ++ py "2025-07-29 n/a 7")) as [table|x] eqn:E;
    [|vm_compute in E; discriminate E].
  destruct (@table_has_at_most_one_row_per_line
              N Demo.to_datetime Demo.to_numeric Demo.sort_stable _ table
              (proj1 Demo_columns_contract) (insertion_sort_contract false) E)
    as (rows & H1 & H2 & H3).
  exists table, rows. repeat split; assumption.
Defined.

(* ================================================================== *)
(** * Further properties of the operation *)
(* ================================================================== *)

Lemma passed_over_rows (text : str) :
  Forall passed_over (splitlines text) -> raw_rows text = Ok [].
Proof.
  intros H. unfold raw_rows. apply parse_lines_all_passed.
  revert H. apply Forall_impl. intros ln. apply passed_over_parse_line.
Qed.

Lemma assemble_nothing {num} (to_datetime : list str -> list (option Z))
      (to_numeric : list str -> list (option num))
      (sort_values : list (row num) -> list (row num)) :
  column_contract to_datetime -> sort_contract sort_values ->
  assemble to_datetime to_numeric sort_values [] = [].
Proof.
  intros Hd Hs. unfold assemble, assemble_columns. cbn [map].
  pose proof (Hd []) as Hl. destruct (to_datetime []); [|discriminate Hl].
  cbn [combine dropna flat_map]. now apply sort_contract_nil.
Qed.

(** X16.  A response in which no line can be read, be it empty, blank,
    comments or text that none of the formats takes, ends the run the way an
    empty table does: the table is empty, the response is written to
    [nmdb_debug.txt], [RuntimeError] is raised, and one request and one
    printed line are all else that happened. *)
Theorem unreadable_response_fails_with_dump
        (num : Type) (urlparse : str -> res ParseResult)
        (to_datetime : list str -> list (option Z))
        (to_numeric : list str -> list (option num))
        (sort_values : list (row num) -> list (row num))
        (http_get : str -> res str) (csv_text : list (row num) -> str)
        (sd st ed et out_csv : str) (base_url : option str) (w : world)
        (url text : str) :
  column_contract to_datetime ->
  sort_contract sort_values ->
  _build_ascii_url urlparse (base_or_default base_url) sd st ed et = Ok url ->
  http_get url = Ok text ->
  Forall passed_over (splitlines text) ->
  _parse_ascii to_datetime to_numeric sort_values text = Ok []
  /\ nmdb_data urlparse to_datetime to_numeric sort_values http_get csv_text
               sd st ed et out_csv base_url w
     = (mkWorld (file_set debug_path text (files w))
                (requested w ++ [url])
                (printed w ++ [py "Descargando: " ++ url]),
        Raise (RuntimeError empty_msg)).
Proof.
  intros Hd Hs Hurl Hget Hlines.
  assert (Hp : _parse_ascii to_datetime to_numeric sort_values text = Ok []).
  { unfold _parse_ascii. rewrite (@passed_over_rows _ Hlines). cbn [bind].
    now rewrite assemble_nothing. }
  split; [exact Hp|].
  unfold nmdb_data, bind_io, lift, print, _download_text, write_text.
  rewrite Hurl. cbn. rewrite Hget, Hp. reflexivity.
Qed.

Lemma unreadable_response_fails_with_dump_witness :
  let text := py "# OULU" ++ [0x0a%N] ++ py "   " ++ [0x0a%N] ++ py "no data today" in
  let w := mkWorld [(default_out_csv, py "old csv")] [] [] in
  Forall passed_over (splitlines text)
  /\ nmdb_data Demo.urlparse Demo.to_datetime Demo.to_numeric Demo.sort_stable
               (Demo.serve text) Demo.csv_text
               (py "2024-07-29") (py "00:00") (py "2025-08-29") (py "23:59")
               default_out_csv None w
     = (mkWorld [(default_out_csv, py "old csv"); (debug_path, text)]
                [Demo.ascii_url] [py "Descargando: " ++ Demo.ascii_url],
        Raise (RuntimeError empty_msg)).
Proof.
  cbv zeta.
  assert (H1 : _build_ascii_url Demo.urlparse (base_or_default None)
                 (py "2024-07-29") (py "00:00") (py "2025-08-29") (py "23:59")
               = Ok Demo.ascii_url) by (vm_compute; reflexivity).
  assert (H2 : Forall passed_over
                      (splitlines (py "# OULU" ++ [0x0a%N] ++ py "   " ++ [0x0a%N]
                                   ++ py "no data today"))).
  { replace (splitlines (py "# OULU" ++ [0x0a%N] ++ py "   " ++ [0x0a%N]
                         ++ py "no data today"))
      with [py "# OULU"; py "   "; py "no data today"] by (vm_compute; reflexivity).
    constructor; [right; left; vm_compute; reflexivity|].
    constructor; [left; vm_compute; reflexivity|].
    constructor; [right; right; vm_compute; reflexivity|constructor]. }
  split; [exact H2|].
  destruct (@unreadable_response_fails_with_dump
              N Demo.urlparse Demo.to_datetime Demo.to_numeric Demo.sort_stable
              (Demo.serve (py "# OULU" ++ [0x0a%N] ++ py "   " ++ [0x0a%N]
                           ++ py "no data today")) Demo.csv_text
              (py "2024-07-29") (py "00:00") (py "2025-08-29") (py "23:59")
              default_out_csv None
              (mkWorld [(default_out_csv, py "old csv")] [] [])
              Demo.ascii_url _
              (proj1 Demo_columns_contract) (insertion_sort_contract false)
              H1 eq_refl H2) as [_ Hrun].
  etransitivity; [exact Hrun|]. reflexivity.
Defined.

(** X17.  When the request fails, whether [requests.get] raises or
    [raise_for_status] does, the run raises that very exception: it is
    neither caught nor replaced.  The request was sent once, the line that
    announces the download was printed, and no file was written, neither the
    CSV nor the debug dump. *)
Theorem failed_fetch_is_passed_on
        (num : Type) (urlparse : str -> res ParseResult)
        (to_datetime : list str -> list (option Z))
        (to_numeric : list str -> list (option num))
        (sort_values : list (row num) -> list (row num))
        (http_get : str -> res str) (csv_text : list (row num) -> str)
        (sd st ed et out_csv : str) (base_url : option str) (w : world)
        (url : str) (x : exn) :
  _build_ascii_url urlparse (base_or_default base_url) sd st ed et = Ok url ->
  http_get url = Raise x ->
  nmdb_data urlparse to_datetime to_numeric sort_values http_get csv_text
            sd st ed et out_csv base_url w
  = (mkWorld (files w) (requested w ++ [url])
             (printed w ++ [py "Descargando: " ++ url]),
     Raise x).
Proof.
  intros Hurl Hget.
  unfold nmdb_data, bind_io, lift, print, _download_text.
  rewrite Hurl. cbn. rewrite Hget. reflexivity.
Qed.

Lemma failed_fetch_is_passed_on_witness :
  let w := mkWorld [(default_out_csv, py "old csv")] [] [] in
  nmdb_data Demo.urlparse Demo.to_datetime Demo.to_numeric Demo.sort_stable
            (fun _ => Raise (HTTPError 503)) Demo.csv_text
            (py "2024-07-29") (py "00:00") (py "2025-08-29") (py "23:59")
            default_out_csv None w
  = (mkWorld [(default_out_csv, py "old csv")] [Demo.ascii_url]
             [py "Descargando: " ++ Demo.ascii_url],
     Raise (HTTPError 503)).
Proof.
  cbv zeta.
  assert (H1 : _build_ascii_url Demo.urlparse (base_or_default None)
                 (py "2024-07-29") (py "00:00") (py "2025-08-29") (py "23:59")
               = Ok Demo.ascii_url) by (vm_compute; reflexivity).
  exact (@failed_fetch_is_passed_on
           N Demo.urlparse Demo.to_datetime Demo.to_numeric Demo.sort_stable
           (fun _ => Raise (HTTPError 503)) Demo.csv_text
           (py "2024-07-29") (py "00:00") (py "2025-08-29") (py "23:59")
           default_out_csv None (mkWorld [(default_out_csv, py "old csv")] [] [])
           Demo.ascii_url (HTTPError 503) H1 eq_refl).
Defined.

(** X18.  A run whose table is not empty does, in this order: one request
    to the built URL, the CSV written at [out_csv] in place of what was
    there, two lines printed, the second with the number of rows of the
    table; it returns [out_csv] and the table.  No other file is touched: in
    particular the debug dump of an earlier run stays as it was, unless
    [out_csv] names that very file. *)
Theorem successful_run_saves_and_reports
        (num : Type) (urlparse : str -> res ParseResult)
        (to_datetime : list str -> list (option Z))
        (to_numeric : list str -> list (option num))
        (sort_values : list (row num) -> list (row num))
        (http_get : str -> res str) (csv_text : list (row num) -> str)
        (sd st ed et out_csv : str) (base_url : option str) (w : world)
        (url text : str) (df : list (row num)) :
  _build_ascii_url urlparse (base_or_default base_url) sd st ed et = Ok url ->
  http_get url = Ok text ->
  _parse_ascii to_datetime to_numeric sort_values text = Ok df ->
  df <> [] ->
  let run := nmdb_data urlparse to_datetime to_numeric sort_values http_get csv_text
                       sd st ed et out_csv base_url in
  run w
  = (mkWorld (file_set out_csv (csv_text df) (files w))
             (requested w ++ [url])
             (printed w ++ [py "Descargando: " ++ url;
                            py "CSV guardado en: " ++ out_csv ++ py "  (filas: "
                            ++ decimal (List.length df) ++ py ")"]),
     Ok (out_csv, df))
  /\ file_get out_csv (files (fst (run w))) = Some (csv_text df)
  /\ (forall path, path <> out_csv ->
                   file_get path (files (fst (run w))) = file_get path (files w)).
Proof.
  intros Hurl Hget Hparse Hne run.
  assert (Hrun : run w
                 = (mkWorld (file_set out_csv (csv_text df) (files w))
                            (requested w ++ [url])
                            (printed w ++ [py "Descargando: " ++ url;
                                           py "CSV guardado en: " ++ out_csv
                                           ++ py "  (filas: "
                                           ++ decimal (List.length df) ++ py ")"]),
                    Ok (out_csv, df))).
  { unfold run, nmdb_data, bind_io, lift, print, _download_text, write_text, ret.
    rewrite Hurl. cbn [bind]. cbn [files requested printed]. rewrite Hget, Hparse.
    destruct df as [|r df]; [congruence|].
    cbn [files requested printed]. now rewrite <- app_assoc. }
  rewrite Hrun. cbn [fst files]. split; [reflexivity|].
  split; [apply file_get_set_same|].
  intros path Hp. now apply file_get_set_other.
Qed.

Lemma successful_run_saves_and_reports_witness :
  let text := py "# OULU" ++ [0x0a%N] ++ py "2025-07-29 00:10:00 7" ++ [0x0a%N]
              ++ py "2025-07-29 00:05:00 9" in
  let w := mkWorld [(debug_path, py "old dump")] [] [] in
  nmdb_data Demo.urlparse Demo.to_datetime Demo.to_numeric Demo.sort_stable
            (Demo.serve text) Demo.csv_text
            (py "2024-07-29") (py "00:00") (py "2025-08-29") (py "23:59")
            default_out_csv None w
  = (mkWorld [(debug_path, py "old dump");
              (default_out_csv,
               Demo.csv_text [(20250729000500%Z, 9%N); (20250729001000%Z, 7%N)])]
             [Demo.ascii_url]
             [py "Descargando: " ++ Demo.ascii_url;
              py "CSV guardado en: nmdb_oulu.csv  (filas: 2)"],
     Ok (default_out_csv, [(20250729000500%Z, 9%N); (20250729001000%Z, 7%N)])).
Proof.
  cbv zeta.
  assert (H1 : _build_ascii_url Demo.urlparse (base_or_default None)
                 (py "2024-07-29") (py "00:00") (py "2025-08-29") (py "23:59")
               = Ok Demo.ascii_url) by (vm_compute; reflexivity).
  assert (H3 : _parse_ascii Demo.to_datetime Demo.to_numeric
                 (Demo.sort_stable (num:=N))
                 (py "# OULU" ++ [0x0a%N] ++ py "2025-07-29 00:10:00 7" ++ [0x0a%N]
                  ++ py "2025-07-29 00:05:00 9")
               = Ok [(20250729000500%Z, 9%N); (20250729001000%Z, 7%N)])
    by (vm_compute; reflexivity).
  destruct (@successful_run_saves_and_reports
              N Demo.urlparse Demo.to_datetime Demo.to_numeric Demo.sort_stable
              (Demo.serve (py "# OULU" ++ [0x0a%N] ++ py "2025-07-29 00:10:00 7"
                           ++ [0x0a%N] ++ py "2025-07-29 00:05:00 9")) Demo.csv_text
              (py "2024-07-29") (py "00:00") (py "2025-08-29") (py "23:59")
              default_out_csv None (mkWorld [(debug_path, py "old dump")] [] [])
              Demo.ascii_url _ _ H1 eq_refl H3 ltac:(discriminate)) as [Hrun _].
  etransitivity; [exact Hrun|]. vm_compute. reflexivity.
Defined.
